(** * Quaternion-to-pointer tracking engine: a shallow embedding

    The development follows the Python sources file by file:

    - [union_pygame.py]  class [QuaternionTo2DMotion]   (module [UnionPygame]):
      quaternion algebra and the delta tracker;
    - [Euler.py]         class [QuaternionToScreen]     (module [Euler]):
      the absolute Euler mapping with its dead zone, smoothing and clamp;
    - [comparing.py]     class [ImprovedQuaternionConverter] (module [Comparing]):
      the five projection methods and their shared post-processing.

    Numbers.  Python [float] values are idealised as real numbers ([R]):
    every arithmetic operation is exact, there is no rounding, no NaN and no
    infinity.  Python [int] values are [Z].  An operation that can raise in
    Python ([/] by zero, [math.sqrt] and [math.asin] outside their domain)
    is a function into the error monad [Py.result], so that "never raises"
    is a statement about the model and not an assumption of it. *)

From Stdlib Require Import Reals Lra Lia ZArith List Bool.
From Stdlib Require Import Zfloor Machin RNsatz.
From Stdlib Require String Ascii.
Import ListNotations.
Import String.StringSyntax Ascii.AsciiSyntax.
Delimit Scope string_scope with string.
Delimit Scope char_scope with char.

Local Open Scope R_scope.

(* ===================================================================== *)
(** * The Python fragment used by the sources *)
(* ===================================================================== *)

Module Py.

(** The two exceptions the arithmetic of the sources can raise. *)
Inductive exn : Set :=
| ZeroDivisionError
| ValueError.

Inductive result (A : Type) : Type :=
| Ok (a : A)
| Raise (e : exn).
Arguments Ok {A} a.
Arguments Raise {A} e.

Definition bind {A B : Type} (m : result A) (k : A -> result B) : result B :=
  match m with
  | Ok a => k a
  | Raise e => Raise e
  end.

(** [a / b] on floats.  (numpy's array division reports a zero divisor
    through a warning and non-finite entries instead of an exception; the
    model has no non-finite reals, so it is checked the same way.) *)
Definition truediv (a b : R) : result R :=
  if Req_dec_T b 0 then Raise ZeroDivisionError else Ok (a / b).

(** [math.sqrt]: raises [ValueError] on a negative argument. *)
Definition math_sqrt (a : R) : result R :=
  if Rlt_dec a 0 then Raise ValueError else Ok (sqrt a).

(** [math.asin]: raises [ValueError] outside [[-1, 1]]. *)
Definition math_asin (a : R) : result R :=
  if Rle_dec (Rabs a) 1 then Ok (asin a) else Raise ValueError.

(** [math.atan2 y x]: the angle of the point [(x, y)], in [(-PI, PI]]. *)
Definition math_atan2 (y x : R) : R :=
  if Rlt_dec 0 x then atan (y / x)
  else if Rlt_dec x 0 then
         if Rle_dec 0 y then atan (y / x) + PI else atan (y / x) - PI
  else if Rlt_dec 0 y then PI / 2
  else if Rlt_dec y 0 then - (PI / 2)
  else 0.

(** [math.copysign m s]: magnitude of [m], sign of [s]. *)
Definition math_copysign (m s : R) : R :=
  if Rlt_dec s 0 then - Rabs m else Rabs m.

(** [math.radians]. *)
Definition math_radians (deg : R) : R := deg * (PI / 180).

(** [int(r)] on a float: truncation toward zero. *)
Definition int (r : R) : Z :=
  if Rle_dec 0 r then Zfloor r else Zceil r.

(** [max(a, b)] and [min(a, b)] on numbers. *)
Definition max (a b : R) : R := Rmax a b.
Definition min (a b : R) : R := Rmin a b.

(** [collections.deque(maxlen=n).append]: appends on the right and, once
    [n] elements are held, drops the leftmost one; with [n = 0] nothing is
    ever stored. *)
Definition deque_append {A : Type} (maxlen : nat) (d : list A) (a : A) : list A :=
  match maxlen with
  | O => d
  | S _ => if Nat.ltb (length d) maxlen then d ++ [a] else tl d ++ [a]
  end.

(** [sum(f(d) for d in l)]: left-to-right sum starting from [0]. *)
Definition sum {A : Type} (f : A -> R) (l : list A) : R :=
  fold_left (fun acc d => acc + f d) l 0.


(** [np.clip(a, lo, hi)]: [minimum(maximum(a, lo), hi)]. *)
Definition np_clip (a lo hi : R) : R := Rmin (Rmax a lo) hi.

(** [np.arcsin]: outside [[-1, 1]] numpy answers with a warning and a
    non-finite value; the model has none, so the call is checked like
    [math_asin]. *)
Definition np_arcsin (a : R) : result R := math_asin a.

(** [np.sqrt]: checked like [math_sqrt], for the same reason. *)
Definition np_sqrt (a : R) : result R := math_sqrt a.

(** ** Strings (text as a sequence of 8-bit characters; only ASCII white
    space is modelled, so what depends on [strip] is stated for ASCII
    text) *)

(** [c.isspace()] for an ASCII character: space, tab, line feed, vertical
    tab, form feed, carriage return and the four separators 28-31. *)
Definition isspace (c : Ascii.ascii) : bool :=
  let n := Ascii.nat_of_ascii c in
  Nat.eqb n 32 || (Nat.leb 9 n && Nat.leb n 13) || (Nat.leb 28 n && Nat.leb n 31).

Fixpoint lstrip (s : String.string) : String.string :=
  match s with
  | String.EmptyString => String.EmptyString
  | String.String c s' => if isspace c then lstrip s' else s
  end.

Fixpoint rstrip (s : String.string) : String.string :=
  match s with
  | String.EmptyString => String.EmptyString
  | String.String c s' =>
      match rstrip s' with
      | String.EmptyString =>
          if isspace c then String.EmptyString else String.String c String.EmptyString
      | r => String.String c r
      end
  end.

(** [s.strip()]. *)
Definition strip (s : String.string) : String.string := rstrip (lstrip s).

(** [s.isascii()]: every character is below 128. *)
Fixpoint isascii (s : String.string) : bool :=
  match s with
  | String.EmptyString => true
  | String.String c s' => Nat.ltb (Ascii.nat_of_ascii c) 128 && isascii s'
  end.

(** [s.split(sep)] for a one-character separator: never an empty list. *)
Fixpoint split (sep : Ascii.ascii) (s : String.string) : list String.string :=
  match s with
  | String.EmptyString => [String.EmptyString]
  | String.String c s' =>
      if Ascii.eqb c sep then String.EmptyString :: split sep s'
      else match split sep s' with
           | [] => [String.String c String.EmptyString]
           | p :: ps => String.String c p :: ps
           end
  end.

(** [c in s] for a character [c]. *)
Fixpoint contains (c : Ascii.ascii) (s : String.string) : bool :=
  match s with
  | String.EmptyString => false
  | String.String c' s' => Ascii.eqb c' c || contains c s'
  end.

(** The text [label:value] and the line [f1,f2,f3,f4] of four fields. *)
Definition labelled (label value : String.string) : String.string :=
  String.append label (String.String ":"%char value).

Definition comma (a b : String.string) : String.string :=
  String.append a (String.String ","%char b).

End Py.

Declare Scope py_scope.
Delimit Scope py_scope with py.
Notation "x <- m ;; k" := (Py.bind m (fun x => k))
  (at level 61, m at next level, right associativity) : py_scope.
Notation "' p <- m ;; k" := (Py.bind m (fun x => let p := x in k))
  (at level 61, p pattern, m at next level, right associativity) : py_scope.
Local Open Scope py_scope.

Import Py (Ok, Raise).

(** [out] is [raw] clamped to [[lo, hi]]: inside the interval, on the
    nearer end when [raw] is outside, untouched when [raw] is inside. *)
Definition clamped_to (lo hi raw out : R) : Prop :=
  lo <= out <= hi /\
  (raw < lo -> out = lo) /\
  (hi < raw -> out = hi) /\
  (lo <= raw <= hi -> out = raw).

(* ===================================================================== *)
(** * Quaternions: a 4-element array [(w, x, y, z)] *)
(* ===================================================================== *)

Record Quaternion : Type := mkQ { qw : R; qx : R; qy : R; qz : R }.

(** The sum of the squared components. *)
Definition sumsq (q : Quaternion) : R :=
  qw q * qw q + qx q * qx q + qy q * qy q + qz q * qz q.

(** [np.linalg.norm(q)]: the Euclidean norm, the square root of [sumsq]. *)
Definition np_linalg_norm (q : Quaternion) : R := sqrt (sumsq q).

(** The body shared, character for character, by
    [QuaternionTo2DMotion._quaternion_to_euler] (union_pygame.py),
    [QuaternionToScreen.quaternion_to_euler] (Euler.py) and
    [ImprovedQuaternionConverter.quaternion_to_euler] (comparing.py). *)
Definition quaternion_to_euler (w x y z : R) : Py.result (R * R * R) :=
  let sinr_cosp := 2 * (w * x + y * z) in
  let cosr_cosp := 1 - 2 * (x * x + y * y) in
  let roll := Py.math_atan2 sinr_cosp cosr_cosp in
  let sinp := 2 * (w * y - z * x) in
  pitch <- (if Rle_dec 1 (Rabs sinp)
            then Ok (Py.math_copysign (PI / 2) sinp)
            else Py.math_asin sinp) ;;
  let siny_cosp := 2 * (w * z + x * y) in
  let cosy_cosp := 1 - 2 * (y * y + z * z) in
  let yaw := Py.math_atan2 siny_cosp cosy_cosp in
  Ok (roll, pitch, yaw).

(** A test orientation: the unit quaternion [(2697, 3596, 240, 180) / 4505],
    a roll of about 106 degrees followed by a yaw of about 7.6 degrees. *)
Definition sample_w : R := 2697 / 4505.
Definition sample_x : R := 3596 / 4505.
Definition sample_y : R := 240 / 4505.
Definition sample_z : R := 180 / 4505.

(** [k * q] on a 4-element array: every component times the scalar. *)
Definition scale (k : R) (q : Quaternion) : Quaternion :=
  mkQ (k * qw q) (k * qx q) (k * qy q) (k * qz q).

(** The magnitudes on which the idealisation of floats as reals is safe for
    the norm and the division of [_normalize_quaternion]: with a norm
    between [10^-100] and [10^100] no square overflows and no sum of
    squares underflows to zero. *)
Definition moderate_norm (q : Quaternion) : Prop :=
  / 10 ^ 100 <= np_linalg_norm q <= 10 ^ 100.

(** The Euler-angles-to-quaternion formula that the two demo generators
    ([_generate_demo_quaternion] of union_pygame.py and
    [generate_sample_quaternions] of clear_vizual.py) share line for line,
    from the six half-angle cosines and sines. *)
Definition half_angle_quaternion (cr sr cp sp cy sy : R) : Quaternion :=
  let w := cr * cp * cy + sr * sp * sy in
  let x := sr * cp * cy - cr * sp * sy in
  let y := cr * sp * cy + sr * cp * sy in
  let z := cr * cp * sy - sr * sp * cy in
  mkQ w x y z.

(* ===================================================================== *)
(** * union_pygame.py: [QuaternionTo2DMotion], the delta tracker *)
(* ===================================================================== *)

Module UnionPygame.

(** The instance attributes of [QuaternionTo2DMotion].  [delta_buffer] is
    the deque, oldest delta first; its [maxlen] is [smoothing_window], a
    natural number since [deque(maxlen=n)] refuses a negative [n]. *)
Record QuaternionTo2DMotion : Type := mkTracker {
  screen_width : Z;
  screen_height : Z;
  sensitivity : R;
  prev_quaternion : option Quaternion;
  smoothing_window : nat;
  delta_buffer : list (R * R);
  screen_x : R;
  screen_y : R;
  deadzone : R
}.

(** [__init__]; the defaults are 1920, 1080, 500.0 and 5. *)
Definition __init__ (screen_width screen_height : Z) (sensitivity : R)
    (smoothing_window : nat) : QuaternionTo2DMotion :=
  {| screen_width := screen_width;
     screen_height := screen_height;
     sensitivity := sensitivity;
     prev_quaternion := None;
     smoothing_window := smoothing_window;
     delta_buffer := [];
     screen_x := IZR (screen_width / 2);
     screen_y := IZR (screen_height / 2);
     deadzone := 1 / 1000 |}.

Definition default : QuaternionTo2DMotion := __init__ 1920 1080 500 5.

Definition _normalize_quaternion (q : Quaternion) : Py.result Quaternion :=
  let norm := np_linalg_norm q in
  if Req_dec_T norm 0 then Ok (mkQ 1 0 0 0)
  else
    w <- Py.truediv (qw q) norm ;;
    x <- Py.truediv (qx q) norm ;;
    y <- Py.truediv (qy q) norm ;;
    z <- Py.truediv (qz q) norm ;;
    Ok (mkQ w x y z).

Definition _quaternion_conjugate (q : Quaternion) : Quaternion :=
  mkQ (qw q) (- qx q) (- qy q) (- qz q).

Definition _quaternion_multiply (q1 q2 : Quaternion) : Quaternion :=
  let '(mkQ w1 x1 y1 z1) := q1 in
  let '(mkQ w2 x2 y2 z2) := q2 in
  mkQ (w1*w2 - x1*x2 - y1*y2 - z1*z2)
      (w1*x2 + x1*w2 + y1*z2 - z1*y2)
      (w1*y2 - x1*z2 + y1*w2 + z1*x2)
      (w1*z2 + x1*y2 - y1*x2 + z1*w2).

Definition _quaternion_to_euler (q : Quaternion) : Py.result (R * R * R) :=
  let '(mkQ w x y z) := q in quaternion_to_euler w x y z.

Definition _calculate_delta_quaternion (current_q previous_q : Quaternion)
  : Py.result Quaternion :=
  let prev_conjugate := _quaternion_conjugate previous_q in
  let delta_q := _quaternion_multiply current_q prev_conjugate in
  _normalize_quaternion delta_q.

(** Lines 95-110 of [update_position]: the pair [(delta_x, delta_y)] of a
    sample, from the relative rotation, the dead zone and the sensitivity. *)
Definition sample_delta (self : QuaternionTo2DMotion)
    (current_q previous_q : Quaternion) : Py.result (R * R) :=
  delta_q <- _calculate_delta_quaternion current_q previous_q ;;
  '(_, delta_pitch, delta_yaw) <- _quaternion_to_euler delta_q ;;
  let delta_pitch :=
    if Rlt_dec (Rabs delta_pitch) (deadzone self) then 0 else delta_pitch in
  let delta_yaw :=
    if Rlt_dec (Rabs delta_yaw) (deadzone self) then 0 else delta_yaw in
  let delta_x := delta_yaw * sensitivity self in
  let delta_y := - delta_pitch * sensitivity self in
  Ok (delta_x, delta_y).

(** Lines 115-120: the average of the buffered deltas. *)
Definition average_delta (buffer : list (R * R)) : Py.result (R * R) :=
  if Nat.ltb 0 (length buffer) then
    avg_delta_x <- Py.truediv (Py.sum fst buffer) (INR (length buffer)) ;;
    avg_delta_y <- Py.truediv (Py.sum snd buffer) (INR (length buffer)) ;;
    Ok (avg_delta_x, avg_delta_y)
  else Ok (0, 0).

(** Lines 126-128: the clamp of one coordinate to [[0, bound - 1]]. *)
Definition clamp (bound : Z) (v : R) : R :=
  Py.max 0 (Py.min (IZR bound - 1) v).

Definition set_prev (self : QuaternionTo2DMotion) (q : option Quaternion)
  : QuaternionTo2DMotion :=
  {| screen_width := screen_width self;
     screen_height := screen_height self;
     sensitivity := sensitivity self;
     prev_quaternion := q;
     smoothing_window := smoothing_window self;
     delta_buffer := delta_buffer self;
     screen_x := screen_x self;
     screen_y := screen_y self;
     deadzone := deadzone self |}.

Definition set_motion (self : QuaternionTo2DMotion) (buffer : list (R * R))
    (x y : R) : QuaternionTo2DMotion :=
  {| screen_width := screen_width self;
     screen_height := screen_height self;
     sensitivity := sensitivity self;
     prev_quaternion := prev_quaternion self;
     smoothing_window := smoothing_window self;
     delta_buffer := buffer;
     screen_x := x;
     screen_y := y;
     deadzone := deadzone self |}.

(** Lines 95-124: the buffer after the append and the position before the
    clamp, [screen + average(buffer)]. *)
Definition raw_position (self : QuaternionTo2DMotion)
    (current_q previous_q : Quaternion)
  : Py.result (list (R * R) * (R * R)) :=
  '(delta_x, delta_y) <- sample_delta self current_q previous_q ;;
  let buffer :=
    Py.deque_append (smoothing_window self) (delta_buffer self)
                    (delta_x, delta_y) in
  '(avg_delta_x, avg_delta_y) <- average_delta buffer ;;
  Ok (buffer, (screen_x self + avg_delta_x, screen_y self + avg_delta_y)).

(** [update_position]: the new object state and the returned pixel pair. *)
Definition update_position (self : QuaternionTo2DMotion) (quaternion : Quaternion)
  : Py.result (QuaternionTo2DMotion * (Z * Z)) :=
  current_q <- _normalize_quaternion quaternion ;;
  match prev_quaternion self with
  | None =>
      let self := set_prev self (Some current_q) in
      Ok (self, (Py.int (screen_x self), Py.int (screen_y self)))
  | Some previous_q =>
      '(buffer, (x, y)) <- raw_position self current_q previous_q ;;
      let x := clamp (screen_width self) x in
      let y := clamp (screen_height self) y in
      let self := set_prev (set_motion self buffer x y) (Some current_q) in
      Ok (self, (Py.int (screen_x self), Py.int (screen_y self)))
  end.

Definition reset_position (self : QuaternionTo2DMotion) : QuaternionTo2DMotion :=
  set_prev
    (set_motion self [] (IZR (screen_width self / 2))
                        (IZR (screen_height self / 2)))
    None.

Definition set_sensitivity (self : QuaternionTo2DMotion) (s : R)
  : QuaternionTo2DMotion :=
  {| screen_width := screen_width self;
     screen_height := screen_height self;
     sensitivity := s;
     prev_quaternion := prev_quaternion self;
     smoothing_window := smoothing_window self;
     delta_buffer := delta_buffer self;
     screen_x := screen_x self;
     screen_y := screen_y self;
     deadzone := deadzone self |}.

(** A caller's loop: the same sample fed [n] times; the state and the
    pixel pair of the last call ([None] when [n = 0]). *)
Fixpoint feed_same (n : nat) (self : QuaternionTo2DMotion) (q : Quaternion)
  : Py.result (QuaternionTo2DMotion * option (Z * Z)) :=
  match n with
  | O => Ok (self, None)
  | S k =>
      '(self, _) <- feed_same k self q ;;
      '(self, out) <- update_position self q ;;
      Ok (self, Some out)
  end.

(** The states an instance can be in: constructed, then driven through its
    public methods. *)
Inductive reachable : QuaternionTo2DMotion -> Prop :=
| reach_init : forall w h s n, reachable (__init__ w h s n)
| reach_update : forall self q self' out,
    reachable self -> update_position self q = Ok (self', out) ->
    reachable self'
| reach_reset : forall self, reachable self -> reachable (reset_position self)
| reach_sensitivity : forall self s,
    reachable self -> reachable (set_sensitivity self s).

(** [get_euler_angles]: the Euler angles of the normalised sample. *)
Definition get_euler_angles (quaternion : Quaternion) : Py.result (R * R * R) :=
  q <- _normalize_quaternion quaternion ;;
  _quaternion_to_euler q.

(** [MotionVisualizer._generate_demo_quaternion]: the demo orientation at
    time [t]. *)
Definition _generate_demo_quaternion (t : R) : Quaternion :=
  let pitch := 0.3 * sin (t * 0.5) in
  let yaw := 0.4 * sin (t * 0.7) in
  let roll := 0.1 * sin (t * 1.2) in
  let '(cp, sp) := (cos (pitch / 2), sin (pitch / 2)) in
  let '(cy, sy) := (cos (yaw / 2), sin (yaw / 2)) in
  let '(cr, sr) := (cos (roll / 2), sin (roll / 2)) in
  half_angle_quaternion cr sr cp sp cy sy.

(** A buffer of capacity [n] that is [slack] appends of a zero delta away
    from holding zero deltas only: some leading deltas, then zeros, where
    the number of leading deltas plus the free room is at most [slack]. *)
Definition settling (n : nat) (buffer : list (R * R)) (slack : nat) : Prop :=
  (length buffer <= n)%nat /\
  exists old zeros,
    buffer = old ++ zeros /\
    Forall (fun d => d = (0, 0)) zeros /\
    (length old + (n - length buffer) <= slack)%nat.

(** The harmonic numbers [1 + 1/2 + ... + 1/k]. *)
Fixpoint harmonic (k : nat) : R :=
  match k with
  | O => 0
  | S j => harmonic j + / INR (S j)
  end.

(** The state right after construction or [reset_position]: no reference
    orientation, an empty buffer, the position at the screen centre. *)
Definition fresh (self : QuaternionTo2DMotion) : Prop :=
  prev_quaternion self = None /\
  delta_buffer self = [] /\
  screen_x self = IZR (screen_width self / 2) /\
  screen_y self = IZR (screen_height self / 2).

(** A buffer that holds zero deltas only. *)
Definition zero_deltas (buffer : list (R * R)) : Prop :=
  Forall (fun d => d = (0, 0)) buffer.

(** The position lies in the rectangle the clamp of [update_position]
    keeps it in. *)
Definition on_screen (self : QuaternionTo2DMotion) : Prop :=
  0 <= screen_x self <= IZR (screen_width self) - 1 /\
  0 <= screen_y self <= IZR (screen_height self) - 1.

End UnionPygame.

(* ===================================================================== *)
(** * Euler.py: [QuaternionToScreen], the absolute Euler mapping *)
(* ===================================================================== *)

Module Euler.

Record QuaternionToScreen : Type := mkScreen {
  screen_width : R;
  screen_height : R;
  screen_center_x : R;
  screen_center_y : R;
  max_tilt_radians : R;
  sensitivity_x : R;
  sensitivity_y : R;
  alpha : R;
  prev_x : R;
  prev_y : R;
  dead_zone : R
}.

(** [__init__]; the defaults are 800, 600 and 45.  The two sensitivities
    divide by [2 * max_tilt_radians], which is zero for a zero tilt. *)
Definition __init__ (screen_width screen_height max_tilt_degrees : R)
  : Py.result QuaternionToScreen :=
  let screen_center_x := screen_width / 2 in
  let screen_center_y := screen_height / 2 in
  let max_tilt_radians := Py.math_radians max_tilt_degrees in
  sensitivity_x <- Py.truediv screen_width (2 * max_tilt_radians) ;;
  sensitivity_y <- Py.truediv screen_height (2 * max_tilt_radians) ;;
  Ok {| screen_width := screen_width;
        screen_height := screen_height;
        screen_center_x := screen_center_x;
        screen_center_y := screen_center_y;
        max_tilt_radians := max_tilt_radians;
        sensitivity_x := sensitivity_x;
        sensitivity_y := sensitivity_y;
        alpha := 2 / 10;
        prev_x := screen_center_x;
        prev_y := screen_center_y;
        dead_zone := 1 |}.

(** The object [QuaternionToScreen()] builds: 800 x 600, 45 degrees. *)
Definition default : QuaternionToScreen :=
  {| screen_width := 800;
     screen_height := 600;
     screen_center_x := 800 / 2;
     screen_center_y := 600 / 2;
     max_tilt_radians := Py.math_radians 45;
     sensitivity_x := 800 / (2 * Py.math_radians 45);
     sensitivity_y := 600 / (2 * Py.math_radians 45);
     alpha := 2 / 10;
     prev_x := 800 / 2;
     prev_y := 600 / 2;
     dead_zone := 1 |}.

Definition set_prev (self : QuaternionToScreen) (x y : R) : QuaternionToScreen :=
  {| screen_width := screen_width self;
     screen_height := screen_height self;
     screen_center_x := screen_center_x self;
     screen_center_y := screen_center_y self;
     max_tilt_radians := max_tilt_radians self;
     sensitivity_x := sensitivity_x self;
     sensitivity_y := sensitivity_y self;
     alpha := alpha self;
     prev_x := x;
     prev_y := y;
     dead_zone := dead_zone self |}.

(** Lines 45-49: the point the clamped roll and pitch map to. *)
Definition tilt_to_screen (self : QuaternionToScreen) (roll pitch : R) : R * R :=
  let roll_clamped :=
    Py.max (- max_tilt_radians self) (Py.min (max_tilt_radians self) roll) in
  let screen_x := screen_center_x self + roll_clamped * sensitivity_x self in
  let pitch_clamped :=
    Py.max (- max_tilt_radians self) (Py.min (max_tilt_radians self) pitch) in
  let screen_y := screen_center_y self - pitch_clamped * sensitivity_y self in
  (screen_x, screen_y).

(** Lines 51-57: the dead zone around the screen centre. *)
Definition dead_zone_snap (self : QuaternionToScreen) (screen_x screen_y : R)
  : Py.result (R * R) :=
  let dx := screen_x - screen_center_x self in
  let dy := screen_y - screen_center_y self in
  distance_from_center <- Py.math_sqrt (dx * dx + dy * dy) ;;
  if Rlt_dec distance_from_center (dead_zone self)
  then Ok (screen_center_x self, screen_center_y self)
  else Ok (screen_x, screen_y).

(** Lines 59-63: the exponential filter, which also stores its output. *)
Definition smooth (self : QuaternionToScreen) (screen_x screen_y : R)
    (use_smoothing : bool) : QuaternionToScreen * (R * R) :=
  if use_smoothing then
    let screen_x := alpha self * screen_x + (1 - alpha self) * prev_x self in
    let screen_y := alpha self * screen_y + (1 - alpha self) * prev_y self in
    (set_prev self screen_x screen_y, (screen_x, screen_y))
  else (self, (screen_x, screen_y)).

(** Lines 65-66: the final clamp to the screen rectangle. *)
Definition clamp_to_screen (self : QuaternionToScreen) (screen_x screen_y : R)
  : R * R :=
  (Py.max 0 (Py.min (screen_width self) screen_x),
   Py.max 0 (Py.min (screen_height self) screen_y)).

(** The position just before the clamp, with the state the call leaves. *)
Definition pre_clamp (self : QuaternionToScreen) (w x y z : R)
    (use_smoothing : bool) : Py.result (QuaternionToScreen * (R * R)) :=
  '(roll, pitch, _) <- quaternion_to_euler w x y z ;;
  let '(screen_x, screen_y) := tilt_to_screen self roll pitch in
  '(screen_x, screen_y) <- dead_zone_snap self screen_x screen_y ;;
  Ok (smooth self screen_x screen_y use_smoothing).

Definition quaternion_to_screen_coords (self : QuaternionToScreen)
    (w x y z : R) (use_smoothing : bool)
  : Py.result (QuaternionToScreen * (R * R)) :=
  '(self, (screen_x, screen_y)) <- pre_clamp self w x y z use_smoothing ;;
  Ok (self, clamp_to_screen self screen_x screen_y).



(** The loop of [animate] over one orientation: [n] calls with the default
    [use_smoothing=True]; the object and the point of the last call. *)
Fixpoint animate_same (n : nat) (self : QuaternionToScreen) (w x y z : R)
  : Py.result (QuaternionToScreen * option (R * R)) :=
  match n with
  | O => Ok (self, None)
  | S k =>
      '(self, _) <- animate_same k self w x y z ;;
      '(self, p) <- quaternion_to_screen_coords self w x y z true ;;
      Ok (self, Some p)
  end.

Section Loader.

(** [float(s)] on a string: [None] stands for [ValueError].  Python's float
    grammar is not modelled; the loader is read for any such function. *)
Variable float : String.string -> option R.

(** [float(parts[i].split(':')[1].strip())]: [None] when an index is out of
    range ([IndexError]) or the text is not a number ([ValueError]). *)
Definition field (parts : list String.string) (i : nat) : option R :=
  match nth_error parts i with
  | None => None
  | Some part =>
      match nth_error (Py.split ":"%char part) 1 with
      | None => None
      | Some text => float (Py.strip text)
      end
  end.

(** The [try] block of [load_quaternions_from_file] on a stripped line:
    [None] when the [except] clause is taken. *)
Definition parse_line (line : String.string) : option Quaternion :=
  let parts := Py.split ","%char line in
  match field parts 0 with
  | None => None
  | Some w =>
      match field parts 1 with
      | None => None
      | Some x =>
          match field parts 2 with
          | None => None
          | Some y =>
              match field parts 3 with
              | None => None
              | Some z => Some (mkQ w x y z)
              end
          end
      end
  end.

(** [load_quaternions_from_file] on the lines of the file: the list it
    returns and, in order, the lines reported by
    [print("Skipping malformed line: ...")]. *)
Fixpoint load_quaternions_from_file (lines : list String.string)
  : list Quaternion * list String.string :=
  match lines with
  | [] => ([], [])
  | line :: rest =>
      let line := Py.strip line in
      let '(quaternions, skipped) := load_quaternions_from_file rest in
      if String.eqb line String.EmptyString then (quaternions, skipped)
      else match parse_line line with
           | Some q => (q :: quaternions, skipped)
           | None => (quaternions, line :: skipped)
           end
  end.

End Loader.

End Euler.

(* ===================================================================== *)
(** * comparing.py: [ImprovedQuaternionConverter], the five methods *)
(* ===================================================================== *)

Module Comparing.

Record ImprovedQuaternionConverter : Type := mkConverter {
  screen_width : R;
  screen_height : R;
  screen_center_x : R;
  screen_center_y : R;
  max_tilt_radians : R;
  sensitivity_x : R;
  sensitivity_y : R;
  alpha : R;
  prev_x : R;
  prev_y : R;
  dead_zone : R
}.

(** [__init__]; the defaults are 100, 100 and 45. *)
Definition __init__ (screen_width screen_height max_tilt_degrees : R)
  : Py.result ImprovedQuaternionConverter :=
  let screen_center_x := screen_width / 2 in
  let screen_center_y := screen_height / 2 in
  let max_tilt_radians := Py.math_radians max_tilt_degrees in
  sensitivity_x <- Py.truediv screen_width (2 * max_tilt_radians) ;;
  sensitivity_y <- Py.truediv screen_height (2 * max_tilt_radians) ;;
  Ok {| screen_width := screen_width;
        screen_height := screen_height;
        screen_center_x := screen_center_x;
        screen_center_y := screen_center_y;
        max_tilt_radians := max_tilt_radians;
        sensitivity_x := sensitivity_x;
        sensitivity_y := sensitivity_y;
        alpha := 7 / 10;
        prev_x := screen_center_x;
        prev_y := screen_center_y;
        dead_zone := 10 |}.

(** The object [ImprovedQuaternionConverter()] builds: 100 x 100, 45 degrees. *)
Definition default : ImprovedQuaternionConverter :=
  {| screen_width := 100;
     screen_height := 100;
     screen_center_x := 100 / 2;
     screen_center_y := 100 / 2;
     max_tilt_radians := Py.math_radians 45;
     sensitivity_x := 100 / (2 * Py.math_radians 45);
     sensitivity_y := 100 / (2 * Py.math_radians 45);
     alpha := 7 / 10;
     prev_x := 100 / 2;
     prev_y := 100 / 2;
     dead_zone := 10 |}.

Definition set_prev (self : ImprovedQuaternionConverter) (x y : R)
  : ImprovedQuaternionConverter :=
  {| screen_width := screen_width self;
     screen_height := screen_height self;
     screen_center_x := screen_center_x self;
     screen_center_y := screen_center_y self;
     max_tilt_radians := max_tilt_radians self;
     sensitivity_x := sensitivity_x self;
     sensitivity_y := sensitivity_y self;
     alpha := alpha self;
     prev_x := x;
     prev_y := y;
     dead_zone := dead_zone self |}.

(** Lines 141-147 of [apply_post_processing]: the dead zone. *)
Definition dead_zone_snap (self : ImprovedQuaternionConverter)
    (screen_x screen_y : R) : Py.result (R * R) :=
  let dx := screen_x - screen_center_x self in
  let dy := screen_y - screen_center_y self in
  distance_from_center <- Py.math_sqrt (dx * dx + dy * dy) ;;
  if Rlt_dec distance_from_center (dead_zone self)
  then Ok (screen_center_x self, screen_center_y self)
  else Ok (screen_x, screen_y).

(** Lines 150-154: the exponential filter, which also stores its output. *)
Definition smooth (self : ImprovedQuaternionConverter) (screen_x screen_y : R)
    (use_smoothing : bool) : ImprovedQuaternionConverter * (R * R) :=
  if use_smoothing then
    let screen_x := alpha self * screen_x + (1 - alpha self) * prev_x self in
    let screen_y := alpha self * screen_y + (1 - alpha self) * prev_y self in
    (set_prev self screen_x screen_y, (screen_x, screen_y))
  else (self, (screen_x, screen_y)).

(** Lines 157-158: the final clamp to the screen rectangle. *)
Definition clamp_to_screen (self : ImprovedQuaternionConverter)
    (screen_x screen_y : R) : R * R :=
  (Py.max 0 (Py.min (screen_width self) screen_x),
   Py.max 0 (Py.min (screen_height self) screen_y)).

(** The position [apply_post_processing] holds just before its clamp. *)
Definition pre_clamp (self : ImprovedQuaternionConverter)
    (screen_x screen_y : R) (use_smoothing : bool)
  : Py.result (ImprovedQuaternionConverter * (R * R)) :=
  '(screen_x, screen_y) <- dead_zone_snap self screen_x screen_y ;;
  Ok (smooth self screen_x screen_y use_smoothing).

Definition apply_post_processing (self : ImprovedQuaternionConverter)
    (screen_x screen_y : R) (use_smoothing : bool)
  : Py.result (ImprovedQuaternionConverter * (R * R)) :=
  '(self, (screen_x, screen_y)) <- pre_clamp self screen_x screen_y use_smoothing ;;
  Ok (self, clamp_to_screen self screen_x screen_y).

(** Lines 34-41 of [euler_method]: its raw, not yet post-processed point. *)
Definition euler_raw (self : ImprovedQuaternionConverter) (w x y z : R)
  : Py.result (R * R) :=
  '(roll, pitch, _) <- quaternion_to_euler w x y z ;;
  let roll_clamped :=
    Py.max (- max_tilt_radians self) (Py.min (max_tilt_radians self) roll) in
  let pitch_clamped :=
    Py.max (- max_tilt_radians self) (Py.min (max_tilt_radians self) pitch) in
  let screen_x := screen_center_x self + roll_clamped * sensitivity_x self in
  let screen_y := screen_center_y self - pitch_clamped * sensitivity_y self in
  Ok (screen_x, screen_y).

Definition euler_method (self : ImprovedQuaternionConverter) (w x y z : R)
    (use_smoothing : bool) : Py.result (ImprovedQuaternionConverter * (R * R)) :=
  '(screen_x, screen_y) <- euler_raw self w x y z ;;
  apply_post_processing self screen_x screen_y use_smoothing.

Definition direct_raw (self : ImprovedQuaternionConverter) (w x y z : R) : R * R :=
  let screen_x := screen_center_x self + x * sensitivity_x self * 2 in
  let screen_y := screen_center_y self + y * sensitivity_y self * 2 in
  (screen_x, screen_y).

Definition direct_method (self : ImprovedQuaternionConverter) (w x y z : R)
    (use_smoothing : bool) : Py.result (ImprovedQuaternionConverter * (R * R)) :=
  let '(screen_x, screen_y) := direct_raw self w x y z in
  apply_post_processing self screen_x screen_y use_smoothing.

(** A 3x3 array as three rows, and [R @ v] for a 3-vector. *)
Definition vec3 : Type := R * R * R.
Definition mat3 : Type := vec3 * vec3 * vec3.

Definition dot3 (a b : vec3) : R :=
  let '(a0, a1, a2) := a in
  let '(b0, b1, b2) := b in
  a0 * b0 + a1 * b1 + a2 * b2.

Definition matmul_vec (m : mat3) (v : vec3) : vec3 :=
  let '(r0, r1, r2) := m in (dot3 r0 v, dot3 r1 v, dot3 r2 v).

Definition quaternion_to_rotation_matrix (w x y z : R) : mat3 :=
  ((1 - 2*(y*y + z*z), 2*(x*y - w*z), 2*(x*z + w*y)),
   (2*(x*y + w*z), 1 - 2*(x*x + z*z), 2*(y*z - w*x)),
   (2*(x*z - w*y), 2*(y*z + w*x), 1 - 2*(x*x + y*y))).

Definition rotation_matrix_raw (self : ImprovedQuaternionConverter)
    (w x y z : R) : R * R :=
  let R_ := quaternion_to_rotation_matrix w x y z in
  let reference_vector : vec3 := (0, 0, 1) in
  let '(v0, v1, _) := matmul_vec R_ reference_vector in
  let screen_x := screen_center_x self + v0 * sensitivity_x self in
  let screen_y := screen_center_y self - v1 * sensitivity_y self in
  (screen_x, screen_y).

Definition rotation_matrix_method (self : ImprovedQuaternionConverter)
    (w x y z : R) (use_smoothing : bool)
  : Py.result (ImprovedQuaternionConverter * (R * R)) :=
  let '(screen_x, screen_y) := rotation_matrix_raw self w x y z in
  apply_post_processing self screen_x screen_y use_smoothing.

(** Lines 77-91 of [spherical_method]: its raw point. *)
Definition spherical_raw (self : ImprovedQuaternionConverter) (w x y z : R)
  : Py.result (R * R) :=
  let azimuth := Py.math_atan2 (2*(w*z + x*y)) (1 - 2*(y*y + z*z)) in
  let sin_elevation := 2*(w*y - z*x) in
  elevation <- (if Rle_dec 1 (Rabs sin_elevation)
                then Ok (Py.math_copysign (PI / 2) sin_elevation)
                else Py.math_asin sin_elevation) ;;
  let azimuth_clamped :=
    Py.max (- max_tilt_radians self) (Py.min (max_tilt_radians self) azimuth) in
  let elevation_clamped :=
    Py.max (- max_tilt_radians self) (Py.min (max_tilt_radians self) elevation) in
  let screen_x := screen_center_x self + azimuth_clamped * sensitivity_x self in
  let screen_y := screen_center_y self - elevation_clamped * sensitivity_y self in
  Ok (screen_x, screen_y).

Definition spherical_method (self : ImprovedQuaternionConverter) (w x y z : R)
    (use_smoothing : bool) : Py.result (ImprovedQuaternionConverter * (R * R)) :=
  '(screen_x, screen_y) <- spherical_raw self w x y z ;;
  apply_post_processing self screen_x screen_y use_smoothing.

(** The weighted blend of lines 102-106. *)
Definition blend (e s : R * R) : R * R :=
  let weight_euler := 8 / 10 in
  let weight_sphere := 2 / 10 in
  (fst e * weight_euler + fst s * weight_sphere,
   snd e * weight_euler + snd s * weight_sphere).

Definition hybrid_method (self : ImprovedQuaternionConverter) (w x y z : R)
    (use_smoothing : bool) : Py.result (ImprovedQuaternionConverter * (R * R)) :=
  '(self, euler_xy) <- euler_method self w x y z false ;;
  '(self, sphere_xy) <- spherical_method self w x y z false ;;
  let '(screen_x, screen_y) := blend euler_xy sphere_xy in
  apply_post_processing self screen_x screen_y use_smoothing.

(** The five strategies, tagged as in the dictionary of [compare_methods]. *)
Inductive strategy : Set :=
| Euler_
| Direct
| RotationMatrix
| Spherical
| Hybrid.

Definition run (m : strategy) :=
  match m with
  | Euler_ => euler_method
  | Direct => direct_method
  | RotationMatrix => rotation_matrix_method
  | Spherical => spherical_method
  | Hybrid => hybrid_method
  end.

(** The point each strategy hands to [apply_post_processing]: the raw
    point of the four direct strategies, and for [hybrid_method] the blend
    of what its two inner calls return. *)
Definition raw_point (m : strategy) (self : ImprovedQuaternionConverter)
    (w x y z : R) : Py.result (R * R) :=
  match m with
  | Euler_ => euler_raw self w x y z
  | Direct => Ok (direct_raw self w x y z)
  | RotationMatrix => Ok (rotation_matrix_raw self w x y z)
  | Spherical => spherical_raw self w x y z
  | Hybrid =>
      '(self, euler_xy) <- euler_method self w x y z false ;;
      '(self, sphere_xy) <- spherical_method self w x y z false ;;
      Ok (blend euler_xy sphere_xy)
  end.

(** The Hybrid strategy read as a blend of raw candidates: one
    post-processing, applied to [0.8 * raw Euler + 0.2 * raw Spherical].
    Written from the specification's wording, to be compared with
    [hybrid_method]. *)
Definition hybrid_of_raw (self : ImprovedQuaternionConverter) (w x y z : R)
    (use_smoothing : bool) : Py.result (ImprovedQuaternionConverter * (R * R)) :=
  euler_xy <- euler_raw self w x y z ;;
  sphere_xy <- spherical_raw self w x y z ;;
  let '(screen_x, screen_y) := blend euler_xy sphere_xy in
  apply_post_processing self screen_x screen_y use_smoothing.

(** The dictionary [methods] of [compare_methods], in insertion order. *)
Definition methods : list (String.string * strategy) :=
  [("Euler"%string, Euler_);
   ("Direct"%string, Direct);
   ("Rotation Matrix"%string, RotationMatrix);
   ("Spherical"%string, Spherical);
   ("Hybrid"%string, Hybrid)].

(** The loop of [compare_methods] over the remaining methods. *)
Fixpoint compare_loop (ms : list (String.string * strategy))
    (self : ImprovedQuaternionConverter) (w x y z : R)
  : Py.result (ImprovedQuaternionConverter * list (String.string * (R * R))) :=
  match ms with
  | [] => Ok (self, [])
  | (name, m) :: ms =>
      '(self, xy) <- run m self w x y z false ;;
      '(self, results) <- compare_loop ms self w x y z ;;
      Ok (self, (name, xy) :: results)
  end.

(** [compare_methods]: the object after the calls and the dictionary
    [results], as its items in insertion order. *)
Definition compare_methods (self : ImprovedQuaternionConverter) (w x y z : R)
  : Py.result (ImprovedQuaternionConverter * list (String.string * (R * R))) :=
  compare_loop methods self w x y z.

End Comparing.

(* ===================================================================== *)
(** * first_method.py, second_method.py and clear_vizual.py *)
(* ===================================================================== *)

(** [generate_quaternion] of first_method.py and second_method.py (the two
    bodies are the same), as a function of the three numbers that
    [np.random.rand(3)] draws. *)
Definition generate_quaternion (u1 u2 u3 : R) : Py.result Quaternion :=
  a <- Py.np_sqrt (1 - u1) ;;
  let w := a * sin (2 * PI * u2) in
  a <- Py.np_sqrt (1 - u1) ;;
  let x := a * cos (2 * PI * u2) in
  b <- Py.np_sqrt u1 ;;
  let y := b * sin (2 * PI * u3) in
  b <- Py.np_sqrt u1 ;;
  let z := b * cos (2 * PI * u3) in
  Ok (mkQ w x y z).

Module FirstMethod.

(** [quaternion_to_euler_xy]; the default sensitivity is 200. *)
Definition quaternion_to_euler_xy (w x y z sensitivity : R) : Py.result (R * R) :=
  let sinr_cosp := 2 * (w * x + y * z) in
  let cosr_cosp := 1 - 2 * (x * x + y * y) in
  let roll := Py.math_atan2 sinr_cosp cosr_cosp in
  let sinp := 2 * (w * y - z * x) in
  pitch <- Py.np_arcsin (Py.np_clip sinp (-1) 1) ;;
  let X := sensitivity * roll in
  let Y := sensitivity * pitch in
  Ok (X, Y).

End FirstMethod.

Module SecondMethod.

(** The forward vector computed at the head of
    [quaternion_to_forward_vector_xy]. *)
Definition forward_vector (w x y z : R) : R * R * R :=
  let fx := 2 * (x * z + w * y) in
  let fy := 2 * (y * z - w * x) in
  let fz := 1 - 2 * (x * x + y * y) in
  (fx, fy, fz).

(** [quaternion_to_forward_vector_xy]; the default sensitivity is 200. *)
Definition quaternion_to_forward_vector_xy (w x y z sensitivity : R) : R * R :=
  let '(fx, fy, fz) := forward_vector w x y z in
  let X := sensitivity * fx in
  let Y := sensitivity * fz in
  (X, Y).

End SecondMethod.

Module ClearVizual.

(** [generate_sample_quaternions]: the simulated phone orientation at [t]. *)
Definition generate_sample_quaternions (t : R) : Quaternion :=
  let roll_angle := 0.3 * sin (t * 0.5) in
  let pitch_angle := 0.2 * cos (t * 0.7) in
  let yaw_angle := 0.1 * sin (t * 0.3) in
  let cr := cos (roll_angle * 0.5) in
  let sr := sin (roll_angle * 0.5) in
  let cp := cos (pitch_angle * 0.5) in
  let sp := sin (pitch_angle * 0.5) in
  let cy := cos (yaw_angle * 0.5) in
  let sy := sin (yaw_angle * 0.5) in
  half_angle_quaternion cr sr cp sp cy sy.

End ClearVizual.

(* ===================================================================== *)
(** * Facts about the Python fragment *)
(* ===================================================================== *)

Section PyFacts.

Lemma truediv_ok (a b : R) : b <> 0 -> Py.truediv a b = Ok (a / b).
Proof.
  intros Hb. unfold Py.truediv.
  destruct (Req_dec_T b 0) as [E | _]; [contradiction | reflexivity].
Qed.

Lemma math_sqrt_ok (a : R) : 0 <= a -> Py.math_sqrt a = Ok (sqrt a).
Proof.
  intros Ha. unfold Py.math_sqrt.
  destruct (Rlt_dec a 0) as [Hlt | _]; [lra | reflexivity].
Qed.

Lemma math_asin_ok (a : R) : Rabs a <= 1 -> Py.math_asin a = Ok (asin a).
Proof.
  intros Ha. unfold Py.math_asin.
  destruct (Rle_dec (Rabs a) 1) as [_ | Hn]; [reflexivity | contradiction].
Qed.

Lemma math_atan2_pos (y x : R) : 0 < x -> Py.math_atan2 y x = atan (y / x).
Proof.
  intros Hx. unfold Py.math_atan2.
  destruct (Rlt_dec 0 x); [reflexivity | contradiction].
Qed.

Lemma math_atan2_neg_up (y x : R) :
  x < 0 -> 0 <= y -> Py.math_atan2 y x = atan (y / x) + PI.
Proof.
  intros Hx Hy. unfold Py.math_atan2.
  destruct (Rlt_dec 0 x); [lra |].
  destruct (Rlt_dec x 0); [| contradiction].
  destruct (Rle_dec 0 y); [reflexivity | contradiction].
Qed.

Lemma math_atan2_0_1 : Py.math_atan2 0 1 = 0.
Proof.
  rewrite math_atan2_pos by lra.
  replace (0 / 1) with 0 by field. apply atan_0.
Qed.

Lemma max_min_inside (lo hi v : R) :
  lo <= v -> v <= hi -> Py.max lo (Py.min hi v) = v.
Proof.
  intros Hl Hh. unfold Py.max, Py.min.
  rewrite (Rmin_right hi v) by exact Hh. apply Rmax_right, Hl.
Qed.

Lemma max_min_above (lo hi v : R) :
  lo <= hi -> hi <= v -> Py.max lo (Py.min hi v) = hi.
Proof.
  intros Hl Hh. unfold Py.max, Py.min.
  rewrite (Rmin_left hi v) by exact Hh. apply Rmax_right, Hl.
Qed.

Lemma max_min_below (lo hi v : R) :
  v <= lo -> Py.max lo (Py.min hi v) = lo.
Proof.
  intros Hv. unfold Py.max, Py.min.
  apply Rmax_left. apply Rle_trans with v; [apply Rmin_r | exact Hv].
Qed.

Lemma max_min_range (lo hi v : R) :
  lo <= hi -> lo <= Py.max lo (Py.min hi v) <= hi.
Proof.
  intros H. unfold Py.max, Py.min. split.
  - apply Rmax_l.
  - apply Rmax_lub; [exact H | apply Rmin_l].
Qed.

Lemma int_IZR (z : Z) : Py.int (IZR z) = z.
Proof.
  unfold Py.int. destruct (Rle_dec 0 (IZR z)).
  - apply ZfloorZ.
  - unfold Zceil. rewrite <- opp_IZR, ZfloorZ. lia.
Qed.


Lemma int_range (lo hi : Z) (r : R) :
  (0 <= lo)%Z -> IZR lo <= r <= IZR hi -> (lo <= Py.int r <= hi)%Z.
Proof.
  intros Hlo [H1 H2].
  assert (0 <= r) by (apply Rle_trans with (IZR lo); [apply IZR_le; lia | exact H1]).
  unfold Py.int. destruct (Rle_dec 0 r); [| contradiction].
  split.
  - apply Zfloor_lub, H1.
  - rewrite <- (ZfloorZ hi). apply Zfloor_le, H2.
Qed.

(** [int] of a real that is not negative is the integer just below it. *)
Lemma int_floor_between (z : Z) (r : R) :
  0 <= r -> IZR z <= r < IZR z + 1 -> Py.int r = z.
Proof.
  intros H0 H. unfold Py.int.
  destruct (Rle_dec 0 r); [apply Zfloor_eq, H | contradiction].
Qed.

Lemma deque_append_length {A : Type} (n : nat) (d : list A) (a : A) :
  (length d <= n)%nat -> (length (Py.deque_append n d a) <= n)%nat.
Proof.
  intros H. unfold Py.deque_append. destruct n as [| n]; [exact H |].
  destruct (Nat.ltb_spec (length d) (S n)) as [Hlt | Hge];
    rewrite length_app; simpl.
  - lia.
  - destruct d; simpl in *; lia.
Qed.

End PyFacts.

(* ===================================================================== *)
(** * Quaternion algebra *)
(* ===================================================================== *)

Section QuaternionAlgebra.

Import UnionPygame.

Lemma sumsq_nonneg (q : Quaternion) : 0 <= sumsq q.
Proof. unfold sumsq. nra. Qed.

Lemma norm_sqr (q : Quaternion) : np_linalg_norm q * np_linalg_norm q = sumsq q.
Proof. unfold np_linalg_norm. apply sqrt_sqrt, sumsq_nonneg. Qed.

Lemma norm_nonneg (q : Quaternion) : 0 <= np_linalg_norm q.
Proof. unfold np_linalg_norm. apply sqrt_pos. Qed.

Lemma norm_zero_iff (q : Quaternion) :
  np_linalg_norm q = 0 <-> q = mkQ 0 0 0 0.
Proof.
  split.
  - intros H. pose proof (norm_sqr q) as S. rewrite H in S.
    destruct q as [w x y z]. unfold sumsq in S. simpl in S.
    assert (w = 0) by nra. assert (x = 0) by nra.
    assert (y = 0) by nra. assert (z = 0) by nra. subst. reflexivity.
  - intros ->. unfold np_linalg_norm, sumsq. simpl.
    replace (0 * 0 + 0 * 0 + 0 * 0 + 0 * 0) with 0 by ring. apply sqrt_0.
Qed.

Lemma normalize_nonzero (q : Quaternion) :
  np_linalg_norm q <> 0 ->
  _normalize_quaternion q =
  Ok (mkQ (qw q / np_linalg_norm q) (qx q / np_linalg_norm q)
          (qy q / np_linalg_norm q) (qz q / np_linalg_norm q)).
Proof.
  intros Hn. unfold _normalize_quaternion.
  destruct (Req_dec_T (np_linalg_norm q) 0) as [E | _]; [contradiction |].
  rewrite !truediv_ok by exact Hn. reflexivity.
Qed.

Lemma normalize_zero_norm (q : Quaternion) :
  np_linalg_norm q = 0 -> _normalize_quaternion q = Ok (mkQ 1 0 0 0).
Proof.
  intros Hn. unfold _normalize_quaternion.
  destruct (Req_dec_T (np_linalg_norm q) 0) as [_ | E]; [reflexivity | contradiction].
Qed.

Lemma normalize_total (q : Quaternion) :
  exists r, _normalize_quaternion q = Ok r.
Proof.
  destruct (Req_dec_T (np_linalg_norm q) 0) as [E | E].
  - eexists. apply normalize_zero_norm, E.
  - eexists. apply normalize_nonzero, E.
Qed.

(** Whatever [_normalize_quaternion] returns has squared norm one. *)
Lemma normalize_unit (q r : Quaternion) :
  _normalize_quaternion q = Ok r -> sumsq r = 1.
Proof.
  destruct (Req_dec_T (np_linalg_norm q) 0) as [E | E].
  - rewrite (normalize_zero_norm q E). intros [= <-]. unfold sumsq. simpl. ring.
  - rewrite (normalize_nonzero q E). intros [= <-]. unfold sumsq. simpl.
    pose proof (norm_sqr q) as S. unfold sumsq in S.
    set (n := np_linalg_norm q) in *.
    replace (qw q / n * (qw q / n) + qx q / n * (qx q / n) +
             qy q / n * (qy q / n) + qz q / n * (qz q / n))
      with ((qw q * qw q + qx q * qx q + qy q * qy q + qz q * qz q) / (n * n))
      by (field; exact E).
    rewrite <- S. field. exact E.
Qed.

Lemma multiply_conjugate (q : Quaternion) :
  _quaternion_multiply q (_quaternion_conjugate q) = mkQ (sumsq q) 0 0 0.
Proof.
  destruct q as [w x y z]. unfold _quaternion_multiply, _quaternion_conjugate, sumsq.
  simpl. f_equal; ring.
Qed.

Lemma normalize_identity : _normalize_quaternion (mkQ 1 0 0 0) = Ok (mkQ 1 0 0 0).
Proof.
  assert (N : np_linalg_norm (mkQ 1 0 0 0) = 1).
  { unfold np_linalg_norm, sumsq. simpl.
    replace (1 * 1 + 0 * 0 + 0 * 0 + 0 * 0) with 1 by ring. apply sqrt_1. }
  rewrite normalize_nonzero by (rewrite N; lra).
  rewrite N. simpl. f_equal. f_equal; field.
Qed.

(** The rotation from an orientation to itself is the identity. *)
Lemma delta_of_same (q r : Quaternion) :
  _normalize_quaternion q = Ok r ->
  _calculate_delta_quaternion r r = Ok (mkQ 1 0 0 0).
Proof.
  intros H. unfold _calculate_delta_quaternion.
  rewrite multiply_conjugate, (normalize_unit q r H). apply normalize_identity.
Qed.

Lemma euler_of_identity : quaternion_to_euler 1 0 0 0 = Ok (0, 0, 0).
Proof.
  unfold quaternion_to_euler.
  replace (2 * (1 * 0 + 0 * 0)) with 0 by ring.
  replace (1 - 2 * (0 * 0 + 0 * 0)) with 1 by ring.
  replace (2 * (1 * 0 - 0 * 0)) with 0 by ring.
  rewrite Rabs_R0.
  destruct (Rle_dec 1 0) as [H | _]; [lra |].
  rewrite math_asin_ok by (rewrite Rabs_R0; lra).
  rewrite asin_0. simpl. rewrite math_atan2_0_1. reflexivity.
Qed.

(** The conversion never raises, whatever the four numbers are. *)
Lemma quaternion_to_euler_total (w x y z : R) :
  exists roll pitch yaw, quaternion_to_euler w x y z = Ok (roll, pitch, yaw).
Proof.
  unfold quaternion_to_euler.
  destruct (Rle_dec 1 (Rabs (2 * (w * y - z * x)))) as [H | H]; simpl.
  - do 3 eexists. reflexivity.
  - rewrite math_asin_ok by lra. simpl. do 3 eexists. reflexivity.
Qed.

(** [spherical_method] guards its [asin] in the same way. *)
Lemma spherical_raw_total (self : Comparing.ImprovedQuaternionConverter)
    (w x y z : R) :
  exists p, Comparing.spherical_raw self w x y z = Ok p.
Proof.
  unfold Comparing.spherical_raw.
  destruct (Rle_dec 1 (Rabs (2 * (w * y - z * x)))) as [H | H]; simpl.
  - eexists. reflexivity.
  - rewrite math_asin_ok by lra. simpl. eexists. reflexivity.
Qed.

End QuaternionAlgebra.

(** ** The claims about the algebra *)

(** C4.  [_normalize_quaternion] never raises and never divides by zero:
    the zero quaternion is mapped to the identity [(1,0,0,0)] exactly, a
    quaternion of non-zero norm has each component divided by the norm (a
    division whose divisor is then not zero), and in exact arithmetic the
    norm is zero for the zero quaternion only. *)
Theorem normalize_never_fails :
  UnionPygame._normalize_quaternion (mkQ 0 0 0 0) = Ok (mkQ 1 0 0 0) /\
  (forall q : Quaternion,
      np_linalg_norm q <> 0 ->
      Py.truediv (qw q) (np_linalg_norm q) = Ok (qw q / np_linalg_norm q) /\
      UnionPygame._normalize_quaternion q =
      Ok (mkQ (qw q / np_linalg_norm q) (qx q / np_linalg_norm q)
              (qy q / np_linalg_norm q) (qz q / np_linalg_norm q))) /\
  (forall q : Quaternion, exists r, UnionPygame._normalize_quaternion q = Ok r) /\
  (forall q : Quaternion, np_linalg_norm q = 0 <-> q = mkQ 0 0 0 0).
Proof.
  split; [| split; [| split]].
  - apply normalize_zero_norm. apply norm_zero_iff. reflexivity.
  - intros q Hq. split; [apply truediv_ok, Hq | apply normalize_nonzero, Hq].
  - apply normalize_total.
  - apply norm_zero_iff.
Qed.

(** The quaternion [(3,0,4,0)] has norm 5 and normalises to [(3/5,0,4/5,0)]. *)
Lemma normalize_never_fails_witness :
  np_linalg_norm (mkQ 3 0 4 0) <> 0 /\
  UnionPygame._normalize_quaternion (mkQ 3 0 4 0) =
  Ok (mkQ (3 / np_linalg_norm (mkQ 3 0 4 0)) (0 / np_linalg_norm (mkQ 3 0 4 0))
          (4 / np_linalg_norm (mkQ 3 0 4 0)) (0 / np_linalg_norm (mkQ 3 0 4 0))).
Proof.
  assert (N : np_linalg_norm (mkQ 3 0 4 0) <> 0).
  { intros E. apply norm_zero_iff in E. inversion E; lra. }
  split; [exact N |].
  exact (proj2 (proj1 (proj2 normalize_never_fails) (mkQ 3 0 4 0) N)).
Defined.

(** C9.  For a unit quaternion [q], [multiply(q, conjugate(q))] is exactly
    the identity quaternion [(1,0,0,0)] in exact arithmetic. *)
Theorem multiply_conjugate_unit (q : Quaternion) :
  np_linalg_norm q = 1 ->
  UnionPygame._quaternion_multiply q (UnionPygame._quaternion_conjugate q)
  = mkQ 1 0 0 0.
Proof.
  intros H. rewrite multiply_conjugate.
  pose proof (norm_sqr q) as S. rewrite H in S.
  f_equal. lra.
Qed.

Lemma multiply_conjugate_unit_witness :
  np_linalg_norm (mkQ 0 1 0 0) = 1 /\
  UnionPygame._quaternion_multiply (mkQ 0 1 0 0)
    (UnionPygame._quaternion_conjugate (mkQ 0 1 0 0)) = mkQ 1 0 0 0.
Proof.
  assert (N : np_linalg_norm (mkQ 0 1 0 0) = 1).
  { unfold np_linalg_norm, sumsq. simpl.
    replace (0 * 0 + 1 * 1 + 0 * 0 + 0 * 0) with 1 by ring. apply sqrt_1. }
  split; [exact N | apply (multiply_conjugate_unit (mkQ 0 1 0 0)); exact N].
Defined.

(** C8.  In the quaternion-to-Euler conversion the pitch is [PI/2] with the
    sign of [sinp = 2(wy - zx)] whenever [|sinp| >= 1]; [asin] is evaluated
    only when [|sinp| < 1], where it is defined, so the conversion (and the
    same guard in [spherical_method]) returns for every input. *)
Theorem pitch_singularity_guard (w x y z : R) :
  let sinp := 2 * (w * y - z * x) in
  exists roll pitch yaw,
    quaternion_to_euler w x y z = Ok (roll, pitch, yaw) /\
    UnionPygame._quaternion_to_euler (mkQ w x y z) = Ok (roll, pitch, yaw) /\
    (1 <= Rabs sinp -> pitch = Py.math_copysign (PI / 2) sinp) /\
    (1 <= sinp -> pitch = PI / 2) /\
    (sinp <= -1 -> pitch = - (PI / 2)) /\
    (Rabs sinp < 1 -> Py.math_asin sinp = Ok pitch /\ pitch = asin sinp) /\
    (forall self, exists p, Comparing.spherical_raw self w x y z = Ok p).
Proof.
  intros sinp.
  assert (Hpi : 0 < PI / 2) by (pose proof PI_RGT_0; lra).
  assert (Hsph : forall self, exists p, Comparing.spherical_raw self w x y z = Ok p)
    by (intros self; apply spherical_raw_total).
  unfold UnionPygame._quaternion_to_euler, quaternion_to_euler. fold sinp.
  destruct (Rle_dec 1 (Rabs sinp)) as [H | H]; simpl.
  - do 3 eexists. split; [reflexivity |]. split; [reflexivity |].
    unfold Py.math_copysign. rewrite (Rabs_pos_eq (PI / 2)) by lra.
    repeat split; try (intros; lra); try exact Hsph.
    + intros H1. destruct (Rlt_dec sinp 0); [lra | reflexivity].
    + intros H1. destruct (Rlt_dec sinp 0); [reflexivity | lra].
  - rewrite math_asin_ok by lra. simpl.
    do 3 eexists. split; [reflexivity |]. split; [reflexivity |].
    assert (Hlt : Rabs sinp < 1) by lra.
    apply Rabs_def2 in Hlt.
    split; [intros; lra |]. split; [intros; lra |]. split; [intros; lra |].
    split; [| exact Hsph].
    intros _. split; reflexivity.
Qed.

(* ===================================================================== *)
(** * The delta tracker *)
(* ===================================================================== *)

Section DeltaTracker.

Import UnionPygame.

Lemma sample_delta_total (self : QuaternionTo2DMotion) (cur prev : Quaternion) :
  exists dx dy, sample_delta self cur prev = Ok (dx, dy).
Proof.
  unfold sample_delta, _calculate_delta_quaternion.
  destruct (normalize_total
              (_quaternion_multiply cur (_quaternion_conjugate prev))) as [dq ->].
  simpl. unfold _quaternion_to_euler. destruct dq as [w x y z].
  destruct (quaternion_to_euler_total w x y z) as (roll & pitch & yaw & ->).
  simpl. do 2 eexists. reflexivity.
Qed.

Lemma INR_length_pos {A : Type} (l : list A) :
  Nat.ltb 0 (length l) = true -> INR (length l) <> 0.
Proof.
  intros H. apply Nat.ltb_lt in H. apply not_0_INR. lia.
Qed.

Lemma average_delta_total (buffer : list (R * R)) :
  exists ax ay, average_delta buffer = Ok (ax, ay).
Proof.
  unfold average_delta. destruct (Nat.ltb 0 (length buffer)) eqn:E.
  - rewrite !truediv_ok by (apply INR_length_pos, E). simpl.
    do 2 eexists. reflexivity.
  - do 2 eexists. reflexivity.
Qed.

Lemma raw_position_total (self : QuaternionTo2DMotion) (cur prev : Quaternion) :
  exists buffer ax ay,
    average_delta buffer = Ok (ax, ay) /\
    raw_position self cur prev =
    Ok (buffer, (screen_x self + ax, screen_y self + ay)).
Proof.
  unfold raw_position.
  destruct (sample_delta_total self cur prev) as (dx & dy & ->). simpl.
  set (buffer := Py.deque_append _ _ _).
  destruct (average_delta_total buffer) as (ax & ay & E).
  exists buffer, ax, ay. split; [exact E |]. rewrite E. reflexivity.
Qed.

(** The first sample after construction or reset: only the reference is
    recorded. *)
Lemma update_first (self : QuaternionTo2DMotion) (q cq : Quaternion) :
  prev_quaternion self = None ->
  _normalize_quaternion q = Ok cq ->
  update_position self q =
  Ok (set_prev self (Some cq), (Py.int (screen_x self), Py.int (screen_y self))).
Proof.
  intros Hp Hq. unfold update_position. rewrite Hq, Hp. reflexivity.
Qed.

(** Every later sample: append, average, move, clamp. *)
Lemma update_next (self : QuaternionTo2DMotion) (q cq p : Quaternion)
    (buffer : list (R * R)) (x y : R) :
  prev_quaternion self = Some p ->
  _normalize_quaternion q = Ok cq ->
  raw_position self cq p = Ok (buffer, (x, y)) ->
  update_position self q =
  Ok (set_prev (set_motion self buffer (clamp (screen_width self) x)
                                       (clamp (screen_height self) y))
               (Some cq),
      (Py.int (clamp (screen_width self) x),
       Py.int (clamp (screen_height self) y))).
Proof.
  intros Hp Hq Hr. unfold update_position. rewrite Hq, Hp. simpl.
  rewrite Hr. reflexivity.
Qed.

Lemma update_position_total (self : QuaternionTo2DMotion) (q : Quaternion) :
  exists self' out, update_position self q = Ok (self', out).
Proof.
  destruct (normalize_total q) as [cq Hq].
  destruct (prev_quaternion self) as [p |] eqn:Hp.
  - destruct (raw_position_total self cq p) as (b & ax & ay & _ & Hr).
    do 2 eexists. apply (update_next self q cq p _ _ _ Hp Hq Hr).
  - do 2 eexists. apply (update_first self q cq Hp Hq).
Qed.

(** ** Zero deltas *)

Lemma sample_delta_same (self : QuaternionTo2DMotion) (q cq : Quaternion) :
  _normalize_quaternion q = Ok cq -> sample_delta self cq cq = Ok (0, 0).
Proof.
  intros Hq. unfold sample_delta.
  rewrite (delta_of_same q cq Hq). simpl.
  rewrite euler_of_identity. simpl.
  destruct (Rlt_dec (Rabs 0) (deadzone self)); f_equal; f_equal; ring.
Qed.

Lemma zero_deltas_sum (buffer : list (R * R)) :
  zero_deltas buffer -> Py.sum fst buffer = 0 /\ Py.sum snd buffer = 0.
Proof.
  unfold zero_deltas, Py.sum. intros H.
  induction H as [| d l Hd Hl IH]; simpl.
  - split; reflexivity.
  - subst d. simpl. rewrite !Rplus_0_l. exact IH.
Qed.

Lemma zero_deltas_tl (buffer : list (R * R)) :
  zero_deltas buffer -> zero_deltas (tl buffer).
Proof.
  intros H. destruct H; simpl; [constructor | assumption].
Qed.

Lemma zero_deltas_append (n : nat) (buffer : list (R * R)) :
  zero_deltas buffer -> zero_deltas (Py.deque_append n buffer (0, 0)).
Proof.
  intros H. unfold Py.deque_append. destruct n as [| n]; [exact H |].
  assert (Hlast : zero_deltas [(0, 0)]) by (constructor; [reflexivity | constructor]).
  destruct (Nat.ltb (length buffer) (S n)); apply Forall_app; split;
    try exact Hlast; [exact H | apply zero_deltas_tl, H].
Qed.

Lemma zero_deltas_average (buffer : list (R * R)) :
  zero_deltas buffer -> average_delta buffer = Ok (0, 0).
Proof.
  intros H. unfold average_delta.
  destruct (zero_deltas_sum buffer H) as [-> ->].
  destruct (Nat.ltb 0 (length buffer)) eqn:E; [| reflexivity].
  rewrite !truediv_ok by (apply INR_length_pos, E). simpl.
  unfold Rdiv. rewrite Rmult_0_l. reflexivity.
Qed.

(** A sample whose delta is zero, arriving on a buffer of zero deltas,
    leaves a position that the clamp fixes where it is. *)
Lemma still_step (self : QuaternionTo2DMotion) (q cq p : Quaternion) :
  prev_quaternion self = Some p ->
  _normalize_quaternion q = Ok cq ->
  sample_delta self cq p = Ok (0, 0) ->
  zero_deltas (delta_buffer self) ->
  clamp (screen_width self) (screen_x self) = screen_x self ->
  clamp (screen_height self) (screen_y self) = screen_y self ->
  exists buffer,
    zero_deltas buffer /\
    update_position self q =
    Ok (set_prev (set_motion self buffer (screen_x self) (screen_y self)) (Some cq),
        (Py.int (screen_x self), Py.int (screen_y self))).
Proof.
  intros Hp Hq Hd Hz Hx Hy.
  set (buffer := Py.deque_append (smoothing_window self) (delta_buffer self) (0, 0)).
  assert (Hb : zero_deltas buffer) by (apply zero_deltas_append, Hz).
  exists buffer. split; [exact Hb |].
  assert (Hr : raw_position self cq p
               = Ok (buffer, (screen_x self + 0, screen_y self + 0))).
  { unfold raw_position. rewrite Hd. simpl. fold buffer.
    rewrite (zero_deltas_average buffer Hb). reflexivity. }
  rewrite (update_next self q cq p _ _ _ Hp Hq Hr).
  rewrite !Rplus_0_r, Hx, Hy. reflexivity.
Qed.

Lemma clamp_centre (w : Z) : (0 <= w)%Z -> clamp w (IZR (w / 2)) = IZR (w / 2).
Proof.
  intros Hw. unfold clamp.
  destruct (Z.eq_dec w 0) as [-> | Hn].
  - change (0 / 2)%Z with 0%Z. unfold Py.max, Py.min.
    rewrite Rmin_left by lra. apply Rmax_left. lra.
  - assert (0 <= w / 2 <= w - 1)%Z as [H1 H2].
    { split; [apply Z.div_pos; lia | apply Z.lt_le_pred, Z.div_lt; lia]. }
    apply IZR_le in H1, H2. rewrite minus_IZR in H2.
    apply max_min_inside; assumption.
Qed.

End DeltaTracker.

(** ** The claims about the tracker's state *)

Section TrackerClaims.

Import UnionPygame.

Lemma fresh_init (w h : Z) (s : R) (n : nat) : fresh (__init__ w h s n).
Proof. unfold fresh. simpl. auto. Qed.

Lemma fresh_reset (self : QuaternionTo2DMotion) : fresh (reset_position self).
Proof. unfold fresh. simpl. auto. Qed.

(** From a fresh tracker, any number of copies of one sample leaves the
    tracker at the centre with a buffer of zero deltas. *)
Lemma feed_same_rest (self : QuaternionTo2DMotion) (q cq : Quaternion) :
  fresh self ->
  (0 <= screen_width self)%Z -> (0 <= screen_height self)%Z ->
  _normalize_quaternion q = Ok cq ->
  forall n, exists buffer,
    zero_deltas buffer /\
    feed_same (S n) self q =
    Ok (set_prev (set_motion self buffer (screen_x self) (screen_y self)) (Some cq),
        Some (Py.int (screen_x self), Py.int (screen_y self))).
Proof.
  intros (Hp & Hb & Hx & Hy) Hw Hh Hq n.
  induction n as [| n (buffer & Hz & IH)].
  - exists (delta_buffer self). split.
    + rewrite Hb. constructor.
    + simpl. rewrite (update_first self q cq Hp Hq). reflexivity.
  - set (st := set_prev (set_motion self buffer (screen_x self) (screen_y self))
                        (Some cq)) in IH.
    destruct (still_step st q cq cq) as (buffer' & Hz' & Hu); try assumption.
    + reflexivity.
    + apply sample_delta_same with q. exact Hq.
    + simpl. rewrite Hx. apply clamp_centre, Hw.
    + simpl. rewrite Hy. apply clamp_centre, Hh.
    + exists buffer'. split; [exact Hz' |].
      change (feed_same (S (S n)) self q)
        with ('(self0, _) <- feed_same (S n) self q ;;
              '(self1, out) <- update_position self0 q ;;
              Ok (self1, Some out)).
      rewrite IH. simpl. rewrite Hu. reflexivity.
Qed.

(** C1.  A fresh tracker (just constructed or reset, screen sizes not
    negative) fed the same quaternion [n >= 2] times: the position after
    sample [n] is the position after sample 1 and the same pixel pair is
    returned, because the delta of a repeated sample is [(0, 0)] in whatever
    state the tracker is. *)
Theorem same_sample_no_motion
    (self : UnionPygame.QuaternionTo2DMotion) (q : Quaternion) (n : nat) :
  UnionPygame.fresh self ->
  (0 <= UnionPygame.screen_width self)%Z ->
  (0 <= UnionPygame.screen_height self)%Z ->
  (2 <= n)%nat ->
  exists cq self1 out1 selfn,
    UnionPygame._normalize_quaternion q = Ok cq /\
    UnionPygame.update_position self q = Ok (self1, out1) /\
    UnionPygame.feed_same n self q = Ok (selfn, Some out1) /\
    UnionPygame.screen_x selfn = UnionPygame.screen_x self1 /\
    UnionPygame.screen_y selfn = UnionPygame.screen_y self1 /\
    UnionPygame.prev_quaternion selfn = Some cq /\
    (forall st, UnionPygame.sample_delta st cq cq = Ok (0, 0)).
Proof.
  intros Hf Hw Hh Hn.
  destruct (normalize_total q) as [cq Hq].
  destruct n as [| n]; [lia |].
  destruct (feed_same_rest self q cq Hf Hw Hh Hq n) as (buffer & _ & Hn').
  destruct Hf as (Hp & _).
  exists cq. do 3 eexists.
  split; [exact Hq |].
  split; [apply (update_first self q cq Hp Hq) |].
  split; [exact Hn' |].
  repeat split; try reflexivity.
  intros st. apply sample_delta_same with q. exact Hq.
Qed.

(** Scenario 3: the default tracker fed [(0, 0, 0, 1)] fifty times. *)
Lemma same_sample_no_motion_witness :
  exists cq self1 out1 selfn,
    UnionPygame._normalize_quaternion (mkQ 0 0 0 1) = Ok cq /\
    UnionPygame.update_position UnionPygame.default (mkQ 0 0 0 1) = Ok (self1, out1) /\
    UnionPygame.feed_same 50 UnionPygame.default (mkQ 0 0 0 1) = Ok (selfn, Some out1) /\
    UnionPygame.screen_x selfn = UnionPygame.screen_x self1 /\
    UnionPygame.screen_y selfn = UnionPygame.screen_y self1 /\
    UnionPygame.prev_quaternion selfn = Some cq /\
    (forall st, UnionPygame.sample_delta st cq cq = Ok (0, 0)).
Proof.
  apply (same_sample_no_motion UnionPygame.default (mkQ 0 0 0 1) 50).
  - unfold UnionPygame.fresh. simpl. auto.
  - simpl. lia.
  - simpl. lia.
  - lia.
Defined.

(** C3.  [reset_position], in any state: the position is the screen centre,
    the reference orientation and the buffer are cleared, every other
    attribute is left as it was, a second reset changes nothing, and the
    next sample returns the centre and only records the reference, as the
    first sample of a newly constructed tracker does. *)
Theorem reset_restores_initial_state (self : UnionPygame.QuaternionTo2DMotion) :
  let r := UnionPygame.reset_position self in
  UnionPygame.screen_x r = IZR (UnionPygame.screen_width self / 2) /\
  UnionPygame.screen_y r = IZR (UnionPygame.screen_height self / 2) /\
  UnionPygame.prev_quaternion r = None /\
  UnionPygame.delta_buffer r = [] /\
  (UnionPygame.screen_width r = UnionPygame.screen_width self /\
   UnionPygame.screen_height r = UnionPygame.screen_height self /\
   UnionPygame.sensitivity r = UnionPygame.sensitivity self /\
   UnionPygame.smoothing_window r = UnionPygame.smoothing_window self /\
   UnionPygame.deadzone r = UnionPygame.deadzone self) /\
  UnionPygame.reset_position r = r /\
  (forall q, exists cq,
      UnionPygame._normalize_quaternion q = Ok cq /\
      UnionPygame.update_position r q =
      Ok (UnionPygame.set_prev r (Some cq),
          ((UnionPygame.screen_width self / 2)%Z,
           (UnionPygame.screen_height self / 2)%Z))) /\
  (forall w h s n q, exists cq,
      UnionPygame._normalize_quaternion q = Ok cq /\
      UnionPygame.reset_position (UnionPygame.__init__ w h s n)
      = UnionPygame.__init__ w h s n /\
      UnionPygame.update_position (UnionPygame.__init__ w h s n) q =
      Ok (UnionPygame.set_prev (UnionPygame.__init__ w h s n) (Some cq),
          ((w / 2)%Z, (h / 2)%Z))).
Proof.
  intros r. subst r.
  repeat (split; [reflexivity |]).
  split; [repeat split |].
  split; [reflexivity |].
  split.
  - intros q. destruct (normalize_total q) as [cq Hq]. exists cq.
    split; [exact Hq |].
    rewrite (update_first (reset_position self) q cq eq_refl Hq).
    simpl. rewrite !int_IZR. reflexivity.
  - intros w h s n q. destruct (normalize_total q) as [cq Hq]. exists cq.
    split; [exact Hq |]. split; [reflexivity |].
    rewrite (update_first (__init__ w h s n) q cq eq_refl Hq).
    simpl. rewrite !int_IZR. reflexivity.
Qed.


End TrackerClaims.

(* ===================================================================== *)
(** * Post-processing: dead zone, smoothing, clamp *)
(* ===================================================================== *)

Lemma clamped_to_max_min (lo hi raw : R) :
  lo <= hi -> clamped_to lo hi raw (Py.max lo (Py.min hi raw)).
Proof.
  intros H. unfold clamped_to. split; [apply max_min_range, H |].
  split; [intros; apply max_min_below; lra |].
  split; [intros; apply max_min_above; lra |].
  intros [H1 H2]. apply max_min_inside; assumption.
Qed.

Lemma sqrt_lt_sqr (s d : R) : 0 <= s -> 0 < d -> (sqrt s < d <-> s < d * d).
Proof.
  intros Hs Hd. split; intros H.
  - pose proof (sqrt_sqrt s Hs) as E. pose proof (sqrt_pos s). nra.
  - rewrite <- (sqrt_square d) by lra. apply sqrt_lt_1_alt. lra.
Qed.

Lemma sum_sqr_nonneg (a b : R) : 0 <= a * a + b * b.
Proof. nra. Qed.

Section ComparingFacts.

Import Comparing.

Variable self : ImprovedQuaternionConverter.

Lemma cmp_dead_zone_total (sx sy : R) :
  exists p, dead_zone_snap self sx sy = Ok p.
Proof.
  unfold dead_zone_snap. rewrite math_sqrt_ok by apply sum_sqr_nonneg. simpl.
  destruct (Rlt_dec _ _); eexists; reflexivity.
Qed.

Lemma cmp_dead_zone_inside (sx sy : R) :
  sqrt ((sx - screen_center_x self) * (sx - screen_center_x self) +
        (sy - screen_center_y self) * (sy - screen_center_y self))
  < dead_zone self ->
  dead_zone_snap self sx sy = Ok (screen_center_x self, screen_center_y self).
Proof.
  intros H. unfold dead_zone_snap. rewrite math_sqrt_ok by apply sum_sqr_nonneg. simpl.
  destruct (Rlt_dec _ _); [reflexivity | contradiction].
Qed.

Lemma cmp_dead_zone_outside (sx sy : R) :
  dead_zone self <=
  sqrt ((sx - screen_center_x self) * (sx - screen_center_x self) +
        (sy - screen_center_y self) * (sy - screen_center_y self)) ->
  dead_zone_snap self sx sy = Ok (sx, sy).
Proof.
  intros H. unfold dead_zone_snap. rewrite math_sqrt_ok by apply sum_sqr_nonneg. simpl.
  destruct (Rlt_dec _ _); [lra | reflexivity].
Qed.

Lemma cmp_smooth_dims (sx sy : R) (u : bool) :
  screen_width (fst (smooth self sx sy u)) = screen_width self /\
  screen_height (fst (smooth self sx sy u)) = screen_height self.
Proof. destruct u; simpl; auto. Qed.

(** [apply_post_processing] returns for every input: the clamp of the
    position of [pre_clamp]. *)
Lemma cmp_post_shape (sx sy : R) (u : bool) :
  exists self' px py,
    pre_clamp self sx sy u = Ok (self', (px, py)) /\
    apply_post_processing self sx sy u =
    Ok (self', (Py.max 0 (Py.min (screen_width self) px),
                Py.max 0 (Py.min (screen_height self) py))).
Proof.
  unfold apply_post_processing, pre_clamp.
  destruct (cmp_dead_zone_total sx sy) as [[dx dy] ->]. simpl.
  destruct (cmp_smooth_dims dx dy u) as [Hw Hh].
  destruct (smooth self dx dy u) as [self' [px py]] eqn:E. simpl in *.
  exists self', px, py. split; [reflexivity |].
  unfold clamp_to_screen. rewrite Hw, Hh. reflexivity.
Qed.

(** Without smoothing the object is left as it was. *)
Lemma cmp_post_no_smoothing (sx sy : R) :
  exists px py,
    dead_zone_snap self sx sy = Ok (px, py) /\
    apply_post_processing self sx sy false =
    Ok (self, clamp_to_screen self px py).
Proof.
  unfold apply_post_processing, pre_clamp.
  destruct (cmp_dead_zone_total sx sy) as [[dx dy] ->]. simpl.
  exists dx, dy. split; reflexivity.
Qed.

Lemma euler_raw_total (w x y z : R) : exists p, euler_raw self w x y z = Ok p.
Proof.
  unfold euler_raw.
  destruct (quaternion_to_euler_total w x y z) as (roll & pitch & yaw & ->).
  simpl. eexists. reflexivity.
Qed.

End ComparingFacts.

Section StrategyFacts.

Import Comparing.

Variable self : ImprovedQuaternionConverter.

(** What the two inner calls of [hybrid_method] return, and that they leave
    the object untouched. *)
Lemma euler_method_no_smoothing (w x y z : R) :
  exists e e',
    euler_raw self w x y z = Ok e /\
    dead_zone_snap self (fst e) (snd e) = Ok e' /\
    euler_method self w x y z false =
    Ok (self, clamp_to_screen self (fst e') (snd e')).
Proof.
  destruct (euler_raw_total self w x y z) as [[ex ey] He].
  destruct (cmp_post_no_smoothing self ex ey) as (px & py & Hd & Hp).
  exists (ex, ey), (px, py). repeat split; try assumption.
  unfold euler_method. rewrite He. simpl. exact Hp.
Qed.

Lemma spherical_method_no_smoothing (w x y z : R) :
  exists s s',
    spherical_raw self w x y z = Ok s /\
    dead_zone_snap self (fst s) (snd s) = Ok s' /\
    spherical_method self w x y z false =
    Ok (self, clamp_to_screen self (fst s') (snd s')).
Proof.
  destruct (spherical_raw_total self w x y z) as [[sx sy] Hs].
  destruct (cmp_post_no_smoothing self sx sy) as (px & py & Hd & Hp).
  exists (sx, sy), (px, py). repeat split; try assumption.
  unfold spherical_method. rewrite Hs. simpl. exact Hp.
Qed.

(** Every strategy ends in one call of [apply_post_processing] on the
    object it was given. *)
Lemma run_shape (m : strategy) (w x y z : R) (u : bool) :
  exists rx ry, run m self w x y z u = apply_post_processing self rx ry u.
Proof.
  destruct m; simpl.
  - destruct (euler_raw_total self w x y z) as [[ex ey] He].
    exists ex, ey. unfold euler_method. rewrite He. reflexivity.
  - do 2 eexists. unfold direct_method, direct_raw. reflexivity.
  - do 2 eexists. unfold rotation_matrix_method, rotation_matrix_raw. simpl.
    reflexivity.
  - destruct (spherical_raw_total self w x y z) as [[sx sy] Hs].
    exists sx, sy. unfold spherical_method. rewrite Hs. reflexivity.
  - destruct (euler_method_no_smoothing w x y z) as (e & e' & _ & _ & He).
    destruct (spherical_method_no_smoothing w x y z) as (s & s' & _ & _ & Hs).
    unfold hybrid_method. rewrite He. simpl. rewrite Hs. simpl.
    do 2 eexists. reflexivity.
Qed.

(** The same with the point named: what [raw_point] computes is the
    argument of that call. *)
Lemma run_of_raw (m : strategy) (w x y z : R) (u : bool) :
  exists rx ry,
    raw_point m self w x y z = Ok (rx, ry) /\
    run m self w x y z u = apply_post_processing self rx ry u.
Proof.
  destruct m; simpl.
  - destruct (euler_raw_total self w x y z) as [[ex ey] He].
    exists ex, ey. unfold euler_method. rewrite He. split; reflexivity.
  - unfold direct_method. destruct (direct_raw self w x y z) as [dx dy].
    exists dx, dy. split; reflexivity.
  - unfold rotation_matrix_method.
    destruct (rotation_matrix_raw self w x y z) as [mx my].
    exists mx, my. split; reflexivity.
  - destruct (spherical_raw_total self w x y z) as [[sx sy] Hs].
    exists sx, sy. unfold spherical_method. rewrite Hs. split; reflexivity.
  - destruct (euler_method_no_smoothing w x y z) as (e & e' & _ & _ & He).
    destruct (spherical_method_no_smoothing w x y z) as (s & s' & _ & _ & Hs).
    unfold hybrid_method. rewrite He. simpl. rewrite Hs. simpl.
    do 2 eexists. split; reflexivity.
Qed.

(** With smoothing off and a point outside the dead zone, [pre_clamp]
    hands the point on as it is. *)
Lemma pre_clamp_outside (sx sy : R) :
  dead_zone self <=
  sqrt ((sx - screen_center_x self) * (sx - screen_center_x self) +
        (sy - screen_center_y self) * (sy - screen_center_y self)) ->
  pre_clamp self sx sy false = Ok (self, (sx, sy)).
Proof.
  intros H. unfold pre_clamp. rewrite (cmp_dead_zone_outside self sx sy H).
  reflexivity.
Qed.

End StrategyFacts.

Section EulerFacts.

Import Euler.

Variable self : QuaternionToScreen.

Lemma eul_dead_zone_total (sx sy : R) :
  exists p, dead_zone_snap self sx sy = Ok p.
Proof.
  unfold dead_zone_snap. rewrite math_sqrt_ok by apply sum_sqr_nonneg. simpl.
  destruct (Rlt_dec _ _); eexists; reflexivity.
Qed.

Lemma eul_dead_zone_inside (sx sy : R) :
  sqrt ((sx - screen_center_x self) * (sx - screen_center_x self) +
        (sy - screen_center_y self) * (sy - screen_center_y self))
  < dead_zone self ->
  dead_zone_snap self sx sy = Ok (screen_center_x self, screen_center_y self).
Proof.
  intros H. unfold dead_zone_snap. rewrite math_sqrt_ok by apply sum_sqr_nonneg.
  simpl. destruct (Rlt_dec _ _); [reflexivity | contradiction].
Qed.

Lemma eul_dead_zone_outside (sx sy : R) :
  dead_zone self <=
  sqrt ((sx - screen_center_x self) * (sx - screen_center_x self) +
        (sy - screen_center_y self) * (sy - screen_center_y self)) ->
  dead_zone_snap self sx sy = Ok (sx, sy).
Proof.
  intros H. unfold dead_zone_snap. rewrite math_sqrt_ok by apply sum_sqr_nonneg.
  simpl. destruct (Rlt_dec _ _); [lra | reflexivity].
Qed.

Lemma eul_smooth_dims (sx sy : R) (u : bool) :
  screen_width (fst (smooth self sx sy u)) = screen_width self /\
  screen_height (fst (smooth self sx sy u)) = screen_height self.
Proof. destruct u; simpl; auto. Qed.

Lemma eul_coords_shape (w x y z : R) (u : bool) :
  exists self' px py,
    pre_clamp self w x y z u = Ok (self', (px, py)) /\
    quaternion_to_screen_coords self w x y z u =
    Ok (self', (Py.max 0 (Py.min (screen_width self) px),
                Py.max 0 (Py.min (screen_height self) py))).
Proof.
  unfold quaternion_to_screen_coords, pre_clamp.
  destruct (quaternion_to_euler_total w x y z) as (roll & pitch & yaw & ->).
  simpl.
  destruct (eul_dead_zone_total (fst (tilt_to_screen self roll pitch))
                                (snd (tilt_to_screen self roll pitch)))
    as [[dx dy] Hd].
  unfold tilt_to_screen in *. simpl in Hd. rewrite Hd. simpl.
  destruct (eul_smooth_dims dx dy u) as [Hw Hh].
  destruct (smooth self dx dy u) as [self' [px py]] eqn:E. simpl in *.
  exists self', px, py. split; [reflexivity |].
  unfold clamp_to_screen. rewrite Hw, Hh. reflexivity.
Qed.

End EulerFacts.

Section TrackerInvariant.

Import UnionPygame.

(** What a successful [update_position] did. *)
Lemma update_position_inv (self self' : QuaternionTo2DMotion) (q : Quaternion)
    (out : Z * Z) :
  update_position self q = Ok (self', out) ->
  exists cq,
    _normalize_quaternion q = Ok cq /\
    ((prev_quaternion self = None /\ self' = set_prev self (Some cq))
     \/
     (exists p buffer ax ay,
         prev_quaternion self = Some p /\
         raw_position self cq p =
         Ok (buffer, (screen_x self + ax, screen_y self + ay)) /\
         self' = set_prev
                   (set_motion self buffer
                      (clamp (screen_width self) (screen_x self + ax))
                      (clamp (screen_height self) (screen_y self + ay)))
                   (Some cq))).
Proof.
  intros H. destruct (normalize_total q) as [cq Hq]. exists cq.
  split; [exact Hq |].
  destruct (prev_quaternion self) as [p |] eqn:Hp.
  - right. destruct (raw_position_total self cq p) as (b & ax & ay & _ & Hr).
    rewrite (update_next self q cq p _ _ _ Hp Hq Hr) in H.
    injection H as <- _. exists p, b, ax, ay. auto.
  - left. rewrite (update_first self q cq Hp Hq) in H.
    injection H as <- _. auto.
Qed.

Lemma update_position_dims (self self' : QuaternionTo2DMotion) (q : Quaternion)
    (out : Z * Z) :
  update_position self q = Ok (self', out) ->
  screen_width self' = screen_width self /\
  screen_height self' = screen_height self.
Proof.
  intros H. destruct (update_position_inv _ _ _ _ H) as (cq & _ & [[_ ->] | R]).
  - simpl. auto.
  - destruct R as (p & b & ax & ay & _ & _ & ->). simpl. auto.
Qed.

Lemma clamp_range (w : Z) (v : R) :
  (1 <= w)%Z -> 0 <= clamp w v <= IZR w - 1.
Proof.
  intros Hw. unfold clamp. apply max_min_range.
  apply IZR_le in Hw. lra.
Qed.

Lemma centre_range (w : Z) : (1 <= w)%Z -> 0 <= IZR (w / 2) <= IZR w - 1.
Proof.
  intros Hw. assert (0 <= w / 2 <= w - 1)%Z as [H1 H2].
  { split; [apply Z.div_pos; lia | apply Z.lt_le_pred, Z.div_lt; lia]. }
  apply IZR_le in H1, H2. rewrite minus_IZR in H2. lra.
Qed.

(** The position of a reachable tracker with a real screen is on it. *)
Lemma reachable_on_screen (self : QuaternionTo2DMotion) :
  reachable self ->
  (1 <= screen_width self)%Z -> (1 <= screen_height self)%Z ->
  on_screen self.
Proof.
  intros H. induction H as [w h s n | self q self' out Hr IH Hu | self Hr IH
                           | self s Hr IH]; intros Hw Hh.
  - unfold on_screen. simpl in *. split; apply centre_range; assumption.
  - destruct (update_position_dims _ _ _ _ Hu) as [Ew Eh].
    rewrite Ew in Hw. rewrite Eh in Hh. specialize (IH Hw Hh).
    unfold on_screen. rewrite Ew, Eh.
    destruct (update_position_inv _ _ _ _ Hu) as (cq & _ & [[_ ->] | R]).
    + exact IH.
    + destruct R as (p & b & ax & ay & _ & _ & ->). simpl.
      split; apply clamp_range; assumption.
  - unfold on_screen. simpl in *. split; apply centre_range; assumption.
  - exact (IH Hw Hh).
Qed.

(** The pixel pair returned is [int] of the stored position. *)
Lemma update_returns_shape (self : QuaternionTo2DMotion) (q : Quaternion)
    (self' : QuaternionTo2DMotion) (ox oy : Z) :
  update_position self q = Ok (self', (ox, oy)) ->
  ox = Py.int (screen_x self') /\ oy = Py.int (screen_y self').
Proof.
  intros H. destruct (normalize_total q) as [cq Hq].
  destruct (prev_quaternion self) as [p |] eqn:Hp.
  - destruct (raw_position_total self cq p) as (b & ax & ay & _ & Hr).
    rewrite (update_next self q cq p _ _ _ Hp Hq Hr) in H.
    injection H as <- <- <-. simpl. auto.
  - rewrite (update_first self q cq Hp Hq) in H.
    injection H as <- <- <-. simpl. auto.
Qed.

End TrackerInvariant.

(* ===================================================================== *)
(** * A half turn about z: concrete runs of the tracker *)
(* ===================================================================== *)

Section ConcreteRuns.

Import UnionPygame.

Lemma tilt_45_nonzero : 2 * Py.math_radians 45 <> 0.
Proof. unfold Py.math_radians. pose proof PI_RGT_0. lra. Qed.

Lemma euler_init_default : Euler.__init__ 800 600 45 = Ok Euler.default.
Proof.
  unfold Euler.__init__. rewrite !truediv_ok by apply tilt_45_nonzero.
  reflexivity.
Qed.

Lemma comparing_init_default : Comparing.__init__ 100 100 45 = Ok Comparing.default.
Proof.
  unfold Comparing.__init__. rewrite !truediv_ok by apply tilt_45_nonzero.
  reflexivity.
Qed.

Lemma normalize_unit_norm (q : Quaternion) :
  np_linalg_norm q = 1 -> _normalize_quaternion q = Ok q.
Proof.
  intros H. rewrite normalize_nonzero by (rewrite H; lra). rewrite H.
  destruct q as [w x y z]. simpl. f_equal. f_equal; field.
Qed.

Lemma norm_half_turn : np_linalg_norm (mkQ 0 0 0 1) = 1.
Proof.
  unfold np_linalg_norm, sumsq. simpl.
  replace (0 * 0 + 0 * 0 + 0 * 0 + 1 * 1) with 1 by ring. apply sqrt_1.
Qed.

(** From the identity to [(0,0,0,1)]: the relative rotation is [(0,0,0,1)]. *)
Lemma delta_half_turn :
  _calculate_delta_quaternion (mkQ 0 0 0 1) (mkQ 1 0 0 0) = Ok (mkQ 0 0 0 1).
Proof.
  unfold _calculate_delta_quaternion, _quaternion_multiply, _quaternion_conjugate.
  simpl.
  replace (mkQ (0 * 1 - 0 * - 0 - 0 * - 0 - 1 * - 0)
               (0 * - 0 + 0 * 1 + 0 * - 0 - 1 * - 0)
               (0 * - 0 - 0 * - 0 + 0 * 1 + 1 * - 0)
               (0 * - 0 + 0 * - 0 - 0 * - 0 + 1 * 1))
    with (mkQ 0 0 0 1) by (f_equal; ring).
  apply normalize_unit_norm, norm_half_turn.
Qed.

(** Its Euler angles: no roll, no pitch, a yaw of [PI]. *)
Lemma euler_half_turn : quaternion_to_euler 0 0 0 1 = Ok (0, 0, PI).
Proof.
  unfold quaternion_to_euler.
  replace (2 * (0 * 0 + 0 * 1)) with 0 by ring.
  replace (1 - 2 * (0 * 0 + 0 * 0)) with 1 by ring.
  replace (2 * (0 * 0 - 1 * 0)) with 0 by ring.
  replace (2 * (0 * 1 + 0 * 0)) with 0 by ring.
  replace (1 - 2 * (0 * 0 + 1 * 1)) with (-1) by ring.
  rewrite Rabs_R0.
  destruct (Rle_dec 1 0) as [H | _]; [lra |].
  rewrite math_asin_ok by (rewrite Rabs_R0; lra).
  rewrite asin_0. simpl. rewrite math_atan2_0_1.
  rewrite math_atan2_neg_up by lra.
  replace (0 / -1) with 0 by field. rewrite atan_0, Rplus_0_l. reflexivity.
Qed.

Lemma sample_delta_half_turn (self : QuaternionTo2DMotion) :
  deadzone self = 1 / 1000 ->
  sample_delta self (mkQ 0 0 0 1) (mkQ 1 0 0 0) = Ok (PI * sensitivity self, 0).
Proof.
  intros Hd. unfold sample_delta. rewrite delta_half_turn. simpl.
  rewrite euler_half_turn. simpl. rewrite Hd.
  pose proof PI2_1 as Hpi.
  destruct (Rlt_dec (Rabs 0) (1 / 1000)) as [_ | H0];
    [| rewrite Rabs_R0 in H0; lra].
  destruct (Rlt_dec (Rabs PI) (1 / 1000)) as [H1 |];
    [rewrite Rabs_pos_eq in H1; lra |].
  f_equal. f_equal. ring.
Qed.

(** The first sample [(1,0,0,0)] on a fresh tracker. *)
Lemma first_sample_identity (self : QuaternionTo2DMotion) :
  prev_quaternion self = None ->
  update_position self (mkQ 1 0 0 0) =
  Ok (set_prev self (Some (mkQ 1 0 0 0)),
      (Py.int (screen_x self), Py.int (screen_y self))).
Proof.
  intros Hp. apply update_first; [exact Hp | apply normalize_identity].
Qed.

End ConcreteRuns.

Section BufferGrowth.

Import UnionPygame.

(** While the deque is not full, a sample is appended and the position
    moves by the mean of everything buffered. *)
Lemma raw_position_grow (self : QuaternionTo2DMotion) (cur prev : Quaternion)
    (dx dy : R) :
  sample_delta self cur prev = Ok (dx, dy) ->
  (length (delta_buffer self) < smoothing_window self)%nat ->
  let buffer := delta_buffer self ++ [(dx, dy)] in
  raw_position self cur prev =
  Ok (buffer,
      (screen_x self + Py.sum fst buffer / INR (length buffer),
       screen_y self + Py.sum snd buffer / INR (length buffer))).
Proof.
  intros Hd Hlen buffer. unfold raw_position. rewrite Hd. simpl.
  assert (Hb : Py.deque_append (smoothing_window self) (delta_buffer self) (dx, dy)
               = buffer).
  { unfold Py.deque_append. destruct (smoothing_window self) as [| k] eqn:E; [lia |].
    destruct (Nat.ltb_spec (length (delta_buffer self)) (S k)); [reflexivity | lia]. }
  rewrite Hb. unfold average_delta.
  assert (Hpos : Nat.ltb 0 (length buffer) = true).
  { apply Nat.ltb_lt. unfold buffer. rewrite length_app. simpl. lia. }
  rewrite Hpos. rewrite !truediv_ok by (apply INR_length_pos, Hpos). reflexivity.
Qed.

End BufferGrowth.

(** ** The claim about the screen bounds *)

(** C2, as the code has it.  Every projection strategy of comparing.py and
    [quaternion_to_screen_coords] of Euler.py, on a screen whose sizes are
    not negative, return a point of [[0, width] x [0, height]] that is the
    pre-clamp position clamped axis by axis, where the pre-clamp position
    is what the dead zone and the filter make of the point the strategy
    computed; with smoothing off and that point outside the dead zone, the
    returned point is the strategy's own point clamped axis by axis.
    [update_position] of a reachable tracker whose screen is at least
    1 x 1 returns the integer truncation of its stored position, integers
    in [[0, width - 1] x [0, height - 1]]: the stored position is the raw
    position clamped to that smaller rectangle, so a raw coordinate above
    [width - 1] comes back as [width - 1] and one below [0] as [0]. *)
Theorem outputs_clamped_to_screen :
  (forall (self : Comparing.ImprovedQuaternionConverter) (m : Comparing.strategy)
          (w x y z : R) (u : bool),
      0 <= Comparing.screen_width self -> 0 <= Comparing.screen_height self ->
      exists rx ry self' px py ox oy,
        Comparing.raw_point m self w x y z = Ok (rx, ry) /\
        Comparing.run m self w x y z u =
        Comparing.apply_post_processing self rx ry u /\
        Comparing.pre_clamp self rx ry u = Ok (self', (px, py)) /\
        Comparing.run m self w x y z u = Ok (self', (ox, oy)) /\
        clamped_to 0 (Comparing.screen_width self) px ox /\
        clamped_to 0 (Comparing.screen_height self) py oy /\
        (u = false ->
         Comparing.dead_zone self <=
         sqrt ((rx - Comparing.screen_center_x self)
               * (rx - Comparing.screen_center_x self) +
               (ry - Comparing.screen_center_y self)
               * (ry - Comparing.screen_center_y self)) ->
         clamped_to 0 (Comparing.screen_width self) rx ox /\
         clamped_to 0 (Comparing.screen_height self) ry oy)) /\
  (forall (self : Euler.QuaternionToScreen) (w x y z : R) (u : bool),
      0 <= Euler.screen_width self -> 0 <= Euler.screen_height self ->
      exists self' px py ox oy,
        Euler.pre_clamp self w x y z u = Ok (self', (px, py)) /\
        Euler.quaternion_to_screen_coords self w x y z u = Ok (self', (ox, oy)) /\
        clamped_to 0 (Euler.screen_width self) px ox /\
        clamped_to 0 (Euler.screen_height self) py oy) /\
  (forall (self : UnionPygame.QuaternionTo2DMotion) (q : Quaternion),
      UnionPygame.reachable self ->
      (1 <= UnionPygame.screen_width self)%Z ->
      (1 <= UnionPygame.screen_height self)%Z ->
      exists self' ox oy,
        UnionPygame.update_position self q = Ok (self', (ox, oy)) /\
        (0 <= ox <= UnionPygame.screen_width self - 1)%Z /\
        (0 <= oy <= UnionPygame.screen_height self - 1)%Z /\
        ox = Py.int (UnionPygame.screen_x self') /\
        oy = Py.int (UnionPygame.screen_y self') /\
        forall p cq buffer rx ry,
          UnionPygame.prev_quaternion self = Some p ->
          UnionPygame._normalize_quaternion q = Ok cq ->
          UnionPygame.raw_position self cq p = Ok (buffer, (rx, ry)) ->
          clamped_to 0 (IZR (UnionPygame.screen_width self) - 1) rx
                     (UnionPygame.screen_x self') /\
          clamped_to 0 (IZR (UnionPygame.screen_height self) - 1) ry
                     (UnionPygame.screen_y self') /\
          (rx < 0 -> ox = 0%Z) /\
          (IZR (UnionPygame.screen_width self) - 1 < rx ->
           ox = (UnionPygame.screen_width self - 1)%Z) /\
          (ry < 0 -> oy = 0%Z) /\
          (IZR (UnionPygame.screen_height self) - 1 < ry ->
           oy = (UnionPygame.screen_height self - 1)%Z)).
Proof.
  split; [| split].
  - intros self m w x y z u Hw Hh.
    destruct (run_of_raw self m w x y z u) as (rx & ry & Hraw & Hrun).
    destruct (cmp_post_shape self rx ry u) as (self' & px & py & Hpre & Hpost).
    exists rx, ry, self', px, py. do 2 eexists.
    split; [exact Hraw |]. split; [exact Hrun |].
    split; [exact Hpre |]. split; [rewrite Hrun; exact Hpost |].
    split; [apply clamped_to_max_min; assumption |].
    split; [apply clamped_to_max_min; assumption |].
    intros -> Hd. rewrite (pre_clamp_outside self rx ry Hd) in Hpre.
    injection Hpre as _ <- <-.
    split; apply clamped_to_max_min; assumption.
  - intros self w x y z u Hw Hh.
    destruct (eul_coords_shape self w x y z u) as (self' & px & py & Hpre & Hc).
    exists self', px, py. do 2 eexists.
    split; [exact Hpre |]. split; [exact Hc |].
    split; apply clamped_to_max_min; assumption.
  - intros self q Hreach Hw Hh.
    destruct (update_position_total self q) as (self' & [ox oy] & Hu).
    pose proof (reachable_on_screen _ (UnionPygame.reach_update _ _ _ _ Hreach Hu))
      as Hon.
    destruct (update_position_dims _ _ _ _ Hu) as [Ew Eh].
    rewrite Ew, Eh in Hon. specialize (Hon Hw Hh). destruct Hon as [Hx Hy].
    rewrite Ew in Hx. rewrite Eh in Hy.
    destruct (update_returns_shape self q self' ox oy Hu) as [-> ->].
    exists self'. do 2 eexists. split; [exact Hu |].
    assert (Hwr : IZR (UnionPygame.screen_width self - 1)
                  = IZR (UnionPygame.screen_width self) - 1) by apply minus_IZR.
    assert (Hhr : IZR (UnionPygame.screen_height self - 1)
                  = IZR (UnionPygame.screen_height self) - 1) by apply minus_IZR.
    split; [apply int_range; [lia | rewrite Hwr; exact Hx] |].
    split; [apply int_range; [lia | rewrite Hhr; exact Hy] |].
    split; [reflexivity |]. split; [reflexivity |].
    intros p cq buffer rx ry Hp Hq Hraw.
    pose proof (update_next self q cq p _ _ _ Hp Hq Hraw) as Hu'.
    assert (Es : self' =
                 UnionPygame.set_prev
                   (UnionPygame.set_motion self buffer
                      (UnionPygame.clamp (UnionPygame.screen_width self) rx)
                      (UnionPygame.clamp (UnionPygame.screen_height self) ry))
                   (Some cq)) by congruence.
    rewrite Es. simpl.
    assert (Hw0 : 0 <= IZR (UnionPygame.screen_width self) - 1)
      by (apply IZR_le in Hw; lra).
    assert (Hh0 : 0 <= IZR (UnionPygame.screen_height self) - 1)
      by (apply IZR_le in Hh; lra).
    pose proof (clamped_to_max_min 0 _ rx Hw0) as Cx.
    pose proof (clamped_to_max_min 0 _ ry Hh0) as Cy.
    split; [exact Cx |]. split; [exact Cy |].
    unfold UnionPygame.clamp.
    destruct Cx as (_ & Cx1 & Cx2 & _). destruct Cy as (_ & Cy1 & Cy2 & _).
    split; [intros H; rewrite (Cx1 H); apply (int_IZR 0) |].
    split; [intros H; rewrite (Cx2 H), <- Hwr; apply int_IZR |].
    split; [intros H; rewrite (Cy1 H); apply (int_IZR 0) |].
    intros H; rewrite (Cy2 H), <- Hhr; apply int_IZR.
Qed.

(** Three runs in which a clamp is at work or at rest.  The default
    comparator with the Direct strategy on [(0,1,0,0)]: the raw point lies
    to the right of the screen, outside the dead zone, and [x = width] is
    returned.  The default Euler mapping on [(1,0,0,0)].  The default
    tracker that has recorded [(1,0,0,0)] and receives [(0,0,0,1)]: the raw
    position lies to the right of [width - 1], which is what is returned. *)
Lemma outputs_clamped_to_screen_witness :
  (exists rx ry self' px py ox oy,
      Comparing.raw_point Comparing.Direct Comparing.default 0 1 0 0
      = Ok (rx, ry) /\
      Comparing.run Comparing.Direct Comparing.default 0 1 0 0 false =
      Comparing.apply_post_processing Comparing.default rx ry false /\
      Comparing.pre_clamp Comparing.default rx ry false = Ok (self', (px, py)) /\
      Comparing.run Comparing.Direct Comparing.default 0 1 0 0 false
      = Ok (self', (ox, oy)) /\
      clamped_to 0 (Comparing.screen_width Comparing.default) px ox /\
      clamped_to 0 (Comparing.screen_height Comparing.default) py oy /\
      Comparing.screen_width Comparing.default < rx /\
      clamped_to 0 (Comparing.screen_width Comparing.default) rx ox /\
      clamped_to 0 (Comparing.screen_height Comparing.default) ry oy /\
      ox = Comparing.screen_width Comparing.default) /\
  (exists self' px py ox oy,
      Euler.pre_clamp Euler.default 1 0 0 0 false = Ok (self', (px, py)) /\
      Euler.quaternion_to_screen_coords Euler.default 1 0 0 0 false
      = Ok (self', (ox, oy)) /\
      clamped_to 0 (Euler.screen_width Euler.default) px ox /\
      clamped_to 0 (Euler.screen_height Euler.default) py oy) /\
  (let st1 := UnionPygame.set_prev UnionPygame.default (Some (mkQ 1 0 0 0)) in
   exists self' ox oy buffer rx ry,
      UnionPygame.update_position st1 (mkQ 0 0 0 1) = Ok (self', (ox, oy)) /\
      (0 <= ox <= UnionPygame.screen_width st1 - 1)%Z /\
      (0 <= oy <= UnionPygame.screen_height st1 - 1)%Z /\
      ox = Py.int (UnionPygame.screen_x self') /\
      oy = Py.int (UnionPygame.screen_y self') /\
      UnionPygame.raw_position st1 (mkQ 0 0 0 1) (mkQ 1 0 0 0)
      = Ok (buffer, (rx, ry)) /\
      IZR (UnionPygame.screen_width st1) - 1 < rx /\
      clamped_to 0 (IZR (UnionPygame.screen_width st1) - 1) rx
                 (UnionPygame.screen_x self') /\
      clamped_to 0 (IZR (UnionPygame.screen_height st1) - 1) ry
                 (UnionPygame.screen_y self') /\
      ox = (UnionPygame.screen_width st1 - 1)%Z).
Proof.
  pose proof PI2_1 as Hpi. pose proof PI_4 as Hpi4.
  split; [| split].
  - destruct (proj1 outputs_clamped_to_screen
                Comparing.default Comparing.Direct 0 1 0 0 false)
      as (rx & ry & self' & px & py & ox & oy
          & Hraw & Hrun & Hpre & Hout & Cx & Cy & Hoff);
      [simpl; lra | simpl; lra |].
    assert (Exy : rx = 100 / 2 + 1 * (100 / (2 * Py.math_radians 45)) * 2 /\
                  ry = 100 / 2 + 0 * (100 / (2 * Py.math_radians 45)) * 2).
    { pose proof Hraw as E.
      unfold Comparing.raw_point, Comparing.direct_raw in E. simpl in E.
      injection E as <- <-. split; reflexivity. }
    destruct Exy as [Ex Ey].
    assert (Hr : 0 < Py.math_radians 45 <= 1) by (unfold Py.math_radians; lra).
    assert (Hs : 50 <= 100 / (2 * Py.math_radians 45)).
    { assert (Hk : 100 / (2 * Py.math_radians 45) * (2 * Py.math_radians 45) = 100)
        by (field; lra).
      assert (Hk0 : 0 < 100 / (2 * Py.math_radians 45))
        by (apply Rdiv_lt_0_compat; lra).
      nra. }
    assert (Hx : 100 < rx) by lra.
    assert (Hy : ry = 50) by lra.
    destruct Hoff as [Dx Dy]; [reflexivity | |].
    + simpl. rewrite Hy.
      replace ((50 - 100 / 2) * (50 - 100 / 2)) with 0 by lra.
      rewrite Rplus_0_r, sqrt_square by lra. lra.
    + exists rx, ry, self', px, py, ox, oy.
      do 6 (split; [assumption |]).
      split; [exact Hx |]. split; [exact Dx |]. split; [exact Dy |].
      destruct Dx as (_ & _ & Dx & _). apply Dx. exact Hx.
  - apply (proj1 (proj2 outputs_clamped_to_screen)
             Euler.default 1 0 0 0 false); simpl; lra.
  - intros st1.
    assert (Hq : UnionPygame._normalize_quaternion (mkQ 0 0 0 1) = Ok (mkQ 0 0 0 1))
      by apply normalize_unit_norm, norm_half_turn.
    pose proof (raw_position_grow st1 (mkQ 0 0 0 1) (mkQ 1 0 0 0) _ _
                  (sample_delta_half_turn st1 eq_refl)) as Hraw.
    simpl in Hraw. specialize (Hraw ltac:(lia)).
    unfold Py.sum in Hraw. simpl in Hraw.
    change (1920 / 2)%Z with 960%Z in Hraw. change (1080 / 2)%Z with 540%Z in Hraw.
    destruct (proj2 (proj2 outputs_clamped_to_screen) st1 (mkQ 0 0 0 1))
      as (self' & ox & oy & Hu & Hx & Hy & Hox & Hoy & Hall).
    + apply (UnionPygame.reach_update UnionPygame.default (mkQ 1 0 0 0) st1
               (Py.int (UnionPygame.screen_x UnionPygame.default),
                Py.int (UnionPygame.screen_y UnionPygame.default))).
      * apply (UnionPygame.reach_init 1920 1080 500 5).
      * apply first_sample_identity. reflexivity.
    + simpl. lia.
    + simpl. lia.
    + destruct (Hall _ _ _ _ _ eq_refl Hq Hraw) as (Cx & Cy & _ & Hhi & _).
      assert (Hr : IZR (UnionPygame.screen_width st1) - 1
                   < 960 + (0 + PI * 500) / 1) by (simpl; lra).
      exists self', ox, oy. do 3 eexists.
      split; [exact Hu |]. split; [exact Hx |]. split; [exact Hy |].
      split; [exact Hox |]. split; [exact Hoy |].
      split; [exact Hraw |]. split; [exact Hr |].
      split; [exact Cx |]. split; [exact Cy |].
      apply Hhi. exact Hr.
Defined.

(** C2 as stated fails for the tracker.  The default tracker (1920 x 1080,
    sensitivity 500) fed [(1,0,0,0)] and then [(0,0,0,1)]: the raw position
    is [960 + 500 PI], to the right of the screen, and the call returns
    [x = 1919], which is not the boundary [width = 1920]. *)
Lemma tracker_clamps_to_width_minus_one :
  exists st1 st2 buffer rx ry,
    UnionPygame.update_position UnionPygame.default (mkQ 1 0 0 0)
    = Ok (st1, (960%Z, 540%Z)) /\
    UnionPygame.prev_quaternion st1 = Some (mkQ 1 0 0 0) /\
    UnionPygame._normalize_quaternion (mkQ 0 0 0 1) = Ok (mkQ 0 0 0 1) /\
    UnionPygame.raw_position st1 (mkQ 0 0 0 1) (mkQ 1 0 0 0)
    = Ok (buffer, (rx, ry)) /\
    IZR (UnionPygame.screen_width st1) < rx /\
    UnionPygame.update_position st1 (mkQ 0 0 0 1) = Ok (st2, (1919%Z, 540%Z)) /\
    IZR 1919 <> IZR (UnionPygame.screen_width st1).
Proof.
  set (st1 := UnionPygame.set_prev UnionPygame.default (Some (mkQ 1 0 0 0))).
  pose proof (raw_position_grow st1 (mkQ 0 0 0 1) (mkQ 1 0 0 0) _ _
                (sample_delta_half_turn st1 eq_refl)) as Hraw.
  simpl in Hraw. specialize (Hraw ltac:(lia)).
  unfold Py.sum in Hraw. simpl in Hraw.
  change (1920 / 2)%Z with 960%Z in Hraw. change (1080 / 2)%Z with 540%Z in Hraw.
  assert (Hq : UnionPygame._normalize_quaternion (mkQ 0 0 0 1) = Ok (mkQ 0 0 0 1))
    by apply normalize_unit_norm, norm_half_turn.
  pose proof PI2_1 as Hpi.
  exists st1. eexists. do 3 eexists.
  split.
  { rewrite first_sample_identity by reflexivity. simpl.
    change (1920 / 2)%Z with 960%Z. change (1080 / 2)%Z with 540%Z.
    rewrite !int_IZR. reflexivity. }
  split; [reflexivity |]. split; [exact Hq |]. split; [exact Hraw |].
  split; [simpl; lra |].
  split; [| simpl; lra].
  rewrite (update_next st1 (mkQ 0 0 0 1) (mkQ 0 0 0 1) (mkQ 1 0 0 0)
             _ _ _ eq_refl Hq Hraw).
  simpl. unfold UnionPygame.clamp.
  rewrite max_min_above by lra.
  rewrite max_min_inside by lra.
  replace (1920 - 1) with (IZR 1919) by lra.
  replace (540 + (0 + 0) / 1) with (IZR 540) by lra.
  rewrite !int_IZR. reflexivity.
Qed.

(* ===================================================================== *)
(** * The dead zone *)
(* ===================================================================== *)

Section EulerRuns.

Import Euler.

(** With smoothing off, [quaternion_to_screen_coords] is the clamp of what
    the dead zone lets through, and the object is left as it was. *)
Lemma eul_coords_no_smoothing (self : QuaternionToScreen) (w x y z : R)
    (roll pitch yaw : R) (p : R * R) :
  quaternion_to_euler w x y z = Ok (roll, pitch, yaw) ->
  dead_zone_snap self (fst (tilt_to_screen self roll pitch))
                      (snd (tilt_to_screen self roll pitch)) = Ok p ->
  pre_clamp self w x y z false = Ok (self, p) /\
  quaternion_to_screen_coords self w x y z false =
  Ok (self, clamp_to_screen self (fst p) (snd p)).
Proof.
  intros He Hd.
  assert (Hpre : pre_clamp self w x y z false = Ok (self, p)).
  { unfold pre_clamp. rewrite He. simpl.
    unfold tilt_to_screen in *. simpl in Hd. rewrite Hd. simpl.
    destruct p. reflexivity. }
  split; [exact Hpre |].
  unfold quaternion_to_screen_coords. rewrite Hpre. simpl.
  destruct p. reflexivity.
Qed.

Lemma default_tilt_pos : 0 < max_tilt_radians default.
Proof. simpl. unfold Py.math_radians. pose proof PI_RGT_0. lra. Qed.

(** Scenario 1 on the object [QuaternionToScreen()] builds. *)
Lemma eul_identity_centre :
  quaternion_to_screen_coords default 1 0 0 0 false = Ok (default, (400, 300)).
Proof.
  pose proof default_tilt_pos as Hm.
  assert (Ht : tilt_to_screen default 0 0 = (800 / 2, 600 / 2)).
  { unfold tilt_to_screen. rewrite max_min_inside by lra.
    simpl. f_equal; ring. }
  assert (Hd : dead_zone_snap default (fst (tilt_to_screen default 0 0))
                              (snd (tilt_to_screen default 0 0))
               = Ok (800 / 2, 600 / 2)).
  { rewrite Ht. simpl. apply (eul_dead_zone_inside default). simpl.
    replace ((800 / 2 - 800 / 2) * (800 / 2 - 800 / 2) +
             (600 / 2 - 600 / 2) * (600 / 2 - 600 / 2)) with 0 by ring.
    rewrite sqrt_0. lra. }
  destruct (eul_coords_no_smoothing default 1 0 0 0 0 0 0 _ euler_of_identity Hd)
    as [_ ->].
  unfold clamp_to_screen. simpl.
  rewrite !max_min_inside by lra.
  f_equal. f_equal. f_equal; lra.
Qed.

End EulerRuns.

Section DeadzoneDelta.

Import UnionPygame.

(** The per-angle dead zone of [update_position]. *)
Lemma sample_delta_deadzone (self : QuaternionTo2DMotion) (cur prev dq : Quaternion)
    (roll pitch yaw : R) :
  _calculate_delta_quaternion cur prev = Ok dq ->
  _quaternion_to_euler dq = Ok (roll, pitch, yaw) ->
  exists dx dy,
    sample_delta self cur prev = Ok (dx, dy) /\
    (Rabs yaw < deadzone self -> dx = 0) /\
    (Rabs pitch < deadzone self -> dy = 0) /\
    (deadzone self <= Rabs yaw -> dx = yaw * sensitivity self) /\
    (deadzone self <= Rabs pitch -> dy = - pitch * sensitivity self).
Proof.
  intros Hd He. unfold sample_delta. rewrite Hd. simpl. rewrite He. simpl.
  do 2 eexists. split; [reflexivity |].
  destruct (Rlt_dec (Rabs yaw) (deadzone self));
    destruct (Rlt_dec (Rabs pitch) (deadzone self));
    repeat split; intros; try lra; ring.
Qed.

(** Nothing moves when the sample's delta and all buffered deltas are zero. *)
Lemma zero_delta_no_motion (self : QuaternionTo2DMotion) (q cq p : Quaternion) :
  prev_quaternion self = Some p ->
  _normalize_quaternion q = Ok cq ->
  sample_delta self cq p = Ok (0, 0) ->
  zero_deltas (delta_buffer self) ->
  on_screen self ->
  exists self',
    update_position self q =
    Ok (self', (Py.int (screen_x self), Py.int (screen_y self))) /\
    screen_x self' = screen_x self /\ screen_y self' = screen_y self.
Proof.
  intros Hp Hq Hd Hz [Hx Hy].
  destruct (still_step self q cq p Hp Hq Hd Hz) as (buffer & _ & Hu).
  - unfold clamp. apply max_min_inside; lra.
  - unfold clamp. apply max_min_inside; lra.
  - eexists. split; [exact Hu |]. simpl. auto.
Qed.

End DeadzoneDelta.

(** ** The claim about the dead zone *)

(** C6, as the code has it.  Absolute mode (comparing.py and Euler.py): a
    raw point whose distance from the centre is less than [dead_zone] is
    replaced by the centre, and with smoothing off and the centre on the
    screen the call returns the centre.  Delta mode: a delta pitch or yaw
    whose absolute value is below [deadzone] is replaced by zero, so the
    sample contributes a zero [delta_y] or [delta_x] to the buffer; the
    position stays where it is when every buffered delta is zero as well.
    Scenario 1: the identity on the default Euler mapping gives
    [(400, 300)]. *)
Theorem deadzone_suppression :
  (forall (self : Comparing.ImprovedQuaternionConverter) (sx sy : R),
      sqrt ((sx - Comparing.screen_center_x self) *
            (sx - Comparing.screen_center_x self) +
            (sy - Comparing.screen_center_y self) *
            (sy - Comparing.screen_center_y self))
      < Comparing.dead_zone self ->
      Comparing.dead_zone_snap self sx sy =
      Ok (Comparing.screen_center_x self, Comparing.screen_center_y self) /\
      (0 <= Comparing.screen_center_x self <= Comparing.screen_width self ->
       0 <= Comparing.screen_center_y self <= Comparing.screen_height self ->
       Comparing.apply_post_processing self sx sy false =
       Ok (self, (Comparing.screen_center_x self, Comparing.screen_center_y self))))
  /\
  (forall (self : Euler.QuaternionToScreen) (w x y z roll pitch yaw : R),
      quaternion_to_euler w x y z = Ok (roll, pitch, yaw) ->
      let sx := fst (Euler.tilt_to_screen self roll pitch) in
      let sy := snd (Euler.tilt_to_screen self roll pitch) in
      sqrt ((sx - Euler.screen_center_x self) * (sx - Euler.screen_center_x self) +
            (sy - Euler.screen_center_y self) * (sy - Euler.screen_center_y self))
      < Euler.dead_zone self ->
      Euler.dead_zone_snap self sx sy =
      Ok (Euler.screen_center_x self, Euler.screen_center_y self) /\
      (0 <= Euler.screen_center_x self <= Euler.screen_width self ->
       0 <= Euler.screen_center_y self <= Euler.screen_height self ->
       Euler.quaternion_to_screen_coords self w x y z false =
       Ok (self, (Euler.screen_center_x self, Euler.screen_center_y self))))
  /\
  (forall (self : UnionPygame.QuaternionTo2DMotion) (cur prev dq : Quaternion)
          (roll pitch yaw : R),
      UnionPygame._calculate_delta_quaternion cur prev = Ok dq ->
      UnionPygame._quaternion_to_euler dq = Ok (roll, pitch, yaw) ->
      exists dx dy,
        UnionPygame.sample_delta self cur prev = Ok (dx, dy) /\
        (Rabs yaw < UnionPygame.deadzone self -> dx = 0) /\
        (Rabs pitch < UnionPygame.deadzone self -> dy = 0) /\
        (UnionPygame.deadzone self <= Rabs yaw ->
         dx = yaw * UnionPygame.sensitivity self) /\
        (UnionPygame.deadzone self <= Rabs pitch ->
         dy = - pitch * UnionPygame.sensitivity self))
  /\
  (forall (self : UnionPygame.QuaternionTo2DMotion) (q cq p : Quaternion),
      UnionPygame.prev_quaternion self = Some p ->
      UnionPygame._normalize_quaternion q = Ok cq ->
      UnionPygame.sample_delta self cq p = Ok (0, 0) ->
      UnionPygame.zero_deltas (UnionPygame.delta_buffer self) ->
      UnionPygame.on_screen self ->
      exists self',
        UnionPygame.update_position self q =
        Ok (self', (Py.int (UnionPygame.screen_x self),
                    Py.int (UnionPygame.screen_y self))) /\
        UnionPygame.screen_x self' = UnionPygame.screen_x self /\
        UnionPygame.screen_y self' = UnionPygame.screen_y self)
  /\
  (Euler.__init__ 800 600 45 = Ok Euler.default /\
   Euler.quaternion_to_screen_coords Euler.default 1 0 0 0 false
   = Ok (Euler.default, (400, 300))).
Proof.
  split; [| split; [| split; [| split]]].
  - intros self sx sy Hd.
    pose proof (cmp_dead_zone_inside self sx sy Hd) as Hs.
    split; [exact Hs |]. intros Hx Hy.
    destruct (cmp_post_no_smoothing self sx sy) as (px & py & Hs' & ->).
    rewrite Hs in Hs'. injection Hs' as <- <-.
    unfold Comparing.clamp_to_screen. rewrite !max_min_inside by lra. reflexivity.
  - intros self w x y z roll pitch yaw He sx sy Hd.
    pose proof (eul_dead_zone_inside self sx sy Hd) as Hs.
    split; [exact Hs |]. intros Hx Hy.
    destruct (eul_coords_no_smoothing self w x y z roll pitch yaw _ He Hs) as [_ ->].
    unfold Euler.clamp_to_screen. simpl. rewrite !max_min_inside by lra. reflexivity.
  - intros. eapply sample_delta_deadzone; eassumption.
  - intros. eapply zero_delta_no_motion; eassumption.
  - split; [apply euler_init_default | apply eul_identity_centre].
Qed.

(** The four parts of C6 on the default objects: the centre itself is in
    the dead zone; a repeated identity sample has a zero delta and leaves a
    tracker that has only seen the identity where it is. *)
Lemma deadzone_suppression_witness :
  (Comparing.dead_zone_snap Comparing.default 50 50 =
   Ok (Comparing.screen_center_x Comparing.default,
       Comparing.screen_center_y Comparing.default) /\
   Comparing.apply_post_processing Comparing.default 50 50 false =
   Ok (Comparing.default,
       (Comparing.screen_center_x Comparing.default,
        Comparing.screen_center_y Comparing.default))) /\
  (Euler.quaternion_to_screen_coords Euler.default 1 0 0 0 false =
   Ok (Euler.default,
       (Euler.screen_center_x Euler.default, Euler.screen_center_y Euler.default))) /\
  (exists dx dy,
      UnionPygame.sample_delta UnionPygame.default (mkQ 1 0 0 0) (mkQ 1 0 0 0)
      = Ok (dx, dy) /\ dx = 0 /\ dy = 0) /\
  (exists self',
      UnionPygame.update_position
        (UnionPygame.set_prev UnionPygame.default (Some (mkQ 1 0 0 0)))
        (mkQ 1 0 0 0)
      = Ok (self', (Py.int (UnionPygame.screen_x UnionPygame.default),
                    Py.int (UnionPygame.screen_y UnionPygame.default))) /\
      UnionPygame.screen_x self' = UnionPygame.screen_x UnionPygame.default /\
      UnionPygame.screen_y self' = UnionPygame.screen_y UnionPygame.default).
Proof.
  destruct deadzone_suppression as (A & B & C & D & _).
  assert (Hz : sqrt 0 < 10) by (rewrite sqrt_0; lra).
  assert (Hz1 : sqrt 0 < 1) by (rewrite sqrt_0; lra).
  assert (Hd0 : Rabs 0 < 1 / 1000) by (rewrite Rabs_R0; lra).
  pose proof default_tilt_pos as Hm.
  assert (Hdelta : UnionPygame._calculate_delta_quaternion (mkQ 1 0 0 0) (mkQ 1 0 0 0)
                   = Ok (mkQ 1 0 0 0))
    by (apply delta_of_same with (mkQ 1 0 0 0), normalize_identity).
  split; [| split; [| split]].
  - destruct (A Comparing.default 50 50) as [A1 A2].
    + simpl.
      replace ((50 - 100 / 2) * (50 - 100 / 2) + (50 - 100 / 2) * (50 - 100 / 2))
        with 0 by lra.
      exact Hz.
    + split; [exact A1 | apply A2; simpl; lra].
  - destruct (B Euler.default 1 0 0 0 0 0 0 euler_of_identity) as [_ B2].
    + unfold Euler.tilt_to_screen. rewrite max_min_inside by (simpl in Hm |- *; lra).
      simpl.
      replace ((800 / 2 + 0 * (800 / (2 * Py.math_radians 45)) - 800 / 2) *
               (800 / 2 + 0 * (800 / (2 * Py.math_radians 45)) - 800 / 2) +
               (600 / 2 - 0 * (600 / (2 * Py.math_radians 45)) - 600 / 2) *
               (600 / 2 - 0 * (600 / (2 * Py.math_radians 45)) - 600 / 2))
        with 0 by ring.
      exact Hz1.
    + apply B2; simpl; lra.
  - destruct (C UnionPygame.default (mkQ 1 0 0 0) (mkQ 1 0 0 0) (mkQ 1 0 0 0) 0 0 0
                Hdelta euler_of_identity) as (dx & dy & Hs & Hx & Hy & _).
    exists dx, dy. split; [exact Hs |]. split; [apply Hx | apply Hy]; exact Hd0.
  - apply (D (UnionPygame.set_prev UnionPygame.default (Some (mkQ 1 0 0 0)))
             (mkQ 1 0 0 0) (mkQ 1 0 0 0) (mkQ 1 0 0 0)).
    + reflexivity.
    + apply normalize_identity.
    + apply sample_delta_same with (mkQ 1 0 0 0), normalize_identity.
    + constructor.
    + unfold UnionPygame.on_screen. simpl.
      change (1920 / 2)%Z with 960%Z. change (1080 / 2)%Z with 540%Z. lra.
Defined.

(** C6 as stated fails in delta mode: a sample whose delta pitch and yaw
    are both zero, hence below the dead zone, still moves the pointer when
    an earlier delta is in the buffer.  A tracker with sensitivity 100 fed
    [(1,0,0,0)], [(0,0,0,1)], [(0,0,0,1)]: the third sample has a zero
    delta and moves the position by [50 PI] pixels to the right. *)
Lemma deadzone_sample_still_moves :
  let t0 := UnionPygame.__init__ 1920 1080 100 5 in
  exists st1 st2 st3 out1 out2 out3,
    UnionPygame.update_position t0 (mkQ 1 0 0 0) = Ok (st1, out1) /\
    UnionPygame.update_position st1 (mkQ 0 0 0 1) = Ok (st2, out2) /\
    UnionPygame.prev_quaternion st2 = Some (mkQ 0 0 0 1) /\
    UnionPygame._normalize_quaternion (mkQ 0 0 0 1) = Ok (mkQ 0 0 0 1) /\
    UnionPygame._calculate_delta_quaternion (mkQ 0 0 0 1) (mkQ 0 0 0 1)
    = Ok (mkQ 1 0 0 0) /\
    UnionPygame._quaternion_to_euler (mkQ 1 0 0 0) = Ok (0, 0, 0) /\
    Rabs 0 < UnionPygame.deadzone st2 /\
    UnionPygame.sample_delta st2 (mkQ 0 0 0 1) (mkQ 0 0 0 1) = Ok (0, 0) /\
    UnionPygame.update_position st2 (mkQ 0 0 0 1) = Ok (st3, out3) /\
    UnionPygame.screen_x st3 = UnionPygame.screen_x st2 + 50 * PI /\
    UnionPygame.screen_x st3 <> UnionPygame.screen_x st2.
Proof.
  intros t0.
  assert (Hq : UnionPygame._normalize_quaternion (mkQ 0 0 0 1) = Ok (mkQ 0 0 0 1))
    by apply normalize_unit_norm, norm_half_turn.
  pose proof PI2_1 as Hpi. pose proof PI_4 as Hpi4.
  set (st1 := UnionPygame.set_prev t0 (Some (mkQ 1 0 0 0))).
  pose proof (raw_position_grow st1 (mkQ 0 0 0 1) (mkQ 1 0 0 0) _ _
                (sample_delta_half_turn st1 eq_refl)) as Hraw1.
  simpl in Hraw1. specialize (Hraw1 ltac:(lia)).
  unfold Py.sum in Hraw1. simpl in Hraw1.
  change (1920 / 2)%Z with 960%Z in Hraw1. change (1080 / 2)%Z with 540%Z in Hraw1.
  pose proof (update_next st1 (mkQ 0 0 0 1) (mkQ 0 0 0 1) (mkQ 1 0 0 0)
                _ _ _ eq_refl Hq Hraw1) as Hu2.
  simpl in Hu2. unfold UnionPygame.clamp in Hu2.
  rewrite (max_min_inside 0 (1920 - 1)) in Hu2 by lra.
  rewrite (max_min_inside 0 (1080 - 1)) in Hu2 by lra.
  match type of Hu2 with _ = Ok (?s, _) => set (st2 := s) in * end.
  assert (Hd : UnionPygame.sample_delta st2 (mkQ 0 0 0 1) (mkQ 0 0 0 1) = Ok (0, 0))
    by (apply sample_delta_same with (mkQ 0 0 0 1); exact Hq).
  pose proof (raw_position_grow st2 (mkQ 0 0 0 1) (mkQ 0 0 0 1) _ _ Hd) as Hraw2.
  simpl in Hraw2. specialize (Hraw2 ltac:(lia)).
  unfold Py.sum in Hraw2. simpl in Hraw2.
  pose proof (update_next st2 (mkQ 0 0 0 1) (mkQ 0 0 0 1) (mkQ 0 0 0 1)
                _ _ _ eq_refl Hq Hraw2) as Hu3.
  simpl in Hu3. unfold UnionPygame.clamp in Hu3.
  rewrite (max_min_inside 0 (1920 - 1)) in Hu3 by lra.
  rewrite (max_min_inside 0 (1080 - 1)) in Hu3 by lra.
  exists st1, st2. do 4 eexists.
  split; [apply first_sample_identity; reflexivity |].
  split; [exact Hu2 |].
  split; [reflexivity |]. split; [exact Hq |].
  split; [apply delta_of_same with (mkQ 0 0 0 1); exact Hq |].
  split; [apply euler_of_identity |].
  split; [simpl; rewrite Rabs_R0; lra |].
  split; [exact Hd |].
  split; [exact Hu3 |].
  simpl. split; lra.
Qed.

(* ===================================================================== *)
(** * Numeric enclosures *)
(* ===================================================================== *)

Section Enclosures.

(** The alternating series of [atan] encloses it on [(0, 1)]. *)
Lemma atan_series_bounds (x : R) (N : nat) :
  0 < x < 1 ->
  sum_f_R0 (tg_alt (Ratan_seq x)) (S (2 * N)) <= atan x
  <= sum_f_R0 (tg_alt (Ratan_seq x)) (2 * N).
Proof.
  intros Hx. rewrite atan_eq_ps_atan by exact Hx. unfold ps_atan.
  destruct (Ratan.in_int x) as [Hin | Hout]; [| exfalso; apply Hout; lra].
  destruct (ps_atan_exists_1 x Hin) as [v Hv].
  apply alternated_series_ineq;
    [apply Ratan_seq_decreasing; lra | apply Ratan_seq_converging; lra | exact Hv].
Qed.

Lemma atan_small (x : R) : 0 < x < 1 -> 0 < atan x <= x.
Proof.
  intros Hx. split.
  - rewrite <- atan_0. apply atan_increasing. lra.
  - destruct (atan_series_bounds x 0 Hx) as [_ U].
    unfold tg_alt, Ratan_seq in U. simpl in U. lra.
Qed.

Lemma PI_enclosure : 3.1415 < PI < 3.1416.
Proof.
  destruct (PI_2_3_7_ineq 2) as [L U].
  unfold PI_2_3_7_tg, tg_alt, Ratan_seq in L, U. simpl in L, U. lra.
Qed.

Lemma radians_45 : Py.math_radians 45 = PI / 4.
Proof. unfold Py.math_radians. field. Qed.

Lemma dist_lt (a b d : R) : 0 < d -> a * a + b * b < d * d -> sqrt (a * a + b * b) < d.
Proof.
  intros Hd H. apply sqrt_lt_sqr; [apply sum_sqr_nonneg | exact Hd | exact H].
Qed.

Lemma dist_ge (a b d : R) : 0 < d -> d * d <= a * a + b * b -> d <= sqrt (a * a + b * b).
Proof.
  intros Hd H. apply Rnot_lt_le. intros Hlt.
  apply sqrt_lt_sqr in Hlt; [lra | apply sum_sqr_nonneg | exact Hd].
Qed.

End Enclosures.

(** C1 as stated fails in the middle of a stream.  A tracker with
    sensitivity 50 and a window of 3, fed [(1,0,0,0)] and then [(0,0,0,1)]
    twice: the third sample repeats the second and its delta is [(0, 0)],
    yet the position moves on by [25 PI] and the returned pixel goes from
    1117 to 1195, because the delta of the second sample is still in the
    buffer and is averaged in. *)
Lemma repeated_sample_moves_midstream :
  let t0 := UnionPygame.__init__ 1920 1080 50 3 in
  exists st1 st2 st3,
    UnionPygame.update_position t0 (mkQ 1 0 0 0) = Ok (st1, (960%Z, 540%Z)) /\
    UnionPygame.update_position st1 (mkQ 0 0 0 1) = Ok (st2, (1117%Z, 540%Z)) /\
    UnionPygame.update_position st2 (mkQ 0 0 0 1) = Ok (st3, (1195%Z, 540%Z)) /\
    UnionPygame.prev_quaternion st2 = Some (mkQ 0 0 0 1) /\
    UnionPygame.sample_delta st2 (mkQ 0 0 0 1) (mkQ 0 0 0 1) = Ok (0, 0) /\
    UnionPygame.delta_buffer st3 = [(PI * 50, 0); (0, 0)] /\
    UnionPygame.screen_x st3 = UnionPygame.screen_x st2 + 25 * PI /\
    UnionPygame.screen_x st3 <> UnionPygame.screen_x st2.
Proof.
  intros t0.
  assert (Hq : UnionPygame._normalize_quaternion (mkQ 0 0 0 1) = Ok (mkQ 0 0 0 1))
    by apply normalize_unit_norm, norm_half_turn.
  pose proof PI_enclosure as Hpi.
  set (st1 := UnionPygame.set_prev t0 (Some (mkQ 1 0 0 0))).
  pose proof (raw_position_grow st1 (mkQ 0 0 0 1) (mkQ 1 0 0 0) _ _
                (sample_delta_half_turn st1 eq_refl)) as Hraw1.
  simpl in Hraw1. specialize (Hraw1 ltac:(lia)).
  unfold Py.sum in Hraw1. simpl in Hraw1.
  change (1920 / 2)%Z with 960%Z in Hraw1. change (1080 / 2)%Z with 540%Z in Hraw1.
  pose proof (update_next st1 (mkQ 0 0 0 1) (mkQ 0 0 0 1) (mkQ 1 0 0 0)
                _ _ _ eq_refl Hq Hraw1) as Hu2.
  simpl in Hu2. unfold UnionPygame.clamp in Hu2.
  rewrite (max_min_inside 0 (1920 - 1)) in Hu2 by lra.
  rewrite (max_min_inside 0 (1080 - 1)) in Hu2 by lra.
  rewrite (int_floor_between 1117) in Hu2 by lra.
  rewrite (int_floor_between 540) in Hu2 by lra.
  match type of Hu2 with _ = Ok (?s, _) => set (st2 := s) in * end.
  assert (Hd : UnionPygame.sample_delta st2 (mkQ 0 0 0 1) (mkQ 0 0 0 1) = Ok (0, 0))
    by (apply sample_delta_same with (mkQ 0 0 0 1); exact Hq).
  pose proof (raw_position_grow st2 (mkQ 0 0 0 1) (mkQ 0 0 0 1) _ _ Hd) as Hraw2.
  simpl in Hraw2. specialize (Hraw2 ltac:(lia)).
  unfold Py.sum in Hraw2. simpl in Hraw2.
  pose proof (update_next st2 (mkQ 0 0 0 1) (mkQ 0 0 0 1) (mkQ 0 0 0 1)
                _ _ _ eq_refl Hq Hraw2) as Hu3.
  simpl in Hu3. unfold UnionPygame.clamp in Hu3.
  rewrite (max_min_inside 0 (1920 - 1)) in Hu3 by lra.
  rewrite (max_min_inside 0 (1080 - 1)) in Hu3 by lra.
  rewrite (int_floor_between 1195) in Hu3 by lra.
  rewrite (int_floor_between 540) in Hu3 by lra.
  exists st1, st2. eexists.
  split.
  { unfold t0. rewrite first_sample_identity by reflexivity. simpl.
    change (1920 / 2)%Z with 960%Z. change (1080 / 2)%Z with 540%Z.
    rewrite !int_IZR. reflexivity. }
  split; [exact Hu2 |].
  split; [exact Hu3 |].
  split; [reflexivity |].
  split; [exact Hd |].
  split; [reflexivity |].
  simpl. split; lra.
Qed.

(* ===================================================================== *)
(** * The Hybrid strategy *)
(* ===================================================================== *)

Ltac unfold_sample := unfold sample_w, sample_x, sample_y, sample_z in *.

Section HybridFacts.

Import Comparing.

Lemma cmp_post_outside (self : ImprovedQuaternionConverter) (sx sy : R) :
  dead_zone self <=
  sqrt ((sx - screen_center_x self) * (sx - screen_center_x self) +
        (sy - screen_center_y self) * (sy - screen_center_y self)) ->
  0 <= sx <= screen_width self -> 0 <= sy <= screen_height self ->
  apply_post_processing self sx sy false = Ok (self, (sx, sy)).
Proof.
  intros Hd Hx Hy.
  destruct (cmp_post_no_smoothing self sx sy) as (px & py & Hs & ->).
  rewrite (cmp_dead_zone_outside self sx sy Hd) in Hs. injection Hs as <- <-.
  unfold clamp_to_screen. rewrite !max_min_inside by lra. reflexivity.
Qed.

Lemma cmp_post_inside (self : ImprovedQuaternionConverter) (sx sy : R) :
  sqrt ((sx - screen_center_x self) * (sx - screen_center_x self) +
        (sy - screen_center_y self) * (sy - screen_center_y self))
  < dead_zone self ->
  0 <= screen_center_x self <= screen_width self ->
  0 <= screen_center_y self <= screen_height self ->
  apply_post_processing self sx sy false =
  Ok (self, (screen_center_x self, screen_center_y self)).
Proof.
  intros Hd Hx Hy.
  destruct (cmp_post_no_smoothing self sx sy) as (px & py & Hs & ->).
  rewrite (cmp_dead_zone_inside self sx sy Hd) in Hs. injection Hs as <- <-.
  unfold clamp_to_screen. rewrite !max_min_inside by lra. reflexivity.
Qed.

Lemma sample_is_unit :
  np_linalg_norm (mkQ sample_w sample_x sample_y sample_z) = 1.
Proof.
  unfold np_linalg_norm, sumsq. simpl.
  replace (sample_w * sample_w + sample_x * sample_x +
           sample_y * sample_y + sample_z * sample_z) with 1
    by (unfold_sample; lra).
  apply sqrt_1.
Qed.

(** Its roll is beyond a right angle, its pitch is zero, its yaw is small
    and positive. *)
Lemma euler_of_sample :
  exists roll yaw,
    quaternion_to_euler sample_w sample_x sample_y sample_z = Ok (roll, 0, yaw) /\
    yaw = Py.math_atan2 (2 * (sample_w * sample_z + sample_x * sample_y))
                        (1 - 2 * (sample_y * sample_y + sample_z * sample_z)) /\
    PI / 2 < roll /\ 0 < yaw < 0.135.
Proof.
  unfold quaternion_to_euler.
  replace (2 * (sample_w * sample_y - sample_z * sample_x)) with 0
    by (unfold_sample; lra).
  rewrite Rabs_R0. destruct (Rle_dec 1 0) as [H | _]; [lra |].
  rewrite math_asin_ok by (rewrite Rabs_R0; lra). rewrite asin_0. simpl.
  do 2 eexists. split; [reflexivity |]. split; [reflexivity |].
  split.
  - rewrite math_atan2_neg_up by (unfold_sample; lra).
    pose proof (atan_bound (2 * (sample_w * sample_x + sample_y * sample_z) /
                            (1 - 2 * (sample_x * sample_x + sample_y * sample_y)))).
    lra.
  - rewrite math_atan2_pos by (unfold_sample; lra).
    replace (2 * (sample_w * sample_z + sample_x * sample_y) /
             (1 - 2 * (sample_y * sample_y + sample_z * sample_z)))
      with (2697000 / 20115025) by (unfold_sample; lra).
    pose proof (atan_small (2697000 / 20115025) ltac:(lra)). lra.
Qed.

End HybridFacts.

Section HybridRun.

Import Comparing.

Lemma euler_raw_of_sample : euler_raw default sample_w sample_x sample_y sample_z = Ok (100, 50).
Proof.
  destruct euler_of_sample as (roll & yaw & He & _ & Hroll & _).
  pose proof PI_enclosure as Hpi.
  unfold euler_raw. rewrite He. simpl. rewrite radians_45.
  rewrite (max_min_above (- (PI / 4)) (PI / 4) roll) by lra.
  rewrite (max_min_inside (- (PI / 4)) (PI / 4) 0) by lra.
  f_equal. f_equal; field; lra.
Qed.

Lemma spherical_raw_of_sample :
  exists yaw,
    0 < yaw < 0.135 /\
    spherical_raw default sample_w sample_x sample_y sample_z = Ok (50 + yaw * (200 / PI), 50).
Proof.
  destruct euler_of_sample as (roll & yaw & _ & Hdef & _ & Hyaw).
  pose proof PI_enclosure as Hpi.
  exists yaw. split; [exact Hyaw |].
  unfold spherical_raw. rewrite <- Hdef.
  replace (2 * (sample_w * sample_y - sample_z * sample_x)) with 0
    by (unfold_sample; lra).
  rewrite Rabs_R0. destruct (Rle_dec 1 0) as [H | _]; [lra |].
  rewrite math_asin_ok by (rewrite Rabs_R0; lra). rewrite asin_0. simpl.
  rewrite radians_45.
  rewrite (max_min_inside (- (PI / 4)) (PI / 4) yaw) by lra.
  rewrite (max_min_inside (- (PI / 4)) (PI / 4) 0) by lra.
  f_equal. f_equal; field; lra.
Qed.

Lemma euler_method_of_sample :
  euler_method default sample_w sample_x sample_y sample_z false = Ok (default, (100, 50)).
Proof.
  unfold euler_method. rewrite euler_raw_of_sample. simpl.
  apply cmp_post_outside; simpl; try lra.
  apply dist_ge; lra.
Qed.

Lemma spherical_method_of_sample :
  spherical_method default sample_w sample_x sample_y sample_z false = Ok (default, (50, 50)).
Proof.
  destruct spherical_raw_of_sample as (yaw & Hyaw & Hs).
  pose proof PI_enclosure as Hpi.
  unfold spherical_method. rewrite Hs. simpl.
  assert (Hk : 0 < 200 / PI < 67).
  { split; [apply Rdiv_lt_0_compat; lra |].
    apply Rmult_lt_reg_r with PI; [lra |].
    unfold Rdiv. rewrite Rmult_assoc, Rinv_l by lra. lra. }
  assert (Hd : 0 < yaw * (200 / PI) < 9.1) by nra.
  rewrite cmp_post_inside; simpl; try lra.
  - f_equal. f_equal. f_equal; lra.
  - apply dist_lt; [lra |]. nra.
Qed.

End HybridRun.

(** ** The claim about the Hybrid strategy *)

(** C7 as stated fails: the blend is not taken over the raw candidates.  On
    the default converter the unit quaternion [(2697, 3596, 240, 180) / 4505]
    has the raw Euler point [(100, 50)] and a raw Spherical point some 8.5
    pixels right of the centre, inside the dead zone of radius 10.
    [hybrid_method] returns [x = 90]; post-processing the blend of the two
    raw points gives an [x] above 90. *)
Lemma hybrid_differs_from_raw_blend :
  exists hx hy rx ry,
    Comparing.__init__ 100 100 45 = Ok Comparing.default /\
    np_linalg_norm (mkQ sample_w sample_x sample_y sample_z) = 1 /\
    Comparing.hybrid_method Comparing.default sample_w sample_x sample_y sample_z false
    = Ok (Comparing.default, (hx, hy)) /\
    Comparing.hybrid_of_raw Comparing.default sample_w sample_x sample_y sample_z false
    = Ok (Comparing.default, (rx, ry)) /\
    hx = 90 /\ 90 < rx.
Proof.
  destruct spherical_raw_of_sample as (yaw & Hyaw & Hs).
  pose proof PI_enclosure as Hpi.
  assert (Hk : 0 < 200 / PI < 67).
  { split; [apply Rdiv_lt_0_compat; lra |].
    apply Rmult_lt_reg_r with PI; [lra |].
    unfold Rdiv. rewrite Rmult_assoc, Rinv_l by lra. lra. }
  assert (Hd : 0 < yaw * (200 / PI) < 9.1) by nra.
  exists 90, 50, (90 + yaw * (200 / PI) * (2 / 10)), 50.
  split; [apply comparing_init_default |].
  split; [apply sample_is_unit |].
  split; [| split; [| split; [reflexivity | lra]]].
  - unfold Comparing.hybrid_method.
    rewrite euler_method_of_sample. simpl. rewrite spherical_method_of_sample. simpl.
    replace (100 * (8 / 10) + 50 * (2 / 10)) with 90 by lra.
    replace (50 * (8 / 10) + 50 * (2 / 10)) with 50 by lra.
    apply cmp_post_outside; simpl; try lra.
    apply dist_ge; lra.
  - unfold Comparing.hybrid_of_raw.
    rewrite euler_raw_of_sample. simpl. rewrite Hs. simpl.
    replace (100 * (8 / 10) + (50 + yaw * (200 / PI)) * (2 / 10))
      with (90 + yaw * (200 / PI) * (2 / 10)) by lra.
    replace (50 * (8 / 10) + 50 * (2 / 10)) with 50 by lra.
    apply cmp_post_outside; simpl; try lra.
    apply dist_ge; [lra | nra].
Qed.

(** C7, as the code has it.  [hybrid_method] post-processes (dead zone,
    optional smoothing, clamp) the blend [0.8 * E + 0.2 * S], where [E] and
    [S] are what [euler_method] and [spherical_method] return with smoothing
    off: each raw candidate after its own dead zone and clamp.  The two
    inner calls leave the object unchanged. *)
Theorem hybrid_blends_processed_outputs
    (self : Comparing.ImprovedQuaternionConverter) (w x y z : R) (u : bool) :
  exists e s e' s',
    Comparing.euler_raw self w x y z = Ok e /\
    Comparing.spherical_raw self w x y z = Ok s /\
    Comparing.dead_zone_snap self (fst e) (snd e) = Ok e' /\
    Comparing.dead_zone_snap self (fst s) (snd s) = Ok s' /\
    let E := Comparing.clamp_to_screen self (fst e') (snd e') in
    let S := Comparing.clamp_to_screen self (fst s') (snd s') in
    Comparing.euler_method self w x y z false = Ok (self, E) /\
    Comparing.spherical_method self w x y z false = Ok (self, S) /\
    Comparing.hybrid_method self w x y z u =
    Comparing.apply_post_processing self
      (fst E * (8 / 10) + fst S * (2 / 10))
      (snd E * (8 / 10) + snd S * (2 / 10)) u.
Proof.
  destruct (euler_method_no_smoothing self w x y z) as (e & e' & He & Hde & Hem).
  destruct (spherical_method_no_smoothing self w x y z) as (s & s' & Hs & Hds & Hsm).
  exists e, s, e', s'. do 4 (split; [assumption |]).
  intros E S. split; [exact Hem |]. split; [exact Hsm |].
  unfold Comparing.hybrid_method. rewrite Hem. simpl. rewrite Hsm. reflexivity.
Qed.

(* ===================================================================== *)
(** * Scenario 2: a roll of about thirty degrees *)
(* ===================================================================== *)

Section RollScenario.

Import Euler.

(** The roll of [(0.966, 0.259, 0, 0)], enclosed by nine and ten terms of
    the series of [atan]. *)
Lemma roll_of_scenario :
  exists roll yaw,
    quaternion_to_euler 0.966 0.259 0 0 = Ok (roll, 0, yaw) /\
    0.52402 < roll < 0.52403.
Proof.
  unfold quaternion_to_euler.
  replace (2 * (0.966 * 0 - 0 * 0.259)) with 0 by lra.
  rewrite Rabs_R0. destruct (Rle_dec 1 0) as [H | _]; [lra |].
  rewrite math_asin_ok by (rewrite Rabs_R0; lra). rewrite asin_0. simpl.
  do 2 eexists. split; [reflexivity |].
  rewrite math_atan2_pos by lra.
  replace (2 * (0.966 * 0.259 + 0 * 0) / (1 - 2 * (0.259 * 0.259 + 0 * 0)))
    with (0.500388 / 0.865838) by lra.
  destruct (atan_series_bounds (0.500388 / 0.865838) 4 ltac:(lra)) as [L U].
  unfold tg_alt, Ratan_seq in L, U. simpl in L, U. lra.
Qed.

End RollScenario.

(** C5.  On the object [QuaternionToScreen()] builds (800 x 600, 45
    degrees), smoothing off, the sample [(0.966, 0.259, 0, 0)] has a roll
    within [0.0005] of [0.5236] rad, below the clamp [PI/4] (within [0.0001]
    of [0.7854]); the call returns [y = 300] and
    [x = 400 + roll * (800 / (2 * max_tilt))], which is within [0.2] of
    [666.7]. *)
Theorem euler_scenario_roll :
  exists roll pitch yaw x,
    Euler.__init__ 800 600 45 = Ok Euler.default /\
    quaternion_to_euler 0.966 0.259 0 0 = Ok (roll, pitch, yaw) /\
    Rabs (roll - 0.5236) < 0.0005 /\
    Rabs (Euler.max_tilt_radians Euler.default - 0.7854) < 0.0001 /\
    roll < Euler.max_tilt_radians Euler.default /\
    Euler.quaternion_to_screen_coords Euler.default 0.966 0.259 0 0 false
    = Ok (Euler.default, (x, 300)) /\
    x = 400 + roll * (800 / (2 * Euler.max_tilt_radians Euler.default)) /\
    Rabs (x - 666.7) < 0.2.
Proof.
  destruct roll_of_scenario as (roll & yaw & He & Hroll).
  pose proof PI_enclosure as Hpi.
  assert (Hk : 509.29 < 800 / (2 * (PI / 4)) < 509.311).
  { replace (800 / (2 * (PI / 4))) with (1600 / PI) by (field; lra).
    split.
    - apply Rmult_lt_reg_r with PI; [lra |].
      unfold Rdiv. rewrite Rmult_assoc, Rinv_l by lra. lra.
    - apply Rmult_lt_reg_r with PI; [lra |].
      unfold Rdiv. rewrite Rmult_assoc, Rinv_l by lra. lra. }
  assert (Hx : 266.5 < roll * (800 / (2 * (PI / 4))) < 266.9).
  { split.
    - apply Rlt_trans with (0.52402 * 509.29); [lra |].
      apply Rmult_le_0_lt_compat; lra.
    - apply Rlt_trans with (0.52403 * 509.311); [| lra].
      apply Rmult_le_0_lt_compat; lra. }
  exists roll, 0, yaw, (400 + roll * (800 / (2 * Euler.max_tilt_radians Euler.default))).
  split; [apply euler_init_default |]. split; [exact He |].
  simpl. rewrite radians_45.
  split; [apply Rabs_def1; lra |].
  split; [apply Rabs_def1; lra |].
  split; [lra |].
  split; [| split; [reflexivity | apply Rabs_def1; lra]].
  assert (Ht : Euler.tilt_to_screen Euler.default roll 0
               = (400 + roll * (800 / (2 * (PI / 4))), 300)).
  { unfold Euler.tilt_to_screen. simpl. rewrite radians_45.
    rewrite (max_min_inside (- (PI / 4)) (PI / 4) roll) by lra.
    rewrite (max_min_inside (- (PI / 4)) (PI / 4) 0) by lra.
    f_equal; lra. }
  assert (Hd : Euler.dead_zone_snap Euler.default
                 (fst (Euler.tilt_to_screen Euler.default roll 0))
                 (snd (Euler.tilt_to_screen Euler.default roll 0))
               = Ok (400 + roll * (800 / (2 * (PI / 4))), 300)).
  { rewrite Ht. simpl. apply eul_dead_zone_outside. simpl.
    apply dist_ge; [lra | nra]. }
  destruct (eul_coords_no_smoothing Euler.default _ _ _ _ roll 0 yaw _ He Hd)
    as [_ ->].
  unfold Euler.clamp_to_screen. simpl.
  rewrite !max_min_inside by lra. reflexivity.
Qed.

(* ===================================================================== *)
(** * Further properties of the quaternion algebra *)
(* ===================================================================== *)

Section AlgebraLaws.

Import UnionPygame.

Lemma norm_of_sumsq_one (q : Quaternion) : sumsq q = 1 -> np_linalg_norm q = 1.
Proof. intros H. unfold np_linalg_norm. rewrite H. apply sqrt_1. Qed.

Lemma sumsq_of_norm_one (q : Quaternion) : np_linalg_norm q = 1 -> sumsq q = 1.
Proof. intros H. rewrite <- norm_sqr, H. ring. Qed.



Lemma sumsq_multiply (a b : Quaternion) :
  sumsq (_quaternion_multiply a b) = sumsq a * sumsq b.
Proof.
  destruct a as [w1 x1 y1 z1], b as [w2 x2 y2 z2].
  unfold sumsq, _quaternion_multiply. simpl. ring.
Qed.

Lemma multiply_assoc (a b c : Quaternion) :
  _quaternion_multiply (_quaternion_multiply a b) c
  = _quaternion_multiply a (_quaternion_multiply b c).
Proof.
  destruct a as [w1 x1 y1 z1], b as [w2 x2 y2 z2], c as [w3 x3 y3 z3].
  unfold _quaternion_multiply. f_equal; ring.
Qed.

Lemma conjugate_multiply_self (q : Quaternion) :
  _quaternion_multiply (_quaternion_conjugate q) q = mkQ (sumsq q) 0 0 0.
Proof.
  destruct q as [w x y z]. unfold _quaternion_multiply, _quaternion_conjugate, sumsq.
  simpl. f_equal; ring.
Qed.

Lemma multiply_real_right (q : Quaternion) (r : R) :
  _quaternion_multiply q (mkQ r 0 0 0) = scale r q.
Proof.
  destruct q as [w x y z]. unfold _quaternion_multiply, scale. simpl. f_equal; ring.
Qed.

Lemma scale_one (q : Quaternion) : scale 1 q = q.
Proof. destruct q as [w x y z]. unfold scale. simpl. f_equal; ring. Qed.


End AlgebraLaws.

Lemma float_range_between (r : R) :
  1 <= r <= 1000 -> / 10 ^ 100 <= r <= 10 ^ 100.
Proof.
  intros [H1 H2].
  assert (P1 : 1 <= 10 ^ 100) by (apply pow_R1_Rle; lra).
  assert (P2 : 10 ^ 3 <= 10 ^ 100) by (apply Rle_pow; [lra | lia]).
  assert (P3 : / 10 ^ 100 <= / 1) by (apply Rinv_le_contravar; lra).
  rewrite Rinv_1 in P3. simpl in P2. lra.
Qed.

Lemma moderate_norm_between (q : Quaternion) :
  1 <= np_linalg_norm q <= 10 -> moderate_norm q.
Proof. intros H. apply float_range_between. lra. Qed.

Lemma norm_3_4 : np_linalg_norm (mkQ 0 0 3 4) = 5.
Proof.
  unfold np_linalg_norm, sumsq. simpl.
  replace (0 * 0 + 0 * 0 + 3 * 3 + 4 * 4) with (5 * 5) by ring.
  apply sqrt_square. lra.
Qed.

(** X1.  For the zero quaternion and for every quaternion whose norm lies
    between [10^-100] and [10^100], [_normalize_quaternion] returns a
    quaternion of norm one, and normalising that result again returns it
    unchanged. *)
Theorem normalize_unit_and_idempotent (q : Quaternion) :
  q = mkQ 0 0 0 0 \/ moderate_norm q ->
  exists r,
    UnionPygame._normalize_quaternion q = Ok r /\
    np_linalg_norm r = 1 /\
    UnionPygame._normalize_quaternion r = Ok r.
Proof.
  intros _.
  destruct (normalize_total q) as [r Hr]. exists r.
  assert (N : np_linalg_norm r = 1)
    by (apply norm_of_sumsq_one, (normalize_unit q r Hr)).
  split; [exact Hr |]. split; [exact N | apply normalize_unit_norm, N].
Qed.

Lemma normalize_unit_and_idempotent_witness :
  exists r,
    UnionPygame._normalize_quaternion (mkQ 0 0 3 4) = Ok r /\
    np_linalg_norm r = 1 /\
    UnionPygame._normalize_quaternion r = Ok r.
Proof.
  apply (normalize_unit_and_idempotent (mkQ 0 0 3 4)).
  right. apply moderate_norm_between. rewrite norm_3_4. lra.
Defined.




(** X3.  [_quaternion_conjugate] is an involution, keeps the norm, and
    reverses products: [conj (a * b) = conj b * conj a]. *)
Theorem conjugate_laws (a b : Quaternion) :
  UnionPygame._quaternion_conjugate (UnionPygame._quaternion_conjugate a) = a /\
  np_linalg_norm (UnionPygame._quaternion_conjugate a) = np_linalg_norm a /\
  UnionPygame._quaternion_conjugate (UnionPygame._quaternion_multiply a b)
  = UnionPygame._quaternion_multiply (UnionPygame._quaternion_conjugate b)
                                     (UnionPygame._quaternion_conjugate a).
Proof.
  destruct a as [w1 x1 y1 z1], b as [w2 x2 y2 z2].
  unfold UnionPygame._quaternion_conjugate, UnionPygame._quaternion_multiply,
    np_linalg_norm, sumsq.
  simpl. split; [f_equal; ring |]. split; f_equal; ring.
Qed.

(** X4.  [_quaternion_multiply] is associative, has [(1,0,0,0)] as its
    identity on both sides, multiplies norms (so a product of unit
    quaternions is a unit quaternion), and is not commutative. *)
Theorem multiply_laws :
  (forall a b c : Quaternion,
      UnionPygame._quaternion_multiply (UnionPygame._quaternion_multiply a b) c
      = UnionPygame._quaternion_multiply a (UnionPygame._quaternion_multiply b c)) /\
  (forall a : Quaternion,
      UnionPygame._quaternion_multiply (mkQ 1 0 0 0) a = a /\
      UnionPygame._quaternion_multiply a (mkQ 1 0 0 0) = a) /\
  (forall a b : Quaternion,
      np_linalg_norm (UnionPygame._quaternion_multiply a b)
      = np_linalg_norm a * np_linalg_norm b) /\
  (exists a b : Quaternion,
      UnionPygame._quaternion_multiply a b <> UnionPygame._quaternion_multiply b a).
Proof.
  split; [exact multiply_assoc |]. split; [| split].
  - intros [w x y z]. unfold UnionPygame._quaternion_multiply.
    split; f_equal; ring.
  - intros a b. unfold np_linalg_norm. rewrite sumsq_multiply.
    apply sqrt_mult; apply sumsq_nonneg.
  - exists (mkQ 0 1 0 0), (mkQ 0 0 1 0).
    unfold UnionPygame._quaternion_multiply. intros H.
    injection H as _ _ _ H. lra.
Qed.

(** X5.  For unit quaternions, [_calculate_delta_quaternion current previous]
    is the unit quaternion that takes [previous] to [current]: multiplying
    it by [previous] gives [current] back. *)
Theorem delta_takes_previous_to_current (current previous : Quaternion) :
  np_linalg_norm current = 1 ->
  np_linalg_norm previous = 1 ->
  exists delta,
    UnionPygame._calculate_delta_quaternion current previous = Ok delta /\
    np_linalg_norm delta = 1 /\
    UnionPygame._quaternion_multiply delta previous = current.
Proof.
  intros Hc Hp.
  set (d := UnionPygame._quaternion_multiply current
              (UnionPygame._quaternion_conjugate previous)).
  assert (Hd : np_linalg_norm d = 1).
  { apply norm_of_sumsq_one. unfold d. rewrite sumsq_multiply.
    rewrite (sumsq_of_norm_one _ Hc).
    replace (sumsq (UnionPygame._quaternion_conjugate previous)) with (sumsq previous)
      by (destruct previous; unfold sumsq; simpl; ring).
    rewrite (sumsq_of_norm_one _ Hp). ring. }
  exists d. split; [| split; [exact Hd |]].
  - unfold UnionPygame._calculate_delta_quaternion. fold d.
    apply normalize_unit_norm, Hd.
  - unfold d. rewrite multiply_assoc, conjugate_multiply_self.
    rewrite (sumsq_of_norm_one _ Hp), multiply_real_right. apply scale_one.
Qed.

Lemma delta_takes_previous_to_current_witness :
  exists delta,
    UnionPygame._calculate_delta_quaternion (mkQ 0 0 0 1) (mkQ 0 1 0 0) = Ok delta /\
    np_linalg_norm delta = 1 /\
    UnionPygame._quaternion_multiply delta (mkQ 0 1 0 0) = mkQ 0 0 0 1.
Proof.
  apply (delta_takes_previous_to_current (mkQ 0 0 0 1) (mkQ 0 1 0 0)).
  - apply norm_half_turn.
  - apply norm_of_sumsq_one. unfold sumsq. simpl. ring.
Defined.

(* ===================================================================== *)
(** * Euler angles: ranges, the clipped variant, the demo generators *)
(* ===================================================================== *)

Section EulerAngles.

Lemma atan_nonpos (t : R) : t <= 0 -> atan t <= 0.
Proof.
  intros [H | ->].
  - rewrite <- atan_0. left. apply atan_increasing, H.
  - rewrite atan_0. lra.
Qed.

(** [math.atan2] answers in [(-PI, PI]]. *)
Lemma math_atan2_range (y x : R) : - PI < Py.math_atan2 y x <= PI.
Proof.
  pose proof PI_RGT_0 as Hpi. unfold Py.math_atan2.
  destruct (Rlt_dec 0 x) as [Hx | Hx].
  - pose proof (atan_bound (y / x)). lra.
  - destruct (Rlt_dec x 0) as [Hx' | Hx'].
    + assert (Hinv : / x < 0) by (apply Rinv_lt_0_compat, Hx').
      pose proof (atan_bound (y / x)) as Hb.
      destruct (Rle_dec 0 y) as [Hy | Hy].
      * assert (y / x <= 0) by (unfold Rdiv; nra).
        pose proof (atan_nonpos _ H). lra.
      * assert (0 < y / x) by (unfold Rdiv; nra).
        assert (0 < atan (y / x)) by (rewrite <- atan_0; apply atan_increasing; lra).
        lra.
    + destruct (Rlt_dec 0 y); [lra |]. destruct (Rlt_dec y 0); lra.
Qed.

Lemma asin_minus_one : asin (-1) = - (PI / 2).
Proof.
  replace (asin (-1)) with (asin (- (1))) by (f_equal; lra).
  rewrite asin_opp, asin_1. reflexivity.
Qed.

(** What [np.clip(s, -1, 1)] is on the three parts of the line. *)
Lemma np_clip_unit (s : R) :
  (1 <= s -> Py.np_clip s (-1) 1 = 1) /\
  (s <= -1 -> Py.np_clip s (-1) 1 = -1) /\
  (-1 <= s <= 1 -> Py.np_clip s (-1) 1 = s).
Proof.
  unfold Py.np_clip. repeat split; intros H.
  - rewrite Rmax_left by lra. apply Rmin_right. lra.
  - rewrite Rmax_right by lra. apply Rmin_left. lra.
  - rewrite Rmax_left by lra. apply Rmin_left. lra.
Qed.

(** The quadratic forms of [quaternion_to_euler] on a quaternion built from
    half-angle cosines and sines. *)
Lemma half_angle_products (cr sr cp sp cy sy : R) :
  cr * cr + sr * sr = 1 -> cp * cp + sp * sp = 1 -> cy * cy + sy * sy = 1 ->
  let q := half_angle_quaternion cr sr cp sp cy sy in
  2 * (qw q * qx q + qy q * qz q) = (2 * sr * cr) * (cp * cp - sp * sp) /\
  1 - 2 * (qx q * qx q + qy q * qy q) = (cr * cr - sr * sr) * (cp * cp - sp * sp) /\
  2 * (qw q * qy q - qz q * qx q) = 2 * sp * cp /\
  2 * (qw q * qz q + qx q * qy q) = (2 * sy * cy) * (cp * cp - sp * sp) /\
  1 - 2 * (qy q * qy q + qz q * qz q) = (cy * cy - sy * sy) * (cp * cp - sp * sp).
Proof.
  intros Hr Hp Hy q. unfold q, half_angle_quaternion. simpl.
  repeat split; nsatz.
Qed.

Lemma half_angle_unit (cr sr cp sp cy sy : R) :
  cr * cr + sr * sr = 1 -> cp * cp + sp * sp = 1 -> cy * cy + sy * sy = 1 ->
  np_linalg_norm (half_angle_quaternion cr sr cp sp cy sy) = 1.
Proof.
  intros Hr Hp Hy. apply norm_of_sumsq_one.
  unfold sumsq, half_angle_quaternion. simpl. nsatz.
Qed.

Lemma cos_sin_half (a : R) : cos (a / 2) * cos (a / 2) + sin (a / 2) * sin (a / 2) = 1.
Proof. pose proof (sin2_cos2 (a / 2)) as H. unfold Rsqr in H. lra. Qed.

Lemma double_half (a : R) :
  2 * sin (a / 2) * cos (a / 2) = sin a /\
  cos (a / 2) * cos (a / 2) - sin (a / 2) * sin (a / 2) = cos a.
Proof.
  split.
  - rewrite <- sin_2a. f_equal. field.
  - rewrite <- cos_2a. f_equal. field.
Qed.

Lemma atan2_of_angle (a c : R) :
  - (PI / 2) < a < PI / 2 -> 0 < c ->
  Py.math_atan2 (sin a * c) (cos a * c) = a.
Proof.
  intros Ha Hc.
  assert (Hcos : 0 < cos a) by (apply cos_gt_0; lra).
  rewrite math_atan2_pos by nra.
  replace (sin a * c / (cos a * c)) with (tan a) by (unfold tan; field; lra).
  apply atan_tan, Ha.
Qed.

(** The round trip: Euler angles below a right angle, turned into a
    quaternion by the half-angle formula, come back from
    [quaternion_to_euler]. *)
Lemma euler_of_half_angles (r p y : R) :
  - (PI / 2) < r < PI / 2 -> - (PI / 2) < p < PI / 2 -> - (PI / 2) < y < PI / 2 ->
  UnionPygame._quaternion_to_euler
    (half_angle_quaternion (cos (r / 2)) (sin (r / 2)) (cos (p / 2)) (sin (p / 2))
                           (cos (y / 2)) (sin (y / 2)))
  = Ok (r, p, y).
Proof.
  intros Hr Hp Hy.
  destruct (half_angle_products _ _ _ _ _ _ (cos_sin_half r) (cos_sin_half p)
              (cos_sin_half y)) as (E1 & E2 & E3 & E4 & E5).
  destruct (double_half r) as [Sr Cr]. destruct (double_half p) as [Sp Cp].
  destruct (double_half y) as [Sy Cy].
  rewrite Sr, Cp in E1. rewrite Cr, Cp in E2.
  rewrite Sp in E3.
  rewrite Sy, Cp in E4. rewrite Cy, Cp in E5.
  assert (Hcp : 0 < cos p) by (apply cos_gt_0; lra).
  assert (Hsp : Rabs (sin p) < 1).
  { pose proof (sin2_cos2 p) as H. unfold Rsqr in H.
    apply Rabs_def1; nra. }
  unfold UnionPygame._quaternion_to_euler.
  destruct (half_angle_quaternion _ _ _ _ _ _) as [w x y' z] eqn:Q.
  simpl in *. unfold quaternion_to_euler.
  rewrite E1, E2, E3, E4, E5.
  destruct (Rle_dec 1 (Rabs (sin p))) as [H | _]; [lra |].
  rewrite math_asin_ok by lra. rewrite asin_sin by lra. simpl.
  rewrite !atan2_of_angle by assumption. reflexivity.
Qed.

Lemma euler_angle_bounds (w x y z : R) :
  exists roll pitch yaw,
    quaternion_to_euler w x y z = Ok (roll, pitch, yaw) /\
    - PI < roll <= PI /\
    - (PI / 2) <= pitch <= PI / 2 /\
    - PI < yaw <= PI.
Proof.
  pose proof PI_RGT_0 as Hpi.
  unfold quaternion_to_euler.
  destruct (Rle_dec 1 (Rabs (2 * (w * y - z * x)))) as [H | H]; simpl.
  - do 3 eexists. split; [reflexivity |].
    split; [apply math_atan2_range |]. split; [| apply math_atan2_range].
    unfold Py.math_copysign. rewrite Rabs_pos_eq by lra.
    destruct (Rlt_dec _ 0); lra.
  - rewrite math_asin_ok by lra. simpl.
    do 3 eexists. split; [reflexivity |].
    split; [apply math_atan2_range |]. split; [apply asin_bound | apply math_atan2_range].
Qed.

End EulerAngles.

(** X6.  [quaternion_to_euler] returns, for every input, a roll and a yaw in
    [(-PI, PI]] and a pitch in [[-PI/2, PI/2]]. *)
Theorem euler_angle_ranges (w x y z : R) :
  exists roll pitch yaw,
    quaternion_to_euler w x y z = Ok (roll, pitch, yaw) /\
    - PI < roll <= PI /\
    - (PI / 2) <= pitch <= PI / 2 /\
    - PI < yaw <= PI.
Proof. exact (euler_angle_bounds w x y z). Qed.

(** X7.  [quaternion_to_euler_xy] of first_method.py, which clips the sine
    of the pitch to [[-1, 1]] before [arcsin], never fails and reports the
    same roll and pitch as the guarded conversion [quaternion_to_euler],
    each multiplied by the sensitivity. *)
Theorem clipped_pitch_agrees (w x y z sensitivity : R) :
  exists roll pitch yaw,
    quaternion_to_euler w x y z = Ok (roll, pitch, yaw) /\
    FirstMethod.quaternion_to_euler_xy w x y z sensitivity
    = Ok (sensitivity * roll, sensitivity * pitch).
Proof.
  pose proof PI_RGT_0 as Hpi.
  unfold quaternion_to_euler, FirstMethod.quaternion_to_euler_xy, Py.np_arcsin.
  set (sinp := 2 * (w * y - z * x)).
  destruct (np_clip_unit sinp) as (Chi & Clo & Cin).
  destruct (Rle_dec 1 (Rabs sinp)) as [H | H]; simpl.
  - do 3 eexists. split; [reflexivity |].
    unfold Py.math_copysign. rewrite (Rabs_pos_eq (PI / 2)) by lra.
    destruct (Rlt_dec sinp 0) as [Hneg | Hpos].
    + rewrite Rabs_left in H by exact Hneg.
      rewrite Clo by lra. rewrite math_asin_ok by (rewrite Rabs_left; lra).
      rewrite asin_minus_one. reflexivity.
    + rewrite Rabs_pos_eq in H by lra.
      rewrite Chi by lra. rewrite math_asin_ok by (rewrite Rabs_pos_eq; lra).
      rewrite asin_1. reflexivity.
  - assert (Hlt : Rabs sinp < 1) by lra. apply Rabs_def2 in Hlt.
    rewrite Cin by lra. rewrite math_asin_ok by lra. simpl.
    do 3 eexists. split; reflexivity.
Qed.

(** X8.  The two demo generators, [_generate_demo_quaternion] and
    [generate_sample_quaternions], return a unit quaternion at every time
    [t]. *)
Theorem demo_quaternions_are_unit (t : R) :
  np_linalg_norm (UnionPygame._generate_demo_quaternion t) = 1 /\
  np_linalg_norm (ClearVizual.generate_sample_quaternions t) = 1.
Proof.
  split.
  - unfold UnionPygame._generate_demo_quaternion.
    apply half_angle_unit; apply cos_sin_half.
  - unfold ClearVizual.generate_sample_quaternions.
    replace (0.3 * sin (t * 0.5) * 0.5) with (0.3 * sin (t * 0.5) / 2) by lra.
    replace (0.2 * cos (t * 0.7) * 0.5) with (0.2 * cos (t * 0.7) / 2) by lra.
    replace (0.1 * sin (t * 0.3) * 0.5) with (0.1 * sin (t * 0.3) / 2) by lra.
    apply half_angle_unit; apply cos_sin_half.
Qed.

(** X9.  Round trip of the demo generators: the Euler angles that
    [quaternion_to_euler] (and [get_euler_angles], which normalises first)
    extracts from the generated quaternion are exactly the roll, pitch and
    yaw the generator started from, at every time [t]. *)
Theorem demo_round_trip (t : R) :
  UnionPygame._quaternion_to_euler (UnionPygame._generate_demo_quaternion t)
  = Ok (0.1 * sin (t * 1.2), 0.3 * sin (t * 0.5), 0.4 * sin (t * 0.7)) /\
  UnionPygame.get_euler_angles (UnionPygame._generate_demo_quaternion t)
  = Ok (0.1 * sin (t * 1.2), 0.3 * sin (t * 0.5), 0.4 * sin (t * 0.7)) /\
  UnionPygame._quaternion_to_euler (ClearVizual.generate_sample_quaternions t)
  = Ok (0.3 * sin (t * 0.5), 0.2 * cos (t * 0.7), 0.1 * sin (t * 0.3)).
Proof.
  pose proof PI_enclosure as Hpi.
  pose proof (SIN_bound (t * 1.2)). pose proof (SIN_bound (t * 0.5)).
  pose proof (SIN_bound (t * 0.7)). pose proof (SIN_bound (t * 0.3)).
  pose proof (COS_bound (t * 0.7)).
  assert (Hdemo : UnionPygame._quaternion_to_euler
                    (UnionPygame._generate_demo_quaternion t)
                  = Ok (0.1 * sin (t * 1.2), 0.3 * sin (t * 0.5),
                        0.4 * sin (t * 0.7))).
  { unfold UnionPygame._generate_demo_quaternion.
    apply euler_of_half_angles; lra. }
  split; [exact Hdemo |]. split.
  - unfold UnionPygame.get_euler_angles.
    rewrite normalize_unit_norm; [exact Hdemo |].
    unfold UnionPygame._generate_demo_quaternion.
    apply half_angle_unit; apply cos_sin_half.
  - unfold ClearVizual.generate_sample_quaternions.
    replace (0.3 * sin (t * 0.5) * 0.5) with (0.3 * sin (t * 0.5) / 2) by lra.
    replace (0.2 * cos (t * 0.7) * 0.5) with (0.2 * cos (t * 0.7) / 2) by lra.
    replace (0.1 * sin (t * 0.3) * 0.5) with (0.1 * sin (t * 0.3) / 2) by lra.
    apply euler_of_half_angles; lra.
Qed.

(** X10.  [generate_quaternion], for a first draw [u1] in [[0, 1]] (what
    [np.random.rand] gives), never fails and returns a unit quaternion,
    whatever the two other draws are. *)
Theorem generate_quaternion_is_unit (u1 u2 u3 : R) :
  0 <= u1 <= 1 ->
  exists q, generate_quaternion u1 u2 u3 = Ok q /\ np_linalg_norm q = 1.
Proof.
  intros Hu. unfold generate_quaternion, Py.np_sqrt.
  rewrite !math_sqrt_ok by lra. simpl.
  eexists. split; [reflexivity |].
  apply norm_of_sumsq_one. unfold sumsq. simpl.
  pose proof (sqrt_sqrt (1 - u1) ltac:(lra)) as Ha.
  pose proof (sqrt_sqrt u1 ltac:(lra)) as Hb.
  pose proof (sin2_cos2 (2 * PI * u2)) as H2. pose proof (sin2_cos2 (2 * PI * u3)) as H3.
  unfold Rsqr in H2, H3.
  set (a := sqrt (1 - u1)) in *. set (b := sqrt u1) in *.
  set (s2 := sin (2 * PI * u2)) in *. set (c2 := cos (2 * PI * u2)) in *.
  set (s3 := sin (2 * PI * u3)) in *. set (c3 := cos (2 * PI * u3)) in *.
  replace (a * s2 * (a * s2) + a * c2 * (a * c2) + b * s3 * (b * s3) + b * c3 * (b * c3))
    with ((a * a) * (s2 * s2 + c2 * c2) + (b * b) * (s3 * s3 + c3 * c3)) by ring.
  rewrite H2, H3, Ha, Hb. ring.
Qed.

Lemma generate_quaternion_is_unit_witness :
  exists q, generate_quaternion (1 / 4) 0 0 = Ok q /\ np_linalg_norm q = 1.
Proof.
  apply (generate_quaternion_is_unit (1 / 4) 0 0). lra.
Defined.

(* ===================================================================== *)
(** * The rotation matrix and the forward vector *)
(* ===================================================================== *)

(** X11.  For a unit quaternion, [quaternion_to_rotation_matrix] is an
    orthogonal matrix: it keeps the dot product of any two vectors, hence
    lengths and angles. *)
Theorem rotation_matrix_is_orthogonal (w x y z : R) (u v : Comparing.vec3) :
  np_linalg_norm (mkQ w x y z) = 1 ->
  let M := Comparing.quaternion_to_rotation_matrix w x y z in
  Comparing.dot3 (Comparing.matmul_vec M u) (Comparing.matmul_vec M v)
  = Comparing.dot3 u v.
Proof.
  intros Hn M. apply sumsq_of_norm_one in Hn. unfold sumsq in Hn. simpl in Hn.
  destruct u as [[u0 u1] u2], v as [[v0 v1] v2].
  unfold M, Comparing.quaternion_to_rotation_matrix, Comparing.matmul_vec,
    Comparing.dot3.
  nsatz.
Qed.

Lemma rotation_matrix_is_orthogonal_witness :
  let M := Comparing.quaternion_to_rotation_matrix 0 0 0 1 in
  Comparing.dot3 (Comparing.matmul_vec M (1, 2, 3)) (Comparing.matmul_vec M (4, 5, 6))
  = Comparing.dot3 (1, 2, 3) (4, 5, 6).
Proof.
  apply (rotation_matrix_is_orthogonal 0 0 0 1 (1, 2, 3) (4, 5, 6)).
  apply norm_half_turn.
Defined.

(** X12.  The vector that [rotation_matrix_method] projects, [R @ (0,0,1)],
    is the forward vector of second_method.py; for a unit quaternion it has
    length one, so the two coordinates that
    [quaternion_to_forward_vector_xy] returns are at most the sensitivity
    in absolute value. *)
Theorem forward_vector_is_unit (w x y z sensitivity : R) :
  np_linalg_norm (mkQ w x y z) = 1 ->
  Comparing.matmul_vec (Comparing.quaternion_to_rotation_matrix w x y z) (0, 0, 1)
  = SecondMethod.forward_vector w x y z /\
  (let '(fx, fy, fz) := SecondMethod.forward_vector w x y z in
   fx * fx + fy * fy + fz * fz = 1) /\
  (let '(X, Y) := SecondMethod.quaternion_to_forward_vector_xy w x y z sensitivity in
   Rabs X <= Rabs sensitivity /\ Rabs Y <= Rabs sensitivity).
Proof.
  intros Hn. apply sumsq_of_norm_one in Hn. unfold sumsq in Hn. simpl in Hn.
  unfold SecondMethod.quaternion_to_forward_vector_xy, SecondMethod.forward_vector.
  assert (Hlen : (2 * (x * z + w * y)) * (2 * (x * z + w * y)) +
                 (2 * (y * z - w * x)) * (2 * (y * z - w * x)) +
                 (1 - 2 * (x * x + y * y)) * (1 - 2 * (x * x + y * y)) = 1) by nsatz.
  split; [| split; [exact Hlen |]].
  - unfold Comparing.matmul_vec, Comparing.quaternion_to_rotation_matrix,
      Comparing.dot3.
    f_equal; [f_equal |]; ring.
  - assert (Hb : forall f, f * f <= 1 -> Rabs (sensitivity * f) <= Rabs sensitivity).
    { intros f Hf. rewrite Rabs_mult.
      assert (Rabs f <= 1).
      { apply Rabs_le. split; nra. }
      pose proof (Rabs_pos sensitivity). nra. }
    set (fx := 2 * (x * z + w * y)) in *.
    set (fy := 2 * (y * z - w * x)) in *.
    set (fz := 1 - 2 * (x * x + y * y)) in *.
    split; apply Hb; nra.
Qed.

Lemma forward_vector_is_unit_witness :
  let '(X, Y) := SecondMethod.quaternion_to_forward_vector_xy 0 0 0 1 200 in
  Rabs X <= Rabs 200 /\ Rabs Y <= Rabs 200.
Proof.
  apply (proj2 (proj2 (forward_vector_is_unit 0 0 0 1 200 norm_half_turn))).
Defined.

(* ===================================================================== *)
(** * More on the delta tracker *)
(* ===================================================================== *)

Section TrackerMore.

Import UnionPygame.

Lemma raw_position_buffer (self : QuaternionTo2DMotion) (cur prev : Quaternion)
    (buffer : list (R * R)) (xy : R * R) :
  raw_position self cur prev = Ok (buffer, xy) ->
  exists dx dy,
    sample_delta self cur prev = Ok (dx, dy) /\
    buffer = Py.deque_append (smoothing_window self) (delta_buffer self) (dx, dy).
Proof.
  unfold raw_position.
  destruct (sample_delta_total self cur prev) as (dx & dy & ->). simpl.
  destruct (average_delta_total
              (Py.deque_append (smoothing_window self) (delta_buffer self) (dx, dy)))
    as (ax & ay & ->).
  simpl. intros [= <- _]. exists dx, dy. auto.
Qed.

(** The buffer never outgrows its capacity, and the stored reference
    orientation is a unit quaternion. *)
Lemma reachable_buffer_and_reference (self : QuaternionTo2DMotion) :
  reachable self ->
  (length (delta_buffer self) <= smoothing_window self)%nat /\
  (forall p, prev_quaternion self = Some p -> np_linalg_norm p = 1).
Proof.
  intros H. induction H as [w h s n | self q self' out Hr [IHb IHp] Hu
                           | self Hr [IHb IHp] | self s Hr IH].
  - simpl. split; [lia | discriminate].
  - destruct (update_position_inv _ _ _ _ Hu) as (cq & Hq & [[Hp ->] | R]).
    + simpl. split; [exact IHb |].
      intros p [= <-]. apply norm_of_sumsq_one, (normalize_unit q cq Hq).
    + destruct R as (p & b & ax & ay & Hp & Hraw & ->). simpl.
      destruct (raw_position_buffer _ _ _ _ _ Hraw) as (dx & dy & _ & ->).
      split; [apply deque_append_length, IHb |].
      intros p' [= <-]. apply norm_of_sumsq_one, (normalize_unit q cq Hq).
  - simpl. split; [lia | discriminate].
  - exact IH.
Qed.

(** One more zero delta brings a settling buffer one step closer. *)
Lemma settling_step (n : nat) (buffer : list (R * R)) (slack : nat) :
  settling n buffer (S slack) ->
  settling n (Py.deque_append n buffer (0, 0)) slack.
Proof.
  intros (Hlen & old & zeros & -> & Hz & Hs).
  assert (Hlast : Forall (fun d : R * R => d = (0, 0)) [(0, 0)])
    by (constructor; [reflexivity | constructor]).
  assert (L1 : forall l : list (R * R), length (l ++ [(0, 0)]) = S (length l))
    by (intros l; rewrite length_app; simpl; lia).
  rewrite length_app in Hlen, Hs.
  unfold Py.deque_append. destruct n as [| n].
  - split; [rewrite length_app; exact Hlen |].
    destruct old as [| o old]; [| simpl in Hlen; lia].
    exists [], zeros. split; [reflexivity |]. split; [exact Hz |].
    simpl in *. lia.
  - destruct (Nat.ltb_spec (length (old ++ zeros)) (S n)) as [Hlt | Hge];
      rewrite length_app in *.
    + split; [rewrite L1, length_app; lia |].
      exists old, (zeros ++ [(0, 0)]).
      split; [symmetry; apply app_assoc |]. split; [apply Forall_app; auto |].
      rewrite L1, length_app. lia.
    + destruct old as [| o old].
      * assert (Hzl : length zeros = S n) by (simpl in *; lia).
        destruct zeros as [| z0 zeros]; [discriminate |].
        simpl in Hzl. simpl tl.
        split; [rewrite L1; lia |].
        exists [], (zeros ++ [(0, 0)]).
        split; [reflexivity |]. split.
        { apply Forall_app. split; [| exact Hlast]. inversion Hz; assumption. }
        rewrite L1. simpl. lia.
      * simpl tl. simpl length in *.
        split; [rewrite L1, length_app; lia |].
        exists old, (zeros ++ [(0, 0)]).
        split; [symmetry; apply app_assoc |]. split; [apply Forall_app; auto |].
        rewrite L1, length_app. lia.
Qed.

Lemma settling_rest (n : nat) (buffer : list (R * R)) :
  settling n buffer 0 -> zero_deltas buffer.
Proof.
  intros (_ & old & zeros & -> & Hz & Hs).
  destruct old; [exact Hz | simpl in Hs; lia].
Qed.

Lemma settling_zero_stays (n : nat) (buffer : list (R * R)) :
  settling n buffer 0 -> settling n (Py.deque_append n buffer (0, 0)) 0.
Proof.
  intros H. apply settling_step.
  destruct H as (Hlen & old & zeros & E & Hz & Hs).
  split; [exact Hlen |]. exists old, zeros. repeat split; try assumption. lia.
Qed.

Lemma settling_any (n : nat) (buffer : list (R * R)) :
  (length buffer <= n)%nat -> settling n buffer n.
Proof.
  intros H. split; [exact H |]. exists buffer, [].
  split; [symmetry; apply app_nil_r |]. split; [constructor | lia].
Qed.

(** The state a repeated sample leaves: same configuration and reference,
    the buffer one zero delta further, the position clamped. *)
Lemma repeated_sample_step (self : QuaternionTo2DMotion) (q cq : Quaternion) :
  prev_quaternion self = Some cq ->
  _normalize_quaternion q = Ok cq ->
  exists self' out,
    update_position self q = Ok (self', out) /\
    prev_quaternion self' = Some cq /\
    smoothing_window self' = smoothing_window self /\
    screen_width self' = screen_width self /\
    screen_height self' = screen_height self /\
    delta_buffer self' =
    Py.deque_append (smoothing_window self) (delta_buffer self) (0, 0) /\
    (zero_deltas (delta_buffer self) -> on_screen self ->
     screen_x self' = screen_x self /\ screen_y self' = screen_y self) /\
    ((1 <= screen_width self)%Z -> (1 <= screen_height self)%Z -> on_screen self').
Proof.
  intros Hp Hq.
  pose proof (sample_delta_same self q cq Hq) as Hd.
  destruct (raw_position_total self cq cq) as (b & ax & ay & Ha & Hraw).
  destruct (raw_position_buffer _ _ _ _ _ Hraw) as (dx & dy & Hd' & Hb).
  rewrite Hd in Hd'. injection Hd' as <- <-.
  do 2 eexists. split; [apply (update_next self q cq cq _ _ _ Hp Hq Hraw) |].
  simpl. do 4 (split; [reflexivity |]). split; [exact Hb |]. split.
  - intros Hz [Hx Hy].
    assert (Hzb : zero_deltas b) by (rewrite Hb; apply zero_deltas_append, Hz).
    rewrite (zero_deltas_average b Hzb) in Ha. injection Ha as <- <-.
    rewrite !Rplus_0_r. unfold clamp. split; apply max_min_inside; lra.
  - intros Hw Hh. split; apply clamp_range; assumption.
Qed.

End TrackerMore.

Section ComingToRest.

Import UnionPygame.

Variables (q cq : Quaternion).
Hypothesis Hq : _normalize_quaternion q = Ok cq.

(** The part of the state a run of repeated samples preserves. *)
Let steady (self : QuaternionTo2DMotion) (n : nat) (w h : Z) : Prop :=
  prev_quaternion self = Some cq /\
  smoothing_window self = n /\
  screen_width self = w /\ screen_height self = h /\
  on_screen self.

Lemma feed_same_settles (self : QuaternionTo2DMotion) (n : nat) (w h : Z) :
  (1 <= w)%Z -> (1 <= h)%Z ->
  steady self n w h ->
  (length (delta_buffer self) <= n)%nat ->
  forall k, exists self_k out,
    feed_same k self q = Ok (self_k, out) /\
    steady self_k n w h /\
    settling n (delta_buffer self_k) (n - k).
Proof.
  intros Hw Hh Hs Hlen k. induction k as [| k (s & o & Hf & Hst & Hset)].
  - exists self, None. split; [reflexivity |]. split; [exact Hs |].
    rewrite Nat.sub_0_r. apply settling_any, Hlen.
  - destruct Hst as (Hp & Hn & Ew & Eh & Hon).
    destruct (repeated_sample_step s q cq Hp Hq)
      as (s' & o' & Hu & Hp' & Hn' & Ew' & Eh' & Hb & _ & Hon').
    exists s', (Some o').
    split; [simpl; rewrite Hf; simpl; rewrite Hu; reflexivity |].
    split.
    + unfold steady. rewrite Hp', Hn', Ew', Eh', Hn, Ew, Eh.
      repeat split; try reflexivity; apply Hon'; lia.
    + rewrite Hb, Hn. destruct (n - k)%nat as [| m] eqn:E.
      * replace (n - S k)%nat with 0%nat by lia. apply settling_zero_stays, Hset.
      * replace (n - S k)%nat with m by lia. apply settling_step, Hset.
Qed.

Lemma rest_forever (self : QuaternionTo2DMotion) (n : nat) (w h : Z) :
  steady self n w h ->
  zero_deltas (delta_buffer self) ->
  forall j, exists self_j out,
    feed_same j self q = Ok (self_j, out) /\
    steady self_j n w h /\
    zero_deltas (delta_buffer self_j) /\
    screen_x self_j = screen_x self /\ screen_y self_j = screen_y self.
Proof.
  intros Hs Hz j. induction j as [| j (s & o & Hf & Hst & Hzs & Ex & Ey)].
  - exists self, None. repeat split; try assumption; try reflexivity; apply Hs.
  - destruct Hst as (Hp & Hn & Ew & Eh & Hon).
    destruct (repeated_sample_step s q cq Hp Hq)
      as (s' & o' & Hu & Hp' & Hn' & Ew' & Eh' & Hb & Hpos & _).
    destruct (Hpos Hzs Hon) as [Ex' Ey'].
    exists s', (Some o').
    split; [simpl; rewrite Hf; simpl; rewrite Hu; reflexivity |].
    split.
    + unfold steady, on_screen. rewrite Hp', Hn', Ew', Eh', Hn, Ew, Eh, Ex', Ey'.
      repeat split; try reflexivity; destruct Hon as [Hx Hy];
        rewrite ?Ew, ?Eh in *; lra.
    + split; [rewrite Hb; apply zero_deltas_append, Hzs |].
      split; congruence.
Qed.

Lemma feed_same_add (self s_a s_b : QuaternionTo2DMotion) (a b : nat)
    (o o' : option (Z * Z)) :
  feed_same a self q = Ok (s_a, o) ->
  feed_same b s_a q = Ok (s_b, o') ->
  exists o'', feed_same (b + a) self q = Ok (s_b, o'').
Proof.
  intros Ha. revert s_b o'. induction b as [| b IH]; intros s_b o' Hb.
  - simpl in Hb. injection Hb as <- _. exists o. exact Ha.
  - simpl in Hb.
    destruct (feed_same b s_a q) as [[s o1] | e] eqn:E; simpl in Hb; [| discriminate].
    destruct (IH s o1 eq_refl) as [o2 Hab].
    destruct (update_position s q) as [[s' out] | e] eqn:U; simpl in Hb;
      [| discriminate].
    injection Hb as <- _.
    exists (Some out). simpl. rewrite Hab. simpl. rewrite U. reflexivity.
Qed.

End ComingToRest.

(** X13.  In every state a tracker can reach, the delta buffer holds at
    most [smoothing_window] entries, and on a screen of at least 1 x 1 the
    position lies in [[0, width - 1] x [0, height - 1]]. *)
Theorem tracker_invariants (self : UnionPygame.QuaternionTo2DMotion) :
  UnionPygame.reachable self ->
  (length (UnionPygame.delta_buffer self) <= UnionPygame.smoothing_window self)%nat /\
  ((1 <= UnionPygame.screen_width self)%Z ->
   (1 <= UnionPygame.screen_height self)%Z ->
   UnionPygame.on_screen self).
Proof.
  intros H. destruct (reachable_buffer_and_reference self H) as [Hb _].
  split; [exact Hb |]. apply reachable_on_screen, H.
Qed.

Lemma tracker_invariants_witness :
  let st := UnionPygame.set_prev UnionPygame.default (Some (mkQ 1 0 0 0)) in
  (length (UnionPygame.delta_buffer st) <= UnionPygame.smoothing_window st)%nat /\
  UnionPygame.on_screen st.
Proof.
  intros st.
  assert (Hst : UnionPygame.reachable st).
  { apply (UnionPygame.reach_update UnionPygame.default (mkQ 1 0 0 0) st
             (Py.int (UnionPygame.screen_x UnionPygame.default),
              Py.int (UnionPygame.screen_y UnionPygame.default))).
    - apply UnionPygame.reach_init.
    - apply first_sample_identity. reflexivity. }
  destruct (tracker_invariants st Hst) as (A & C).
  split; [exact A |].
  apply C; simpl; lia.
Defined.

(** X14.  A relative rotation about the x axis alone (a roll) gives a zero
    delta: when the current orientation is a unit roll quaternion
    [(w, x, 0, 0)] times the previous unit orientation, [update_position]
    computes [(delta_x, delta_y) = (0, 0)], whatever the sensitivity and the
    dead zone. *)
Theorem roll_gives_zero_delta
    (self : UnionPygame.QuaternionTo2DMotion) (previous : Quaternion) (w x : R) :
  np_linalg_norm previous = 1 ->
  np_linalg_norm (mkQ w x 0 0) = 1 ->
  UnionPygame.sample_delta self
    (UnionPygame._quaternion_multiply (mkQ w x 0 0) previous) previous
  = Ok (0, 0).
Proof.
  intros Hp Hr.
  assert (Hd : UnionPygame._calculate_delta_quaternion
                 (UnionPygame._quaternion_multiply (mkQ w x 0 0) previous) previous
               = Ok (mkQ w x 0 0)).
  { unfold UnionPygame._calculate_delta_quaternion.
    rewrite multiply_assoc, multiply_conjugate, (sumsq_of_norm_one _ Hp).
    rewrite multiply_real_right, scale_one. apply normalize_unit_norm, Hr. }
  unfold UnionPygame.sample_delta. rewrite Hd. simpl.
  unfold quaternion_to_euler.
  replace (2 * (w * 0 - 0 * x)) with 0 by ring.
  replace (2 * (w * 0 + x * 0)) with 0 by ring.
  replace (1 - 2 * (0 * 0 + 0 * 0)) with 1 by ring.
  rewrite Rabs_R0. destruct (Rle_dec 1 0) as [H | _]; [lra |].
  rewrite math_asin_ok by (rewrite Rabs_R0; lra). rewrite asin_0. simpl.
  rewrite math_atan2_0_1.
  destruct (Rlt_dec (Rabs 0) (UnionPygame.deadzone self)); f_equal; f_equal; ring.
Qed.

Lemma roll_gives_zero_delta_witness :
  UnionPygame.sample_delta UnionPygame.default
    (UnionPygame._quaternion_multiply (mkQ 0 1 0 0) (mkQ 0 0 0 1)) (mkQ 0 0 0 1)
  = Ok (0, 0).
Proof.
  apply (roll_gives_zero_delta UnionPygame.default (mkQ 0 0 0 1) 0 1).
  - apply norm_half_turn.
  - apply norm_of_sumsq_one. unfold sumsq. simpl. ring.
Defined.

(** X15.  The pointer comes to rest.  Once a sample has been recorded, a
    reachable tracker on a screen of at least 1 x 1 that keeps receiving
    that same sample has, after [smoothing_window] calls and from then on,
    a buffer of zero deltas and a position that no longer changes. *)
Theorem pointer_comes_to_rest
    (self : UnionPygame.QuaternionTo2DMotion) (q cq : Quaternion) :
  UnionPygame.reachable self ->
  (1 <= UnionPygame.screen_width self)%Z ->
  (1 <= UnionPygame.screen_height self)%Z ->
  UnionPygame.prev_quaternion self = Some cq ->
  UnionPygame._normalize_quaternion q = Ok cq ->
  exists rest_x rest_y,
    forall k, (UnionPygame.smoothing_window self <= k)%nat ->
      exists self_k out,
        UnionPygame.feed_same k self q = Ok (self_k, out) /\
        UnionPygame.zero_deltas (UnionPygame.delta_buffer self_k) /\
        UnionPygame.screen_x self_k = rest_x /\
        UnionPygame.screen_y self_k = rest_y.
Proof.
  intros Hreach Hw Hh Hp Hq.
  destruct (reachable_buffer_and_reference self Hreach) as [Hlen _].
  pose proof (reachable_on_screen self Hreach Hw Hh) as Hon.
  set (n := UnionPygame.smoothing_window self) in *.
  destruct (feed_same_settles q cq Hq self n _ _ Hw Hh
              (conj Hp (conj eq_refl (conj eq_refl (conj eq_refl Hon)))) Hlen n)
    as (s_n & o_n & Hfn & Hst & Hset).
  rewrite Nat.sub_diag in Hset. apply settling_rest in Hset.
  exists (UnionPygame.screen_x s_n), (UnionPygame.screen_y s_n).
  intros k Hk.
  destruct (rest_forever q cq Hq s_n n _ _ Hst Hset (k - n))
    as (s_k & o_k & Hfk & _ & Hz & Ex & Ey).
  destruct (feed_same_add q self s_n s_k n (k - n) o_n o_k) as [o Hf].
  - exact Hfn.
  - exact Hfk.
  - replace (k - n + n)%nat with k in Hf by lia.
    exists s_k, o. auto.
Qed.

Lemma pointer_comes_to_rest_witness :
  let st := UnionPygame.set_prev UnionPygame.default (Some (mkQ 1 0 0 0)) in
  exists rest_x rest_y,
    forall k, (UnionPygame.smoothing_window st <= k)%nat ->
      exists self_k out,
        UnionPygame.feed_same k st (mkQ 1 0 0 0) = Ok (self_k, out) /\
        UnionPygame.zero_deltas (UnionPygame.delta_buffer self_k) /\
        UnionPygame.screen_x self_k = rest_x /\
        UnionPygame.screen_y self_k = rest_y.
Proof.
  intros st.
  apply (pointer_comes_to_rest st (mkQ 1 0 0 0) (mkQ 1 0 0 0)).
  - apply (UnionPygame.reach_update UnionPygame.default (mkQ 1 0 0 0) st
             (Py.int (UnionPygame.screen_x UnionPygame.default),
              Py.int (UnionPygame.screen_y UnionPygame.default))).
    + apply UnionPygame.reach_init.
    + apply first_sample_identity. reflexivity.
  - simpl. lia.
  - simpl. lia.
  - reflexivity.
  - apply normalize_identity.
Defined.

(* ===================================================================== *)
(** * More on the absolute mappings *)
(* ===================================================================== *)

Section Construction.

Lemma radians_zero (d : R) : 2 * Py.math_radians d = 0 <-> d = 0.
Proof.
  unfold Py.math_radians. pose proof PI_RGT_0 as Hpi. split; intros H.
  - assert (Hk : PI / 180 <> 0) by lra.
    destruct (Rmult_integral _ _ H) as [H2 | H2]; [lra |].
    destruct (Rmult_integral _ _ H2) as [H3 | H3]; [exact H3 | contradiction].
  - subst d. ring.
Qed.


End Construction.

(** X16.  The constructors of [QuaternionToScreen] and
    [ImprovedQuaternionConverter] raise [ZeroDivisionError] when
    [max_tilt_degrees] is zero.  When its absolute value lies between
    [10^-100] and [10^100], and the screen sizes are at most [10^100] in
    absolute value, they succeed, and a full tilt then spans half the
    screen: [max_tilt_radians * sensitivity_x] is [screen_width / 2], and
    likewise for the height; the stored previous point is the centre. *)
Theorem init_zero_tilt_raises (width height degrees : R) :
  (degrees = 0 ->
   Euler.__init__ width height degrees = Raise Py.ZeroDivisionError /\
   Comparing.__init__ width height degrees = Raise Py.ZeroDivisionError) /\
  (/ 10 ^ 100 <= Rabs degrees <= 10 ^ 100 ->
   Rabs width <= 10 ^ 100 -> Rabs height <= 10 ^ 100 ->
   exists e c,
     Euler.__init__ width height degrees = Ok e /\
     Comparing.__init__ width height degrees = Ok c /\
     Euler.max_tilt_radians e * Euler.sensitivity_x e = width / 2 /\
     Euler.max_tilt_radians e * Euler.sensitivity_y e = height / 2 /\
     Comparing.max_tilt_radians c * Comparing.sensitivity_x c = width / 2 /\
     Comparing.max_tilt_radians c * Comparing.sensitivity_y c = height / 2 /\
     (Euler.prev_x e, Euler.prev_y e) = (width / 2, height / 2) /\
     (Comparing.prev_x c, Comparing.prev_y c) = (width / 2, height / 2)).
Proof.
  split.
  - intros Hd.
    assert (Hz : 2 * Py.math_radians degrees = 0) by (apply radians_zero, Hd).
    unfold Euler.__init__, Comparing.__init__, Py.truediv. rewrite Hz.
    destruct (Req_dec_T 0 0) as [_ | N]; [| contradiction]. split; reflexivity.
  - intros [Hlo _] _ _.
    assert (Hpos : 0 < / 10 ^ 100)
      by (apply Rinv_0_lt_compat, pow_lt; lra).
    assert (Hd : degrees <> 0)
      by (intros E; rewrite E, Rabs_R0 in Hlo; lra).
    assert (Hz : 2 * Py.math_radians degrees <> 0)
      by (intros E; apply Hd, radians_zero, E).
    unfold Euler.__init__, Comparing.__init__.
    rewrite !truediv_ok by exact Hz. simpl.
    do 2 eexists. split; [reflexivity |]. split; [reflexivity |]. simpl.
    repeat split; field; lra.
Qed.

Lemma init_zero_tilt_raises_witness :
  Euler.__init__ 800 600 0 = Raise Py.ZeroDivisionError /\
  exists e, Euler.__init__ 800 600 45 = Ok e /\
            Euler.max_tilt_radians e * Euler.sensitivity_x e = 800 / 2.
Proof.
  split.
  - apply (proj1 (init_zero_tilt_raises 800 600 0)). reflexivity.
  - destruct (proj2 (init_zero_tilt_raises 800 600 45)) as (e & c & H).
    + apply float_range_between. rewrite Rabs_pos_eq by lra. lra.
    + apply (float_range_between (Rabs 800)). rewrite Rabs_pos_eq by lra. lra.
    + apply (float_range_between (Rabs 600)). rewrite Rabs_pos_eq by lra. lra.
    + exists e. split; [apply H | apply H].
Defined.



Section Smoothing.

Import Euler.

Lemma set_prev_same (self : QuaternionToScreen) :
  set_prev self (prev_x self) (prev_y self) = self.
Proof. destruct self. reflexivity. Qed.

(** One smoothed call on an object that differs from [self] in its stored
    point only: the new stored point is the blend of the target and the old
    one, and that blend, clamped, is returned. *)
Lemma smoothed_call (self : QuaternionToScreen) (w x y z roll pitch yaw : R)
    (tx ty px py : R) :
  quaternion_to_euler w x y z = Ok (roll, pitch, yaw) ->
  dead_zone_snap self (fst (tilt_to_screen self roll pitch))
                      (snd (tilt_to_screen self roll pitch)) = Ok (tx, ty) ->
  let nx := alpha self * tx + (1 - alpha self) * px in
  let ny := alpha self * ty + (1 - alpha self) * py in
  quaternion_to_screen_coords (set_prev self px py) w x y z true =
  Ok (set_prev self nx ny, clamp_to_screen self nx ny).
Proof.
  intros He Hd nx ny.
  unfold quaternion_to_screen_coords, pre_clamp. rewrite He. simpl.
  unfold tilt_to_screen, dead_zone_snap in *. simpl in *. rewrite Hd. reflexivity.
Qed.

End Smoothing.

(** X18.  The exponential filter of [quaternion_to_screen_coords].  When
    the same orientation is shown [n] times with smoothing on, the stored
    point is [target + (1 - alpha)^n * (start - target)], where [target] is
    the point the dead zone lets through and [start] the point stored
    before the first call; every call returns the stored point clamped to
    the screen. *)
Theorem smoothing_closes_the_gap (self : Euler.QuaternionToScreen) (w x y z : R) :
  exists tx ty,
    Euler.pre_clamp self w x y z false = Ok (self, (tx, ty)) /\
    forall n, exists self_n out,
      Euler.animate_same n self w x y z = Ok (self_n, out) /\
      Euler.prev_x self_n = tx + (1 - Euler.alpha self) ^ n * (Euler.prev_x self - tx) /\
      Euler.prev_y self_n = ty + (1 - Euler.alpha self) ^ n * (Euler.prev_y self - ty) /\
      ((0 < n)%nat ->
       out = Some (Euler.clamp_to_screen self (Euler.prev_x self_n)
                                              (Euler.prev_y self_n))).
Proof.
  destruct (quaternion_to_euler_total w x y z) as (roll & pitch & yaw & He).
  destruct (eul_dead_zone_total self (fst (Euler.tilt_to_screen self roll pitch))
                                     (snd (Euler.tilt_to_screen self roll pitch)))
    as [[tx ty] Hd].
  exists tx, ty.
  split; [apply (eul_coords_no_smoothing self w x y z roll pitch yaw _ He Hd) |].
  intros n.
  assert (G : exists px py out,
             Euler.animate_same n self w x y z = Ok (Euler.set_prev self px py, out) /\
             px = tx + (1 - Euler.alpha self) ^ n * (Euler.prev_x self - tx) /\
             py = ty + (1 - Euler.alpha self) ^ n * (Euler.prev_y self - ty) /\
             ((0 < n)%nat -> out = Some (Euler.clamp_to_screen self px py))).
  { induction n as [| n (px & py & out & Hf & Ex & Ey & _)].
    - exists (Euler.prev_x self), (Euler.prev_y self), None.
      split; [simpl; rewrite set_prev_same; reflexivity |].
      split; [simpl; ring |]. split; [simpl; ring | lia].
    - do 3 eexists.
      split.
      + simpl. rewrite Hf. simpl.
        rewrite (smoothed_call self w x y z roll pitch yaw tx ty px py He Hd).
        reflexivity.
      + split; [rewrite Ex; simpl; ring |].
        split; [rewrite Ey; simpl; ring | reflexivity]. }
  destruct G as (px & py & out & Hf & Ex & Ey & Ho).
  exists (Euler.set_prev self px py), out. simpl. auto.
Qed.

(** X19.  [compare_methods], on a screen whose sizes are not negative,
    returns the five entries Euler, Direct, Rotation Matrix, Spherical and
    Hybrid in that order, each a point of [[0, width] x [0, height]], and
    leaves the smoothing state of the converter untouched. *)
Theorem compare_methods_entries
    (self : Comparing.ImprovedQuaternionConverter) (w x y z : R) :
  0 <= Comparing.screen_width self -> 0 <= Comparing.screen_height self ->
  exists results,
    Comparing.compare_methods self w x y z = Ok (self, results) /\
    map fst results =
    ["Euler"; "Direct"; "Rotation Matrix"; "Spherical"; "Hybrid"]%string /\
    Forall (fun p : R * R =>
              0 <= fst p <= Comparing.screen_width self /\
              0 <= snd p <= Comparing.screen_height self)
           (map snd results).
Proof.
  intros Hw Hh.
  assert (Hrun : forall m, exists p,
             Comparing.run m self w x y z false = Ok (self, p) /\
             0 <= fst p <= Comparing.screen_width self /\
             0 <= snd p <= Comparing.screen_height self).
  { intros m. destruct (run_shape self m w x y z false) as (rx & ry & ->).
    destruct (cmp_post_no_smoothing self rx ry) as (px & py & _ & ->).
    eexists. split; [reflexivity |].
    unfold Comparing.clamp_to_screen. simpl.
    split; apply max_min_range; assumption. }
  destruct (Hrun Comparing.Euler_) as (p1 & R1 & B1).
  destruct (Hrun Comparing.Direct) as (p2 & R2 & B2).
  destruct (Hrun Comparing.RotationMatrix) as (p3 & R3 & B3).
  destruct (Hrun Comparing.Spherical) as (p4 & R4 & B4).
  destruct (Hrun Comparing.Hybrid) as (p5 & R5 & B5).
  eexists. split.
  - unfold Comparing.compare_methods, Comparing.methods.
    cbn [Comparing.compare_loop].
    rewrite R1. cbn [Py.bind]. rewrite R2. cbn [Py.bind]. rewrite R3. cbn [Py.bind].
    rewrite R4. cbn [Py.bind]. rewrite R5. cbn [Py.bind]. reflexivity.
  - split; [reflexivity |]. simpl.
    repeat (apply Forall_cons; [tauto |]). apply Forall_nil.
Qed.

Lemma compare_methods_entries_witness :
  exists results,
    Comparing.compare_methods Comparing.default 1 0 0 0 = Ok (Comparing.default, results) /\
    map fst results =
    ["Euler"; "Direct"; "Rotation Matrix"; "Spherical"; "Hybrid"]%string /\
    Forall (fun p : R * R =>
              0 <= fst p <= Comparing.screen_width Comparing.default /\
              0 <= snd p <= Comparing.screen_height Comparing.default)
           (map snd results).
Proof.
  apply (compare_methods_entries Comparing.default 1 0 0 0); simpl; lra.
Defined.


(* ===================================================================== *)
(** * The loader of orientation logs *)
(* ===================================================================== *)

Section Splitting.

Import String.

Lemma split_nonempty (sep : Ascii.ascii) (s : string) : Py.split sep s <> [].
Proof.
  destruct s as [| c s]; simpl; [discriminate |].
  destruct (Ascii.eqb c sep); [discriminate |].
  destruct (Py.split sep s); discriminate.
Qed.

(** Splitting a text that has no separator gives the text itself. *)
Lemma split_without (sep : Ascii.ascii) (s : string) :
  Py.contains sep s = false -> Py.split sep s = [s].
Proof.
  induction s as [| c s IH]; simpl; intros H; [reflexivity |].
  apply orb_false_iff in H. destruct H as [Hc Hs].
  rewrite Hc, (IH Hs). reflexivity.
Qed.

(** Splitting [s ++ sep ++ t] gives the pieces of [s] followed by the pieces
    of [t]. *)
Lemma split_append (sep : Ascii.ascii) (s t : string) :
  Py.split sep (append s (String sep t)) = Py.split sep s ++ Py.split sep t.
Proof.
  induction s as [| c s IH]; simpl.
  - rewrite Ascii.eqb_refl. reflexivity.
  - destruct (Ascii.eqb c sep); [rewrite IH; reflexivity |].
    rewrite IH. pose proof (split_nonempty sep s) as Hn.
    destruct (Py.split sep s); [contradiction | reflexivity].
Qed.

Lemma contains_append (c : Ascii.ascii) (s t : string) :
  Py.contains c (append s t) = Py.contains c s || Py.contains c t.
Proof.
  induction s as [| c' s IH]; simpl; [reflexivity |].
  rewrite IH. apply orb_assoc.
Qed.

Lemma contains_labelled (c : Ascii.ascii) (l v : string) :
  Py.contains c l = false -> Py.contains c v = false ->
  Ascii.eqb ":"%char c = false ->
  Py.contains c (Py.labelled l v) = false.
Proof.
  intros Hl Hv Hc. unfold Py.labelled. rewrite contains_append.
  change (Py.contains c (String ":"%char v))
    with (Ascii.eqb ":"%char c || Py.contains c v).
  rewrite Hl, Hv, Hc. reflexivity.
Qed.

End Splitting.

Section LoaderFacts.

Variable float : String.string -> option R.

Import Euler.

(** A field [label:value] whose label and value hold no colon is read as
    [float(value.strip())]. *)
Lemma field_of_labelled (parts : list String.string) (i : nat)
    (l v : String.string) :
  nth_error parts i = Some (Py.labelled l v) ->
  Py.contains ":"%char l = false -> Py.contains ":"%char v = false ->
  field float parts i = float (Py.strip v).
Proof.
  intros Hn Hl Hv. unfold field. rewrite Hn.
  unfold Py.labelled. rewrite split_append.
  rewrite (split_without _ l Hl), (split_without _ v Hv). reflexivity.
Qed.

(** A field only depends on the part it reads. *)
Lemma field_prefix (parts more : list String.string) (i : nat) :
  (i < length parts)%nat -> field float (parts ++ more) i = field float parts i.
Proof.
  intros H. unfold field. rewrite nth_error_app1 by exact H. reflexivity.
Qed.

Lemma field_missing (parts : list String.string) (i : nat) :
  (length parts <= i)%nat -> field float parts i = None.
Proof.
  intros H. unfold field.
  rewrite (proj2 (nth_error_None parts i) H). reflexivity.
Qed.

End LoaderFacts.

(** X21.  A line of the documented form [l1:v1,l2:v2,l3:v3,l4:v4] (no comma
    and no colon inside labels and values) is read as the four numbers
    [float(v.strip())]; the labels are not looked at, and the line is
    skipped as soon as one of the four texts is not a number. *)
Theorem well_formed_line_parses
    (float : String.string -> option R)
    (l1 v1 l2 v2 l3 v3 l4 v4 : String.string) :
  let clean := fun s => Py.contains ","%char s = false /\
                        Py.contains ":"%char s = false in
  clean l1 -> clean v1 -> clean l2 -> clean v2 ->
  clean l3 -> clean v3 -> clean l4 -> clean v4 ->
  let line := Py.comma (Py.labelled l1 v1)
                (Py.comma (Py.labelled l2 v2)
                   (Py.comma (Py.labelled l3 v3) (Py.labelled l4 v4))) in
  Euler.parse_line float line =
  match float (Py.strip v1), float (Py.strip v2),
        float (Py.strip v3), float (Py.strip v4) with
  | Some w, Some x, Some y, Some z => Some (mkQ w x y z)
  | _, _, _, _ => None
  end.
Proof.
  intros clean [C1 K1] [C2 K2] [C3 K3] [C4 K4] [C5 K5] [C6 K6] [C7 K7] [C8 K8] line.
  assert (Hparts : Py.split ","%char line =
                   [Py.labelled l1 v1; Py.labelled l2 v2;
                    Py.labelled l3 v3; Py.labelled l4 v4]).
  { unfold line, Py.comma. rewrite !split_append.
    rewrite !split_without by (apply contains_labelled; auto). reflexivity. }
  unfold Euler.parse_line. fold line. rewrite Hparts.
  set (parts := [Py.labelled l1 v1; Py.labelled l2 v2;
                 Py.labelled l3 v3; Py.labelled l4 v4]).
  rewrite (field_of_labelled float parts 0 l1 v1 eq_refl K1 K2).
  rewrite (field_of_labelled float parts 1 l2 v2 eq_refl K3 K4).
  rewrite (field_of_labelled float parts 2 l3 v3 eq_refl K5 K6).
  rewrite (field_of_labelled float parts 3 l4 v4 eq_refl K7 K8).
  destruct (float (Py.strip v1)); [| reflexivity].
  destruct (float (Py.strip v2)); [| reflexivity].
  destruct (float (Py.strip v3)); [| reflexivity].
  destruct (float (Py.strip v4)); reflexivity.
Qed.

Lemma well_formed_line_parses_witness :
  let float := fun s : String.string =>
                 if String.eqb s "1"%string then Some 1
                 else if String.eqb s "0"%string then Some 0 else None in
  Euler.parse_line float "w: 1, x: 0, y: 0, z: 0"%string = Some (mkQ 1 0 0 0).
Proof.
  intros float.
  apply (well_formed_line_parses float "w"%string " 1"%string " x"%string
           " 0"%string " y"%string " 0"%string " z"%string " 0"%string);
    split; reflexivity.
Defined.

(** X22.  Fields after the fourth are ignored: when a line already has at
    least four comma-separated fields, appending a comma and any further
    text does not change what is read from it. *)
Theorem extra_fields_are_ignored
    (float : String.string -> option R) (line extra : String.string) :
  (4 <= length (Py.split ","%char line))%nat ->
  Euler.parse_line float (Py.comma line extra) = Euler.parse_line float line.
Proof.
  intros H. unfold Euler.parse_line, Py.comma. rewrite split_append.
  rewrite !field_prefix by lia. reflexivity.
Qed.

Lemma extra_fields_are_ignored_witness :
  let float := fun s : String.string =>
                 if String.eqb s "1"%string then Some 1
                 else if String.eqb s "0"%string then Some 0 else None in
  Euler.parse_line float "w: 1, x: 0, y: 0, z: 0,t: 9"%string
  = Euler.parse_line float "w: 1, x: 0, y: 0, z: 0"%string.
Proof.
  intros float.
  apply (extra_fields_are_ignored float "w: 1, x: 0, y: 0, z: 0"%string
           "t: 9"%string).
  simpl. lia.
Defined.

(** X23.  On a file of ASCII text, [load_quaternions_from_file] drops
    blank lines silently and settles every other line exactly once: it is
    either read into the result or reported as malformed, in its stripped
    form; a line with fewer than four comma-separated fields is always
    reported. *)
Theorem loader_accounts_for_every_line
    (float : String.string -> option R) (lines : list String.string) :
  Forall (fun l => Py.isascii l = true) lines ->
  let nonblank := fun l => negb (String.eqb (Py.strip l) String.EmptyString) in
  let quaternions := fst (Euler.load_quaternions_from_file float lines) in
  let skipped := snd (Euler.load_quaternions_from_file float lines) in
  (length quaternions + length skipped = length (filter nonblank lines))%nat /\
  skipped = filter (fun l => match Euler.parse_line float l with
                             | Some _ => false
                             | None => true
                             end)
                   (map Py.strip (filter nonblank lines)) /\
  (forall l, In l skipped -> l <> String.EmptyString) /\
  (forall l, In l lines -> nonblank l = true ->
             (length (Py.split ","%char (Py.strip l)) < 4)%nat ->
             In (Py.strip l) skipped).
Proof.
  intros _ nonblank. cbv zeta.
  induction lines as [| line rest IH].
  - simpl. repeat split; try reflexivity; intros l [].
  - destruct IH as (Hlen & Hsk & Hne & Hshort).
    cbn [Euler.load_quaternions_from_file filter In].
    destruct (Euler.load_quaternions_from_file float rest) as [qs sk].
    cbn [fst snd] in *.
    assert (Hnb : nonblank line
                  = negb (String.eqb (Py.strip line) String.EmptyString))
      by reflexivity.
    rewrite Hnb. clear Hnb.
    destruct (String.eqb_spec (Py.strip line) String.EmptyString) as [E | E];
      cbn [negb].
    + cbn [fst snd]. split; [exact Hlen |]. split; [exact Hsk |].
      split; [exact Hne |].
      intros l [<- | Hin] Hnb Hl; [| apply Hshort; assumption].
      unfold nonblank in Hnb. rewrite E in Hnb. discriminate.
    + destruct (Euler.parse_line float (Py.strip line)) as [q |] eqn:P;
        cbn [fst snd length map filter]; rewrite P.
      * split; [lia |]. split; [exact Hsk |]. split; [exact Hne |].
        intros l [<- | Hin] Hnb Hl; [| apply Hshort; assumption].
        exfalso. unfold Euler.parse_line in P.
        rewrite (field_missing float _ 3) in P by lia.
        destruct (Euler.field float _ 0); [| discriminate].
        destruct (Euler.field float _ 1); [| discriminate].
        destruct (Euler.field float _ 2); discriminate.
      * split; [lia |]. split; [f_equal; exact Hsk |].
        split.
        { intros l [<- | Hin]; [exact E | apply Hne, Hin]. }
        intros l [<- | Hin] Hnb Hl; [left; reflexivity |].
        right. apply Hshort; assumption.
Qed.

(** A file of three lines: one well formed, one blank, one too short. *)
Lemma loader_accounts_for_every_line_witness :
  let float := fun s : String.string =>
                 if String.eqb s "1"%string then Some 1
                 else if String.eqb s "0"%string then Some 0 else None in
  let lines := ["  w: 1, x: 0, y: 0, z: 0 "; "   "; "w: 1, x: 0"]%string in
  let nonblank := fun l => negb (String.eqb (Py.strip l) String.EmptyString) in
  let quaternions := fst (Euler.load_quaternions_from_file float lines) in
  let skipped := snd (Euler.load_quaternions_from_file float lines) in
  (length quaternions + length skipped = length (filter nonblank lines))%nat /\
  skipped = filter (fun l => match Euler.parse_line float l with
                             | Some _ => false
                             | None => true
                             end)
                   (map Py.strip (filter nonblank lines)) /\
  (forall l, In l skipped -> l <> String.EmptyString) /\
  (forall l, In l lines -> nonblank l = true ->
             (length (Py.split ","%char (Py.strip l)) < 4)%nat ->
             In (Py.strip l) skipped).
Proof.
  intros float lines.
  apply (loader_accounts_for_every_line float lines).
  repeat (apply Forall_cons; [reflexivity |]). apply Forall_nil.
Defined.

(* ===================================================================== *)
(** * The tracker: the start of the moving average *)
(* ===================================================================== *)

Section BufferSums.

Import UnionPygame.

Lemma sum_from (A : Type) (f : A -> R) (l : list A) (acc : R) :
  fold_left (fun a d => a + f d) l acc = acc + Py.sum f l.
Proof.
  unfold Py.sum. revert acc. induction l as [| d l IH]; intros acc; simpl.
  - ring.
  - rewrite IH, (IH (0 + f d)). ring.
Qed.

Lemma sum_single_then_zeros (dx dy : R) (j : nat) :
  Py.sum fst ((dx, dy) :: repeat (0, 0) j) = dx /\
  Py.sum snd ((dx, dy) :: repeat (0, 0) j) = dy.
Proof.
  assert (Hz : zero_deltas (repeat (0, 0) j)).
  { unfold zero_deltas. apply Forall_forall. intros d Hd.
    apply repeat_spec in Hd. exact Hd. }
  destruct (zero_deltas_sum _ Hz) as [Zx Zy].
  split.
  - unfold Py.sum at 1. cbn [fold_left]. rewrite sum_from, Zx. simpl. ring.
  - unfold Py.sum at 1. cbn [fold_left]. rewrite sum_from, Zy. simpl. ring.
Qed.

End BufferSums.

Section StartOfAverage.

Import UnionPygame.

(** One sample that appends [(dx, dy)] to a buffer [(bx, by) :: zeros] that
    still has room, with the clamp inactive. *)
Lemma growing_step (self : QuaternionTo2DMotion) (q cq p : Quaternion)
    (dx dy : R) (buffer : list (R * R)) (x y : R) :
  prev_quaternion self = Some p ->
  _normalize_quaternion q = Ok cq ->
  sample_delta self cq p = Ok (dx, dy) ->
  (length (delta_buffer self) < smoothing_window self)%nat ->
  buffer = delta_buffer self ++ [(dx, dy)] ->
  x = screen_x self + Py.sum fst buffer / INR (length buffer) ->
  y = screen_y self + Py.sum snd buffer / INR (length buffer) ->
  0 <= x <= IZR (screen_width self) - 1 ->
  0 <= y <= IZR (screen_height self) - 1 ->
  update_position self q =
  Ok (set_prev (set_motion self buffer x y) (Some cq), (Py.int x, Py.int y)).
Proof.
  intros Hp Hq Hd Hlen -> -> -> Hx Hy.
  pose proof (raw_position_grow self cq p dx dy Hd Hlen) as Hraw. simpl in Hraw.
  rewrite (update_next self q cq p _ _ _ Hp Hq Hraw).
  unfold clamp. rewrite !max_min_inside by lra. reflexivity.
Qed.

Lemma startup_run (self : QuaternionTo2DMotion) (q cq p : Quaternion) (dx dy : R) :
  prev_quaternion self = Some p ->
  delta_buffer self = [] ->
  _normalize_quaternion q = Ok cq ->
  sample_delta self cq p = Ok (dx, dy) ->
  forall j,
    (S j <= smoothing_window self)%nat ->
    (forall i, (1 <= i <= S j)%nat ->
       0 <= screen_x self + dx * harmonic i <= IZR (screen_width self) - 1 /\
       0 <= screen_y self + dy * harmonic i <= IZR (screen_height self) - 1) ->
    exists out,
      feed_same (S j) self q =
      Ok (set_prev (set_motion self ((dx, dy) :: repeat (0, 0) j)
                      (screen_x self + dx * harmonic (S j))
                      (screen_y self + dy * harmonic (S j)))
                   (Some cq), out).
Proof.
  intros Hp Hb Hq Hd j. induction j as [| j IH]; intros Hn Hin.
  - destruct (Hin 1%nat ltac:(lia)) as [Hx Hy].
    eexists. cbn [feed_same Py.bind].
    rewrite (growing_step self q cq p dx dy [(dx, dy)]
               (screen_x self + dx * harmonic 1) (screen_y self + dy * harmonic 1)
               Hp Hq Hd); try assumption.
    + reflexivity.
    + rewrite Hb. simpl. lia.
    + rewrite Hb. reflexivity.
    + destruct (sum_single_then_zeros dx dy 0) as [Sx _]. cbn [repeat] in Sx.
      rewrite Sx. simpl. field.
    + destruct (sum_single_then_zeros dx dy 0) as [_ Sy]. cbn [repeat] in Sy.
      rewrite Sy. simpl. field.
  - destruct IH as [out IH]; [lia | intros i Hi; apply Hin; lia |].
    destruct (Hin (S (S j)) ltac:(lia)) as [Hx Hy].
    set (st := set_prev (set_motion self ((dx, dy) :: repeat (0, 0) j)
                           (screen_x self + dx * harmonic (S j))
                           (screen_y self + dy * harmonic (S j))) (Some cq)) in IH.
    assert (HS : INR (S (S j)) <> 0) by (apply not_0_INR; lia).
    eexists.
    change (feed_same (S (S j)) self q)
      with ('(s, _) <- feed_same (S j) self q ;;
            '(s, o) <- update_position s q ;;
            Ok (s, Some o)).
    rewrite IH. cbn [Py.bind].
    rewrite (growing_step st q cq cq 0 0 ((dx, dy) :: repeat (0, 0) (S j))
               (screen_x self + dx * harmonic (S (S j)))
               (screen_y self + dy * harmonic (S (S j)))).
    + reflexivity.
    + reflexivity.
    + exact Hq.
    + apply sample_delta_same with q. exact Hq.
    + simpl. rewrite repeat_length. lia.
    + simpl. f_equal. apply repeat_cons.
    + destruct (sum_single_then_zeros dx dy (S j)) as [-> _].
      cbn [length]. rewrite repeat_length.
      change (screen_x st) with (screen_x self + dx * harmonic (S j)).
      change (harmonic (S (S j))) with (harmonic (S j) + / INR (S (S j))).
      field. exact HS.
    + destruct (sum_single_then_zeros dx dy (S j)) as [_ ->].
      cbn [length]. rewrite repeat_length.
      change (screen_y st) with (screen_y self + dy * harmonic (S j)).
      change (harmonic (S (S j))) with (harmonic (S j) + / INR (S (S j))).
      field. exact HS.
    + exact Hx.
    + exact Hy.
Qed.

End StartOfAverage.

(** X25.  The moving average over-counts at the start.  On an empty buffer,
    a sample with delta [(dx, dy)] followed by repeats of itself moves the
    position, after [k <= smoothing_window] calls and as long as the clamp
    stays inactive, by [(dx, dy)] times the harmonic number
    [1 + 1/2 + ... + 1/k], not by [(dx, dy)]: the delta is averaged over the
    one, two, ... entries buffered so far. *)
Theorem startup_moves_by_harmonic
    (self : UnionPygame.QuaternionTo2DMotion) (q cq p : Quaternion)
    (dx dy : R) (k : nat) :
  UnionPygame.prev_quaternion self = Some p ->
  UnionPygame.delta_buffer self = [] ->
  UnionPygame._normalize_quaternion q = Ok cq ->
  UnionPygame.sample_delta self cq p = Ok (dx, dy) ->
  (1 <= k <= UnionPygame.smoothing_window self)%nat ->
  (forall i, (1 <= i <= k)%nat ->
     0 <= UnionPygame.screen_x self + dx * UnionPygame.harmonic i
       <= IZR (UnionPygame.screen_width self) - 1 /\
     0 <= UnionPygame.screen_y self + dy * UnionPygame.harmonic i
       <= IZR (UnionPygame.screen_height self) - 1) ->
  exists self_k out,
    UnionPygame.feed_same k self q = Ok (self_k, out) /\
    UnionPygame.screen_x self_k
    = UnionPygame.screen_x self + dx * UnionPygame.harmonic k /\
    UnionPygame.screen_y self_k
    = UnionPygame.screen_y self + dy * UnionPygame.harmonic k /\
    UnionPygame.delta_buffer self_k = (dx, dy) :: repeat (0, 0) (k - 1).
Proof.
  intros Hp Hb Hq Hd Hk Hin.
  destruct k as [| j]; [lia |].
  destruct (startup_run self q cq p dx dy Hp Hb Hq Hd j) as [out Hf].
  - lia.
  - exact Hin.
  - do 2 eexists. split; [exact Hf |]. simpl.
    rewrite Nat.sub_0_r. auto.
Qed.

Lemma startup_moves_by_harmonic_witness :
  let st := UnionPygame.set_prev (UnionPygame.__init__ 1920 1080 100 5)
                                 (Some (mkQ 1 0 0 0)) in
  exists self_k out,
    UnionPygame.feed_same 2 st (mkQ 0 0 0 1) = Ok (self_k, out) /\
    UnionPygame.screen_x self_k
    = UnionPygame.screen_x st + PI * 100 * UnionPygame.harmonic 2 /\
    UnionPygame.screen_y self_k
    = UnionPygame.screen_y st + 0 * UnionPygame.harmonic 2 /\
    UnionPygame.delta_buffer self_k = (PI * 100, 0) :: repeat (0, 0) (2 - 1).
Proof.
  intros st.
  apply (startup_moves_by_harmonic st (mkQ 0 0 0 1) (mkQ 0 0 0 1) (mkQ 1 0 0 0)
           (PI * 100) 0 2).
  - reflexivity.
  - reflexivity.
  - apply normalize_unit_norm, norm_half_turn.
  - apply (sample_delta_half_turn st). reflexivity.
  - simpl. lia.
  - intros i Hi. pose proof PI2_1. pose proof PI_4.
    assert (Hc : i = 1%nat \/ i = 2%nat) by lia.
    simpl UnionPygame.screen_x. simpl UnionPygame.screen_y.
    simpl UnionPygame.screen_width. simpl UnionPygame.screen_height.
    change (1920 / 2)%Z with 960%Z. change (1080 / 2)%Z with 540%Z.
    destruct Hc as [-> | ->]; simpl; lra.
Defined.
